(** * lynx: swap client, cycle controller and fund transfers

    A shallow embedding of [jupiter_integration.py], [trading.py] and
    [load_withdrawal.py].  Python values are embedded as an inductive type
    of decoded JSON, amounts in SOL as IEEE binary64 numbers (Rocq's
    primitive floats), the two shared dictionaries of [config.py] as finite
    maps, and every [await] as one step of an explicit world that records
    the trace of effects.  What the network, the ledger and the settings
    store answer is read from an environment of oracles indexed by the
    instant of the call. *)

From Stdlib Require Import ZArith QArith Qabs Qpower Lqa Floats Lia Bool Ascii String.
From stdpp Require Import gmap strings list.

Set Warnings "-register-all,-inexact-float".

Open Scope Z_scope.

(* ================================================================== *)
(** * Python values *)
(* ================================================================== *)

Module Py.

(** What [resp.json()] can decode to. *)
Inductive json :=
| JNull
| JBool (b : bool)
| JInt (z : Z)
| JFloat (f : float)
| JStr (s : string)
| JArr (l : list json)
| JObj (m : gmap string json).

(** The exceptions that occur in the embedded code. *)
Inductive exn :=
| ValueError
| TypeError
| AttributeError
| OverflowError
| ClientError        (* aiohttp: connection failure or timeout *)
| ContentTypeError   (* aiohttp: the body is not JSON *)
| FormatFieldError.  (* construct: a value that does not fit its field *)

Inductive result (A : Type) :=
| Ok (a : A)
| Raise (e : exn).
Arguments Ok {A} a.
Arguments Raise {A} e.

(** [int(x)] on a float: truncation toward zero; [nan] and the infinities
    raise. *)
Definition float_to_Z (f : float) : option Z :=
  match Prim2SF f with
  | S754_zero _ => Some 0
  | S754_infinity _ => None
  | S754_nan => None
  | S754_finite s m e =>
      let v := if 0 <=? e then Z.pos m * 2 ^ e else Z.pos m / 2 ^ (- e) in
      Some (if s then - v else v)
  end.

Definition int_of_float (f : float) : result Z :=
  match Prim2SF f with
  | S754_nan => Raise ValueError
  | S754_infinity _ => Raise OverflowError
  | _ => match float_to_Z f with Some z => Ok z | None => Raise ValueError end
  end.

(** [int(s)] on a string, as CPython 3.11 does it (Unicode 14.0, and the
    default limit of 4300 digits of [sys.set_int_max_str_digits]).  A
    string is held as the bytes of its UTF-8 form.  The characters are
    made ASCII first: a Unicode white space becomes a blank, a decimal
    digit of any script its ASCII digit, any other character beyond ASCII
    a question mark.  Then come optional white space, an optional sign,
    decimal digits in which single underscores may separate digits, and
    optional white space. *)
Definition code (c : ascii) : Z := Z.of_nat (nat_of_ascii c).

(** The code points of a string; [-1] stands for bytes that encode no
    character.  [need] continuation bytes are awaited for the character
    whose leading bits are [acc], and which must not be below [lo]. *)
Fixpoint code_points (s : string) (need : nat) (acc lo : Z) : list Z :=
  match s with
  | EmptyString => match need with O => [] | S _ => [-1] end
  | String c s' =>
      let b := code c in
      match need with
      | O =>
          if b <? 128 then b :: code_points s' 0 0 0
          else if (194 <=? b) && (b <=? 223) then code_points s' 1 (b - 192) 128
          else if (224 <=? b) && (b <=? 239) then code_points s' 2 (b - 224) 2048
          else if (240 <=? b) && (b <=? 244) then code_points s' 3 (b - 240) 65536
          else -1 :: code_points s' 0 0 0
      | S n =>
          if (128 <=? b) && (b <=? 191) then
            let acc' := acc * 64 + (b - 128) in
            match n with
            | O => (if (lo <=? acc') && (acc' <=? 1114111) then acc' else -1)
                     :: code_points s' 0 0 0
            | S _ => code_points s' n acc' lo
            end
          else -1 :: code_points s' 0 0 0
      end
  end.

(** [Py_ISSPACE], and [Py_UNICODE_ISSPACE] beyond ASCII. *)
Definition is_space (n : Z) : bool :=
  (n =? 32) || ((9 <=? n) && (n <=? 13)).

Definition unicode_space (n : Z) : bool :=
  (n =? 133) || (n =? 160) || (n =? 5760) || ((8192 <=? n) && (n <=? 8202))
  || (n =? 8232) || (n =? 8233) || (n =? 8239) || (n =? 8287) || (n =? 12288).

(** The characters of decimal value 0; the nine that follow each have the
    values 1 to 9. *)
Definition decimal_zeros : list Z :=
  [1632; 1776; 1984; 2406; 2534; 2662; 2790; 2918; 3046; 3174; 3302; 3430;
   3558; 3664; 3792; 3872; 4160; 4240; 6112; 6160; 6470; 6608; 6784; 6800;
   6992; 7088; 7232; 7248; 42528; 43216; 43264; 43472; 43504; 43600; 44016;
   65296; 66720; 68912; 69734; 69872; 69942; 70096; 70384; 70736; 70864;
   71248; 71360; 71472; 71904; 72016; 72784; 73040; 73120; 92768; 92864;
   93008; 120782; 120792; 120802; 120812; 120822; 123200; 123632; 125264;
   130032].

Definition unicode_decimal (n : Z) : option Z :=
  (fun zero => n - zero) <$> List.find (fun zero => (zero <=? n) && (n <=? zero + 9))
                                        decimal_zeros.

Definition to_ascii (n : Z) : Z :=
  if (0 <=? n) && (n <? 127) then n
  else if unicode_space n then 32
  else match unicode_decimal n with
       | Some d => 48 + d
       | None => 63
       end.

Definition digit_of (n : Z) : option Z :=
  if (48 <=? n) && (n <=? 57) then Some (n - 48) else None.

Fixpoint lstrip (l : list Z) : list Z :=
  match l with
  | c :: l' => if is_space c then lstrip l' else l
  | [] => []
  end.

Definition strip (l : list Z) : list Z :=
  rev (lstrip (rev (lstrip l))).

Definition max_str_digits : Z := 4300.

(** [digits] counts the digits read so far, underscores apart. *)
Fixpoint parse_digits (acc digits : Z) (after_digit : bool) (l : list Z) : option Z :=
  match l with
  | [] => if after_digit && (digits <=? max_str_digits) then Some acc else None
  | c :: l' =>
      match digit_of c with
      | Some d => parse_digits (acc * 10 + d) (digits + 1) true l'
      | None =>
          if (c =? 95) && after_digit then parse_digits acc digits false l'
          else None
      end
  end.

Definition int_of_string (s : string) : option Z :=
  match strip (map to_ascii (code_points s 0 0 0)) with
  | c :: l' =>
      if c =? 45 then Z.opp <$> parse_digits 0 0 false l'
      else if c =? 43 then parse_digits 0 0 false l'
      else parse_digits 0 0 false (c :: l')
  | [] => None
  end.

(** [int(v)] for a decoded value. *)
Definition int (v : json) : result Z :=
  match v with
  | JNull => Raise TypeError
  | JBool b => Ok (if b then 1 else 0)
  | JInt z => Ok z
  | JFloat f => int_of_float f
  | JStr s => match int_of_string s with Some z => Ok z | None => Raise ValueError end
  | JArr _ => Raise TypeError
  | JObj _ => Raise TypeError
  end.

(** Truth value, as tested by [if v] and [not v]. *)
Definition truthy (v : json) : bool :=
  match v with
  | JNull => false
  | JBool b => b
  | JInt z => negb (z =? 0)
  | JFloat f => negb (PrimFloat.eqb f 0%float)
  | JStr s => negb (String.eqb s "")
  | JArr l => match l with [] => false | _ => true end
  | JObj m => negb (Nat.eqb (size m) 0)
  end.

Definition is_str (k : string) (v : json) : bool :=
  match v with JStr s => String.eqb s k | _ => false end.

(** [k in v] for a string [k]: key of a dict, element of a list, substring
    of a string; anything else is not iterable. *)
Definition contains (k : string) (v : json) : result bool :=
  match v with
  | JObj m => Ok (match m !! k with Some _ => true | None => false end)
  | JArr l => Ok (existsb (is_str k) l)
  | JStr s => Ok (match String.index 0 k s with Some _ => true | None => false end)
  | _ => Raise TypeError
  end.

(** [v.get(k)]: only a dict has the method; a missing key gives [None]. *)
Definition get (v : json) (k : string) : result json :=
  match v with
  | JObj m => Ok (default JNull (m !! k))
  | _ => Raise AttributeError
  end.

(** The empty dict [{}]. *)
Definition empty_dict : json := JObj ∅.

End Py.

Import Py.

(* ================================================================== *)
(** * The world: shared state, environment and effects *)
(* ================================================================== *)

(** A [Keypair] is used through its public key only. *)
Record Keypair := { public_key : string }.

(** A row of the [agent_settings] table, as far as the cycle reads it. *)
Record AgentSettings := {
  fixed_buy : float;
  fixed_sell_delay : Z;
  fixed_rest_delay : Z;
  sell_enabled : bool
}.

(** A row of the [wallets] table. *)
Record Wallet := {
  is_root : bool;
  is_agent : bool;
  base58_key : string;
  agent_name : string
}.

(** What one [session.get] on the quote endpoint produces: the call itself
    fails, or a response arrives with its status, its [Retry-After] header
    if any, and its body decoded by [resp.json()] ([None] when the decoding
    raises). *)
Inductive http_outcome :=
| ConnError
| HttpResp (status : Z) (retry_after : option string) (body : option json).

(** The effects a task performs, in order. [EvBuy] and [EvSell] mark the
    entry of [buy_token_jupiter] and [sell_token_jupiter]. *)
Inductive event :=
| EvSleep (secs : Z)
| EvGetSettings (user agent : string)
| EvGetBalance (pubkey : string)
| EvGetWallets (user : string)
| EvHttpGet (input_mint output_mint : string) (amount slippage_bps : Z)
| EvSwap (quote : json) (wallet : string)
| EvSend (from to : string) (lamports : Z)
| EvBuy (token : string) (amount_sol : float)
| EvSell (token : string) (amount : Z).

(** The environment of a task. Every oracle is indexed by the instant (the
    number of suspension points passed) at which it is consulted.
    - [active_trading] is the content of [config.active_trading], which
      only the command layer writes;
    - [env_others] is what the other tasks do to [config.agent_last_buy]
      while this one is suspended;
    - [env_settings] and [env_wallets] are the rows that [database.py]
      returns;
    - [env_balance] is the result of [get_sol_balance], in SOL (it is 0.0
      when the ledger call fails);
    - [env_http] is the outcome of the quote request;
    - [env_swap] is the result of [jupiter_swap], [None] on any failure;
    - [env_send] tells whether [solana_client.send_transaction] returns
      ([true]) or raises ([false]);
    - [env_from_secret_key] is the decoding of a stored key, [None] when
      [base58.b58decode] or [Keypair.from_secret_key] raises. *)
Record Env := {
  active_trading : nat -> gmap string bool;
  env_others : nat -> gmap string Z -> gmap string Z;
  env_settings : nat -> string -> string -> AgentSettings;
  env_balance : nat -> string -> float;
  env_wallets : nat -> string -> list Wallet;
  env_http : nat -> http_outcome;
  env_swap : nat -> option string;
  env_send : nat -> bool;
  env_from_secret_key : string -> option Keypair
}.

(** The state of a task: the instant, the shared dictionary of the last
    buys, and the effects performed so far, oldest first. *)
Record World := {
  tick : nat;
  agent_last_buy : gmap string Z;
  trace : list event
}.

(** Computations: state and exceptions. *)
Definition M (A : Type) : Type := World -> result A * World.

Definition ret {A} (a : A) : M A := fun w => (Ok a, w).

Definition bind {A B} (m : M A) (k : A -> M B) : M B :=
  fun w => match m w with
           | (Ok a, w') => k a w'
           | (Raise e, w') => (Raise e, w')
           end.

Definition raise {A} (e : exn) : M A := fun w => (Raise e, w).

Definition lift {A} (r : result A) : M A := fun w => (r, w).

(** [try: m except Exception as e: ...]: the exception becomes a value. *)
Definition try_ {A} (m : M A) : M (A + exn) :=
  fun w => match m w with
           | (Ok a, w') => (Ok (inl a), w')
           | (Raise e, w') => (Ok (inr e), w')
           end.

Notation "x <- c1 ;; c2" := (bind c1 (fun x => c2))
  (at level 100, c1 at next level, right associativity).
Notation "c1 ;; c2" := (bind c1 (fun _ => c2))
  (at level 100, right associativity).

(** An entry marker: extends the trace, no suspension. *)
Definition mark (ev : event) : M unit :=
  fun w => (Ok tt, {| tick := tick w;
                      agent_last_buy := agent_last_buy w;
                      trace := trace w ++ [ev] |}).

(** [agent_last_buy[key] = v] and [agent_last_buy.get(key, 0)]. *)
Definition store (key : string) (v : Z) : M unit :=
  fun w => (Ok tt, {| tick := tick w;
                      agent_last_buy := <[key := v]> (agent_last_buy w);
                      trace := trace w |}).

Definition load (key : string) : M Z :=
  fun w => (Ok (default 0 (agent_last_buy w !! key)), w).

Section Effects.

Context (env : Env).

(** A suspension point: the effect is recorded, the other tasks run, the
    clock of instants advances. The instant of the call is returned. *)
Definition await (ev : event) : M nat :=
  fun w => (Ok (tick w),
            {| tick := S (tick w);
               agent_last_buy := env_others env (tick w) (agent_last_buy w);
               trace := trace w ++ [ev] |}).

(** [asyncio.sleep] on a delay that the clock of the event loop can take:
    the constants of the code and the delays of the settings, which are
    INT columns of the database. *)
Definition sleep (secs : Z) : M unit :=
  _ <- await (EvSleep secs) ;; ret tt.

(** [asyncio.sleep] on an integer that is not known to be small: a
    positive delay is added to the clock of the event loop, a float, and
    from [2^1024 - 2^970] on an integer converts to no float; the call
    raises before it suspends. *)
Definition sleep_limit : Z := 2 ^ 1024 - 2 ^ 970.

Definition asyncio_sleep (secs : Z) : M unit :=
  if sleep_limit <=? secs then raise OverflowError else sleep secs.

(** [active_trading.get(user_id, False)]: a plain read, no suspension. *)
Definition is_active (user_id : string) : M bool :=
  fun w => (Ok (default false (active_trading env (tick w) !! user_id)), w).

Definition get_agent_settings (user_id name : string) : M AgentSettings :=
  t <- await (EvGetSettings user_id name) ;; ret (env_settings env t user_id name).

Definition get_sol_balance (pubkey : string) : M float :=
  t <- await (EvGetBalance pubkey) ;; ret (env_balance env t pubkey).

Definition get_user_wallets (user_id : string) : M (list Wallet) :=
  t <- await (EvGetWallets user_id) ;; ret (env_wallets env t user_id).

Definition send_transaction (from to : string) (lamports : Z) : M bool :=
  t <- await (EvSend from to lamports) ;; ret (env_send env t).

(** [Keypair.from_secret_key(base58.b58decode(key))]. *)
Definition decode_keypair (key : string) : result Keypair :=
  match env_from_secret_key env key with
  | Some kp => Ok kp
  | None => Raise ValueError
  end.

(* ================================================================== *)
(** * jupiter_integration.py *)
(* ================================================================== *)

Definition DEFAULT_SLIPPAGE : Z := 20.
Definition SOL_MINT : string := "So11111111111111111111111111111111111111112".

(** The query of a quote request; [slippage] is in percentage points and
    every caller passes the integer [DEFAULT_SLIPPAGE]. *)
Record quote_params := {
  q_input : string;
  q_output : string;
  q_amount : Z;
  q_slippage : Z
}.

Definition http_get (p : quote_params) : M http_outcome :=
  t <- await (EvHttpGet (q_input p) (q_output p) (q_amount p) (q_slippage p * 100)) ;;
  ret (env_http env t).

(** [int(resp.headers.get("Retry-After", 5))]. *)
Definition retry_after_of (hdr : option string) : result Z :=
  match hdr with
  | Some s => Py.int (JStr s)
  | None => Ok 5
  end.

(** How the body of the [try] ends when it does not raise: by a [return]
    or by the [continue] of the rate-limit branch. *)
Inductive flow :=
| Return (data : json)
| Continue.

(** The body of the [try] of [jupiter_get_quote], lines 40-58. *)
Definition quote_try (p : quote_params) : M flow :=
  o <- http_get p ;;
  match o with
  | ConnError => raise ClientError
  | HttpResp status hdr body =>
      match body with
      | None => raise ContentTypeError
      | Some data =>
          if status =? 429 then
            retry_after <- lift (retry_after_of hdr) ;;
            asyncio_sleep retry_after ;;
            ret Continue
          else if negb (status =? 200) then ret (Return empty_dict)
          else if negb (truthy data) then ret (Return empty_dict)
          else
            has_plan <- lift (contains "routePlan" data) ;;
            if negb has_plan then ret (Return empty_dict)
            else ret (Return data)
      end
  end.

(** The [while attempt < max_retries] loop; [remaining] is
    [max_retries - attempt], which every turn of the loop that does not
    return decreases by one.  The sleep of the handler is outside the
    [try]: what it raises leaves the function. *)
Fixpoint quote_loop (p : quote_params) (remaining : nat) (attempt : Z) : M json :=
  match remaining with
  | O => ret empty_dict
  | S k =>
      r <- try_ (quote_try p) ;;
      match r with
      | inl (Return data) => ret data
      | inl Continue => quote_loop p k (attempt + 1)
      | inr _ => asyncio_sleep (2 ^ attempt) ;; quote_loop p k (attempt + 1)
      end
  end.

Definition jupiter_get_quote (input_mint output_mint : string) (amount slippage : Z)
    (max_retries : Z) : M json :=
  quote_loop {| q_input := input_mint; q_output := output_mint;
                q_amount := amount; q_slippage := slippage |}
             (Z.to_nat max_retries) 0.

(** [jupiter_swap]: the request to the execute endpoint, the decoding, the
    signature and the submission all sit in one [try] whose handler returns
    [None]; the outcome is what the environment makes of it. *)
Definition jupiter_swap (user_keypair : Keypair) (swap_response : json)
    (wallet : string) : M (option string) :=
  t <- await (EvSwap swap_response wallet) ;; ret (env_swap env t).

(** [if tx_sig] on an optional signature. *)
Definition sig_truthy (tx_sig : option string) : bool :=
  match tx_sig with
  | Some s => negb (String.eqb s "")
  | None => false
  end.

Definition to_lamports (amount_sol : float) : result Z :=
  int_of_float (amount_sol * 1000000000)%float.

Definition buy_token_jupiter (wallet_kp : Keypair) (token_address : string)
    (amount_sol : float) : M (option (string * Z)) :=
  mark (EvBuy token_address amount_sol) ;;
  lamports <- lift (to_lamports amount_sol) ;;
  if lamports <? 100000 then ret None
  else
    quote <- jupiter_get_quote SOL_MINT token_address lamports DEFAULT_SLIPPAGE 5 ;;
    if negb (truthy quote) then ret None
    else
      out_amount_str <- lift (Py.get quote "outAmount") ;;
      let out_amount := match Py.int out_amount_str with
                        | Ok z => z
                        | Raise _ => 0
                        end in
      tx_sig <- jupiter_swap wallet_kp quote (public_key wallet_kp) ;;
      match tx_sig with
      | Some s => if sig_truthy tx_sig then ret (Some (s, out_amount)) else ret None
      | None => ret None
      end.

Definition sell_token_jupiter (wallet_kp : Keypair) (token_mint : string)
    (amount : Z) : M (option string) :=
  mark (EvSell token_mint amount) ;;
  quote <- jupiter_get_quote token_mint SOL_MINT amount DEFAULT_SLIPPAGE 5 ;;
  if negb (truthy quote) then ret None
  else
    tx_sig <- jupiter_swap wallet_kp quote (public_key wallet_kp) ;;
    ret tx_sig.

(* ================================================================== *)
(** * trading.py *)
(* ================================================================== *)

(** How one turn of the [while] loop of [run_wallet_cycle] ends: by one of
    its three [continue] statements or by reaching the rest at the bottom. *)
Inductive iteration_end :=
| NoBuyAmount
| NoFunds
| BuyFailed
| Rested.

(** Lines 83-98: the sell step, entered after the hold. *)
Definition selling (wallet_kp : Keypair) (token_address agent_key : string) : M unit :=
  stored_amount <- load agent_key ;;
  if 0 <? stored_amount then
    tx_sell <- sell_token_jupiter wallet_kp token_address stored_amount ;;
    if sig_truthy tx_sell then store agent_key 0 else ret tt
  else ret tt.

(** Line 105. *)
Definition resting (s : AgentSettings) : M unit :=
  sleep (if 0 <? fixed_rest_delay s then fixed_rest_delay s else 1).

(** Lines 80-105: what follows a successful buy. *)
Definition after_buy (s : AgentSettings) (wallet_kp : Keypair)
    (token_address agent_key : string) : M unit :=
  (if sell_enabled s then
     sleep (fixed_sell_delay s) ;;
     selling wallet_kp token_address agent_key
   else ret tt) ;;
  resting s.

(** Lines 38-105: the body of the loop. *)
Definition cycle_body (user_id : string) (wallet_kp : Keypair)
    (token_address name : string) : M iteration_end :=
  let agent_key := (user_id +:+ "_" +:+ name)%string in
  s <- get_agent_settings user_id name ;;
  if (fixed_buy s <=? 0)%float then sleep 5 ;; ret NoBuyAmount
  else
    sol_balance <- get_sol_balance (public_key wallet_kp) ;;
    if (sol_balance <? fixed_buy s)%float then sleep 5 ;; ret NoFunds
    else
      buy_result <- buy_token_jupiter wallet_kp token_address (fixed_buy s) ;;
      match buy_result with
      | Some (tx_buy, out_amount) =>
          store agent_key out_amount ;;
          after_buy s wallet_kp token_address agent_key ;;
          ret Rested
      | None => sleep 1 ;; ret BuyFailed
      end.

(** How a bounded observation of the controller ends: the loop was left
    because the flag was off, or it is still turning. *)
Inductive run_end :=
| Stopped
| StillRunning.

(** [run_wallet_cycle], observed for at most [turns] turns of its loop. *)
Fixpoint run_wallet_cycle (turns : nat) (user_id : string) (wallet_kp : Keypair)
    (token_address name : string) : M run_end :=
  match turns with
  | O => ret StillRunning
  | S k =>
      active <- is_active user_id ;;
      if active then
        cycle_body user_id wallet_kp token_address name ;;
        run_wallet_cycle k user_id wallet_kp token_address name
      else ret Stopped
  end.

(* ================================================================== *)
(** * load_withdrawal.py *)
(* ================================================================== *)

(** One entry of the list that the operations join with newlines. *)
Inductive report_line :=
| Message (text : string)
| LoadSuccess (name : string)
| LoadFailed (name : string)
| KeyDecodeError (name : string)
| Insufficient (name : string)
| Collected (name : string) (lamports : Z)
| TransferFailed (name : string).

Definition MIN_BALANCE : float := 0.001%float.

(** [transfer(TransferParams(..., lamports=lamports))]: the instruction
    holds the amount in an unsigned field of 64 bits, and building it
    raises on an amount that does not fit. *)
Definition transfer (lamports : Z) : result unit :=
  if (0 <=? lamports) && (lamports <? 2 ^ 64) then Ok tt else Raise FormatFieldError.

(** The body of the [for] loop of [load_all_agents], lines 31-45; the
    decoding of the key, the conversion and the building of the
    instruction stand before the [try]. *)
Definition load_one (root_key : Keypair) (amount : float) (agent : Wallet)
    : M report_line :=
  agent_key <- lift (decode_keypair (base58_key agent)) ;;
  lamports <- lift (to_lamports amount) ;;
  lift (transfer lamports) ;;
  sent <- send_transaction (public_key root_key) (public_key agent_key) lamports ;;
  if sent then ret (LoadSuccess (agent_name agent))
  else ret (LoadFailed (agent_name agent)).

Fixpoint load_loop (root_key : Keypair) (amount : float) (agents : list Wallet)
    (responses : list report_line) : M (list report_line) :=
  match agents with
  | [] => ret responses
  | agent :: rest =>
      line <- load_one root_key amount agent ;;
      load_loop root_key amount rest (responses ++ [line])
  end.

Definition load_all_agents (user_id : string) (amount : float) : M (list report_line) :=
  wallets <- get_user_wallets user_id ;;
  let root := head (filter (fun w => is_root w = true) wallets) in
  let agents := filter (fun w => is_agent w = true) wallets in
  match root, agents with
  | Some root, _ :: _ =>
      root_key <- lift (decode_keypair (base58_key root)) ;;
      load_loop root_key amount agents []
  | _, _ => ret [Message "Missing root wallet or agent wallets."]
  end.

(** The body of the [for] loop of [collect_agents_to_root], lines 106-132.
    The instruction of lines 120-125 is built from a balance above the
    reserve, an amount of lamports that the ledger has reported and that
    fits its field. *)
Definition collect_one (root_key : Keypair) (agent : Wallet) : M report_line :=
  match decode_keypair (base58_key agent) with
  | Raise _ => ret (KeyDecodeError (agent_name agent))
  | Ok agent_key =>
      balance <- get_sol_balance (public_key agent_key) ;;
      if (balance <=? MIN_BALANCE)%float then ret (Insufficient (agent_name agent))
      else
        lamports <- lift (to_lamports (balance - MIN_BALANCE)%float) ;;
        sent <- send_transaction (public_key agent_key) (public_key root_key) lamports ;;
        if sent then ret (Collected (agent_name agent) lamports)
        else ret (TransferFailed (agent_name agent))
  end.

Fixpoint collect_loop (root_key : Keypair) (agents : list Wallet)
    (results : list report_line) : M (list report_line) :=
  match agents with
  | [] => ret results
  | agent :: rest =>
      line <- collect_one root_key agent ;;
      collect_loop root_key rest (results ++ [line])
  end.

Definition collect_agents_to_root (user_id : string) : M (list report_line) :=
  wallets <- get_user_wallets user_id ;;
  let root := head (filter (fun w => is_root w = true) wallets) in
  let agents := filter (fun w => is_agent w = true) wallets in
  match root with
  | None => ret [Message "No Root Wallet found."]
  | Some root =>
      match agents with
      | [] => ret [Message "No Agent Wallets found."]
      | _ :: _ =>
          match decode_keypair (base58_key root) with
          | Raise _ => ret [Message "Error decoding Root Wallet key."]
          | Ok root_key => collect_loop root_key agents []
          end
      end
  end.

End Effects.

(* ================================================================== *)
(** * The rest of trading.py and load_withdrawal.py, and security.py *)
(* ================================================================== *)

Section MoreEffects.

Context (env : Env).

(** [run_user_trading], lines 120-136: what follows the read of the user's
    settings, [token_address] being the value read ([None] for a null
    column). [asyncio.create_task] starts a controller that runs beside
    this task; the controllers started, each with its key pair and agent
    name, are returned in the order of their start. *)
Fixpoint spawn_loop (wallets : list Wallet) (spawned : list (Keypair * string))
    : M (list (Keypair * string)) :=
  match wallets with
  | [] => ret spawned
  | wallet :: rest =>
      if is_agent wallet then
        match decode_keypair env (base58_key wallet) with
        | Raise _ => spawn_loop rest spawned
        | Ok wallet_kp =>
            sleep env 1 ;;
            spawn_loop rest (spawned ++ [(wallet_kp, agent_name wallet)])
        end
      else spawn_loop rest spawned
  end.

Definition run_user_trading_from (token_address : option string) (user_id : string)
    : M (list (Keypair * string)) :=
  match token_address with
  | None => ret []
  | Some EmptyString => ret []
  | Some _ =>
      wallets <- get_user_wallets env user_id ;;
      spawn_loop wallets []
  end.

(** What [load_to_agent] and [withdraw_from_root] answer. *)
Inductive transfer_answer :=
| NoRootWallet               (* "No root wallet found." *)
| SentToAgent (amount : float) (name : string)   (* "... SOL sent to Agent ...." *)
| TransferFailedCheckLogs    (* "Transfer failed. Check logs." *)
| AddressNotSet              (* "Withdraw address not set." *)
| InvalidAddress             (* "Invalid withdraw address." *)
| Withdrawn                  (* "Withdrawal from Root successful! Tx: ..." *)
| WithdrawalFailed.          (* "Withdrawal failed. Check logs." *)

(** [load_to_agent], lines 57-77. *)
Definition load_to_agent (user_id : string) (agent_wallet : Wallet) (amount : float)
    : M transfer_answer :=
  wallets <- get_user_wallets env user_id ;;
  match head (filter (fun w => is_root w = true) wallets) with
  | None => ret NoRootWallet
  | Some root =>
      root_key <- lift (decode_keypair env (base58_key root)) ;;
      agent_key <- lift (decode_keypair env (base58_key agent_wallet)) ;;
      lamports <- lift (to_lamports amount) ;;
      lift (transfer lamports) ;;
      sent <- send_transaction env (public_key root_key) (public_key agent_key) lamports ;;
      if sent then ret (SentToAgent amount (agent_name agent_wallet))
      else ret TransferFailedCheckLogs
  end.

(** [withdraw_from_root], lines 147-173: what follows the read of the
    user's settings, [withdraw_addr] being the value read. [parse_address]
    is [PublicKey(withdraw_addr)], [None] when it raises. *)
Definition withdraw_from_root_to (parse_address : string -> option string)
    (withdraw_addr : option string) (user_id : string) (amount : float)
    : M transfer_answer :=
  match withdraw_addr with
  | None => ret AddressNotSet
  | Some EmptyString => ret AddressNotSet
  | Some addr =>
      wallets <- get_user_wallets env user_id ;;
      match head (filter (fun w => is_root w = true) wallets) with
      | None => ret NoRootWallet
      | Some root =>
          root_key <- lift (decode_keypair env (base58_key root)) ;;
          match parse_address addr with
          | None => ret InvalidAddress
          | Some dest_pub =>
              lamports <- lift (to_lamports amount) ;;
              lift (transfer lamports) ;;
              sent <- send_transaction env (public_key root_key) dest_pub lamports ;;
              if sent then ret Withdrawn else ret WithdrawalFailed
          end
      end
  end.

End MoreEffects.

(** [security.py], [mask_sensitive_data]; a string is the list of its
    characters. [data[:n]], [data[n:]] and ["*" * n] are Python's: a
    negative index counts from the end, an index out of range is moved to
    the nearest end, a count below zero gives the empty string. *)
Definition py_index (len n : Z) : nat :=
  Z.to_nat (Z.max 0 (Z.min len (if n <? 0 then n + len else n))).

Definition slice_to (data : list ascii) (n : Z) : list ascii :=
  firstn (py_index (Z.of_nat (length data)) n) data.

Definition slice_from (data : list ascii) (n : Z) : list ascii :=
  skipn (py_index (Z.of_nat (length data)) n) data.

Definition stars (n : Z) : list ascii := repeat "*"%char (Z.to_nat n).

Definition mask_sensitive_data (data : list ascii) (visible_chars : Z) : list ascii :=
  let len := Z.of_nat (length data) in
  if len <=? 2 * visible_chars then stars len
  else slice_to data visible_chars ++ stars (len - 2 * visible_chars)
       ++ slice_from data (- visible_chars).

(* ================================================================== *)
(** * Observations *)
(* ================================================================== *)

(** The world a computation leaves behind. *)
Definition after {A} (m : M A) (w : World) : World := snd (m w).

(** The number of quote requests in a stretch of trace. *)
Definition is_request (ev : event) : bool :=
  match ev with EvHttpGet _ _ _ _ => true | _ => false end.

Definition requests (evs : list event) : nat :=
  length (List.filter is_request evs).

(** The outcomes after which [jupiter_get_quote] goes round its loop
    again: a failed call, a body that does not decode, a rate limit. *)
Definition retried (o : http_outcome) : bool :=
  match o with
  | ConnError => true
  | HttpResp _ _ None => true
  | HttpResp status _ (Some _) => status =? 429
  end.

(** The events of the network: requests, sleeps and swaps. *)
Definition net_event (ev : event) : Prop :=
  match ev with
  | EvHttpGet _ _ _ _ => True
  | EvSleep _ => True
  | EvSwap _ _ => True
  | _ => False
  end.

(** The trace of [k] turns of the quote loop that all end in its exception
    handler, from the counter [attempt] on. *)
Fixpoint backoff_trace (p : quote_params) (attempt : Z) (k : nat) : list event :=
  match k with
  | O => []
  | S k' =>
      EvHttpGet (q_input p) (q_output p) (q_amount p) (q_slippage p * 100)
        :: EvSleep (2 ^ attempt) :: backoff_trace p (attempt + 1) k'
  end.


(** [agent_last_buy] after [n] suspension points from instant [t] on during
    which only the other tasks have written to it. *)
Fixpoint drift (env : Env) (t n : nat) (s : gmap string Z) : gmap string Z :=
  match n with
  | O => s
  | S n' => drift env (S t) n' (env_others env t s)
  end.

(** Follows the spec's words, "validity requires a non-empty route plan":
    the quote is a dict whose route plan is a non-empty list. *)
Definition has_nonempty_route_plan (quote : json) : bool :=
  match quote with
  | JObj m => match m !! "routePlan" with
              | Some (JArr (_ :: _)) => true
              | _ => false
              end
  | _ => false
  end.

(* ================================================================== *)
(** * Scenarios *)
(* ================================================================== *)

(** A world in which nothing has happened yet. *)
Definition idle : World := {| tick := 0; agent_last_buy := ∅; trace := [] |}.

(** No other task writes [agent_last_buy]. *)
Definition quiet : nat -> gmap string Z -> gmap string Z := fun _ s => s.

Definition base58_alphabet : string :=
  "123456789ABCDEFGHJKLMNPQRSTUVWXYZabcdefghijkmnopqrstuvwxyz".

(** [base58.b58decode] rejects a key with a character outside the
    alphabet; the scenarios take the public key of any other key to be the
    key prefixed by [pub:]. *)
Definition scenario_from_secret_key (key : string) : option Keypair :=
  if forallb (fun c => match String.index 0 (String c EmptyString) base58_alphabet with
                       | Some _ => true
                       | None => false
                       end) (list_ascii_of_string key)
  then Some {| public_key := "pub:" +:+ key |}
  else None.

(** An environment with one user ["7"] whose trading is on, fixed settings
    and balances, given quote responses and swap outcomes. *)
Definition scenario (s : AgentSettings) (balance : float) (wallets : list Wallet)
    (http : nat -> http_outcome) (swap : nat -> option string) (send : nat -> bool) : Env :=
  {| active_trading := fun _ => {["7" := true]};
     env_others := quiet;
     env_settings := fun _ _ _ => s;
     env_balance := fun _ _ => balance;
     env_wallets := fun _ _ => wallets;
     env_http := http;
     env_swap := swap;
     env_send := send;
     env_from_secret_key := scenario_from_secret_key |}.

Definition settings_1 : AgentSettings :=
  {| fixed_buy := 0.01; fixed_sell_delay := 3; fixed_rest_delay := 0;
     sell_enabled := true |}.

(** The quote requests meet a gateway that answers 502 with an HTML page. *)
Definition bad_gateway : Env :=
  scenario settings_1 1 [] (fun _ => HttpResp 502 None None) (fun _ => None)
           (fun _ => true).

(** The first request is rate limited with [Retry-After: 7], the second
    answers 503 with a JSON body. *)
Definition limited_then_503 : Env :=
  scenario settings_1 1 []
           (fun t => match t with
                     | O => HttpResp 429 (Some "7") (Some JNull)
                     | _ => HttpResp 503 None (Some JNull)
                     end)
           (fun _ => None) (fun _ => true).

(** The first request is rate limited with [Retry-After: 7], the second is
    answered 200 with the number 7 for a body, the third 503 with a JSON
    body. *)
Definition limited_then_number_then_503 : Env :=
  scenario settings_1 1 []
           (fun t => match t with
                     | O => HttpResp 429 (Some "7") (Some JNull)
                     | 2%nat => HttpResp 200 None (Some (JInt 7))
                     | _ => HttpResp 503 None (Some JNull)
                     end)
           (fun _ => None) (fun _ => true).

(** Every request is rate limited, and the delay comes as an HTTP date. *)
Definition limited_until_date : Env :=
  scenario settings_1 1 []
           (fun _ => HttpResp 429 (Some "Wed, 21 Oct 2015 07:28:00 GMT") (Some JNull))
           (fun _ => None) (fun _ => true).

(** A quote whose route plan is the empty list. *)
Definition no_route : json :=
  JObj (<["routePlan" := JArr []]> (<["outAmount" := JStr "0"]> ∅)).

Definition empty_plan : Env :=
  scenario settings_1 1 [] (fun _ => HttpResp 200 None (Some no_route))
           (fun _ => None) (fun _ => true).

(** The first request is rate limited, without [Retry-After]; the second
    is answered with the quote whose route plan is empty. *)
Definition limited_then_empty_plan : Env :=
  scenario settings_1 1 []
           (fun t => match t with
                     | O => HttpResp 429 None (Some JNull)
                     | _ => HttpResp 200 None (Some no_route)
                     end)
           (fun _ => None) (fun _ => true).

(** A quote with one hop and an output amount. *)
Definition good_quote : json :=
  JObj (<["routePlan" := JArr [JStr "hop"]]> (<["outAmount" := JStr "123"]> ∅)).

(** Quotes answered at once with [quote], swaps that succeed. *)
Definition smooth (s : AgentSettings) (quote : json) : Env :=
  scenario s 1 [] (fun _ => HttpResp 200 None (Some quote)) (fun _ => Some "sig"%string)
           (fun _ => true).

(** The same with swaps that fail. *)
Definition failing_swap (s : AgentSettings) (quote : json) : Env :=
  scenario s 1 [] (fun _ => HttpResp 200 None (Some quote)) (fun _ => None)
           (fun _ => true).

(** An agent that has no buy amount configured. *)
Definition settings_0 : AgentSettings :=
  {| fixed_buy := 0; fixed_sell_delay := 3; fixed_rest_delay := 10;
     sell_enabled := true |}.

(** A quote with a route but without [outAmount]. *)
Definition quote_without_amount : json :=
  JObj (<["routePlan" := JArr [JStr "hop"]]> ∅).


Definition wallet_W : Keypair := {| public_key := "W" |}.

(** The wallets of user ["7"]: a root and three agents. The key stored for
    agent [B] has a [0], which is not a base58 digit. *)
Definition key_root : string :=
  "4Jgs8aGj66iQCt88mNPXyjoJpPaCpYwurgym6AtJ2dBf9HZBqwV8ioNXwUw9Sq4iCHjVFPCDthZ6FbPoeeWjXZwh".
Definition key_A : string :=
  "nxF7K6UtyD1pfmf8FjaXZ8C5zEZ8samJ5cKPpcgUS6v4j3Yb8GTLD3edQX9xZt3GNpehYVK8AqdbbHkgzoGnbj8".
Definition key_B : string :=
  "56UKTXRiXU0TAm57tg7qbFH1rHayGvHMPzzQ52mjLwXJyUxfTpUf5LKi1xujubHWK87hiBNkgcAmrY5vBLJrPDeV".
Definition key_C : string :=
  "HtRCLEAvzGSzK4fBrrwC9BoNEznAyNTaQ5f8pMqLhHmKu7VWbje6UsagQt3cc7Df1B1jFfNP5QVyo31EhwCvRBF".

Definition wallets_7 : list Wallet :=
  [ {| is_root := true; is_agent := false; base58_key := key_root; agent_name := "" |};
    {| is_root := false; is_agent := true; base58_key := key_A; agent_name := "A" |};
    {| is_root := false; is_agent := true; base58_key := key_B; agent_name := "B" |};
    {| is_root := false; is_agent := true; base58_key := key_C; agent_name := "C" |} ].

(** Every wallet holds 0.01 SOL and every transfer goes through. *)
Definition funded : Env :=
  scenario settings_1 0.01 wallets_7 (fun _ => ConnError) (fun _ => None) (fun _ => true).

(** An agent whose key decodes. *)
Definition agent_A : Wallet :=
  {| is_root := false; is_agent := true; base58_key := key_A; agent_name := "A" |}.

(* ================================================================== *)
(** * Further observations and scenarios *)
(* ================================================================== *)

(** The swaps and the transfers in a stretch of trace, and the seconds
    slept in it. *)
Definition is_swap (ev : event) : bool :=
  match ev with EvSwap _ _ => true | _ => false end.

Definition swaps (evs : list event) : nat :=
  length (List.filter is_swap evs).

Definition is_send (ev : event) : bool :=
  match ev with EvSend _ _ _ => true | _ => false end.

Definition sends (evs : list event) : nat :=
  length (List.filter is_send evs).

Fixpoint slept (evs : list event) : Z :=
  match evs with
  | [] => 0
  | EvSleep secs :: rest => secs + slept rest
  | _ :: rest => slept rest
  end.

(** The events of a quote loop run with the query [p]: its request, always
    the same, and sleeps. *)
Definition quote_event (p : quote_params) (ev : event) : Prop :=
  ev = EvHttpGet (q_input p) (q_output p) (q_amount p) (q_slippage p * 100) \/
  exists secs, ev = EvSleep secs.

(** [data] is the body of a response with status 200 received at an
    instant from [t0] up to, not including, [t1], and it is a non-empty
    value in which [routePlan] occurs. *)
Definition quoted (env : Env) (t0 t1 : nat) (data : json) : Prop :=
  exists t hdr,
    (t0 <= t < t1)%nat /\
    env_http env t = HttpResp 200 hdr (Some data) /\
    truthy data = true /\
    contains "routePlan" data = Ok true.

(** The other tasks leave the entry [key] of [agent_last_buy] alone. *)
Definition untouched (env : Env) (key : string) : Prop :=
  forall t st, env_others env t st !! key = st !! key.

(** A computation that leaves the entry [key] as it found it. *)
Definition keeps {A} (key : string) (m : M A) : Prop :=
  forall w, agent_last_buy (after m w) !! key = agent_last_buy w !! key.

(** The controllers that [run_user_trading] is to start for a list of
    wallets: one per agent wallet whose key decodes, in the order of the
    wallets. *)
Definition controllers_of (env : Env) (wallets : list Wallet) : list (Keypair * string) :=
  omap (fun wallet =>
          if is_agent wallet
          then (fun kp => (kp, agent_name wallet)) <$> env_from_secret_key env (base58_key wallet)
          else None)
       wallets.



(** Every call on the quote endpoint fails. *)
Definition offline : Env :=
  scenario settings_1 1 [] (fun _ => ConnError) (fun _ => None) (fun _ => true).

(** An agent whose buy amount is not a number. *)
Definition settings_nan : AgentSettings :=
  {| fixed_buy := nan; fixed_sell_delay := 3; fixed_rest_delay := 0;
     sell_enabled := true |}.

(** An agent that buys 0.01 SOL and does not sell. *)
Definition settings_hold : AgentSettings :=
  {| fixed_buy := 0.01; fixed_sell_delay := 3; fixed_rest_delay := 7;
     sell_enabled := false |}.

(** The wallets hold 0.005 SOL, less than the 0.01 SOL of a buy. *)
Definition underfunded : Env :=
  scenario settings_1 0.005 wallets_7 (fun _ => HttpResp 200 None (Some good_quote))
           (fun _ => Some "sig"%string) (fun _ => true).

(** The wallets of a user who has two agents and no root. *)
Definition wallets_no_root : list Wallet :=
  [ {| is_root := false; is_agent := true; base58_key := key_A; agent_name := "A" |};
    {| is_root := false; is_agent := true; base58_key := key_C; agent_name := "C" |} ].

(** Wallets whose keys all decode. *)
Definition wallets_ok : list Wallet :=
  [ {| is_root := true; is_agent := false; base58_key := key_root; agent_name := "" |};
    {| is_root := false; is_agent := true; base58_key := key_A; agent_name := "A" |};
    {| is_root := false; is_agent := true; base58_key := key_C; agent_name := "C" |} ].

(** Every wallet holds 0.01 SOL; the second transfer submitted, at instant
    2, fails. *)
Definition second_send_fails : Env :=
  scenario settings_1 0.01 wallets_ok (fun _ => ConnError) (fun _ => None)
           (fun t => negb (t =? 2)%nat).

(** [PublicKey(addr)] in the scenarios: an address is taken when it is
    made of base58 digits. *)
Definition scenario_parse_address (addr : string) : option string :=
  public_key <$> scenario_from_secret_key addr.

(** The agent that a line of a report is about. *)
Definition line_name (line : report_line) : option string :=
  match line with
  | Message _ => None
  | LoadSuccess name => Some name
  | LoadFailed name => Some name
  | KeyDecodeError name => Some name
  | Insufficient name => Some name
  | Collected name _ => Some name
  | TransferFailed name => Some name
  end.

(** The public key of a wallet whose stored key decodes. *)
Definition wallet_pubkey (env : Env) (wallet : Wallet) : string :=
  from_option public_key ""%string (env_from_secret_key env (base58_key wallet)).

(** The lines of a distribution to [agents] whose transfers are submitted
    at the instants [t], [t + 1], ... *)
Fixpoint load_lines (env : Env) (t : nat) (agents : list Wallet) : list report_line :=
  match agents with
  | [] => []
  | agent :: rest =>
      (if env_send env t then LoadSuccess (agent_name agent)
       else LoadFailed (agent_name agent)) :: load_lines env (S t) rest
  end.

(** The root wallet and the agent wallets among [wallets], as the fund
    transfers select them. *)
Definition root_of (wallets : list Wallet) : option Wallet :=
  head (filter (fun w => is_root w = true) wallets).

Definition agents_of (wallets : list Wallet) : list Wallet :=
  filter (fun w => is_agent w = true) wallets.

(** [ev] is a transfer of the sweep from the agent wallet [agent] to the
    root. *)
Definition sweeps (env : Env) (root_key : Keypair) (ev : event) (agent : Wallet) : Prop :=
  exists agent_key lamports,
    env_from_secret_key env (base58_key agent) = Some agent_key /\
    ev = EvSend (public_key agent_key) (public_key root_key) lamports.

(** A root wallet whose stored key has a character that is no base58
    digit, and an agent. *)
Definition wallets_bad_root : list Wallet :=
  [ {| is_root := true; is_agent := false; base58_key := key_B; agent_name := "" |};
    {| is_root := false; is_agent := true; base58_key := key_A; agent_name := "A" |} ].

Definition bad_root : Env :=
  scenario settings_1 0.01 wallets_bad_root (fun _ => ConnError) (fun _ => None)
           (fun _ => true).

(* ================================================================== *)
(** * Amounts as numbers: the value of a binary64 *)
(* ================================================================== *)

(** The magnitude of a binary64 number, as a rational; a zero, an infinity
    and [nan] are given 0. *)
Definition SFmag (x : spec_float) : Q :=
  match x with
  | S754_finite _ m e => (inject_Z (Z.pos m) * 2 ^ e)%Q
  | _ => 0%Q
  end.

(** Its sign bit. *)
Definition SFsign (x : spec_float) : bool :=
  match x with
  | S754_finite s _ _ => s
  | S754_zero s => s
  | S754_infinity s => s
  | S754_nan => false
  end.

(** The value of a finite binary64 number. *)
Definition SF2Q (x : spec_float) : Q :=
  if SFsign x then (- SFmag x)%Q else SFmag x.

Definition float_Q (f : float) : Q := SF2Q (Prim2SF f).

(** [z] is [v] with its fraction dropped, the integer that [int(v)] gives:
    the magnitude of [z] is the integer part of the magnitude of [v], and
    their signs do not differ. *)
Definition truncated (v : Q) (z : Z) : Prop :=
  (Qabs (inject_Z z) <= Qabs v)%Q /\ (Qabs v < Qabs (inject_Z z) + 1)%Q /\
  (0 <= inject_Z z * v)%Q.

(** [R] is as close to the positive number [X] as a rounding to binary64
    leaves it: within [X * 2^-53], or within half the least subnormal step
    when [X] is below the normal numbers. *)
Definition nearQ (R X : Q) : Prop :=
  (Qabs (R - X) * 2 ^ 53 <= X)%Q \/
  (Qabs (R - X) <= 2 ^ (-1075) /\ X < 2 ^ (-1021))%Q.

(** [r] is what rounding the positive number [X] to binary64 gives, with
    the sign [s]. *)
Definition rounds_to (r : spec_float) (s : bool) (X : Q) : Prop :=
  match r with
  | S754_nan => False
  | S754_infinity s' => s' = s /\ (2 ^ 971 <= X)%Q
  | _ => SFsign r = s /\ nearQ (SFmag r) X
  end.

(** The same on integers: [scaled] and [M] are the rounded and the exact
    mantissa at the exponent [ex]. *)
Definition rnd_err (scaled M ex : Z) : Prop :=
  2 ^ 53 * Z.abs (scaled - M) <= M \/
  (ex < -1074 /\ 2 * Z.abs (scaled - M) <= 2 ^ (-1074 - ex) /\ M < 2 ^ (-1021 - ex)).

(** What the shift of a mantissa by [n] bits keeps: [r] holds the bits of
    [M] above the [n] lowest, the round bit is the highest of those and
    the sticky bit tells whether any below it is set. *)
Definition shr_inv (M n : Z) (r : shr_record) : Prop :=
  0 <= shr_m r /\
  exists R T,
    M = shr_m r * 2 ^ n + R /\ 0 <= R < 2 ^ n /\
    2 * R = (if shr_r r then 2 ^ n else 0) + T /\ 0 <= T < 2 ^ n /\
    (shr_s r = false <-> T = 0).


(* ================================================================== *)
(** * Rounding in binary64 *)
(* ================================================================== *)

Lemma digits2_pos_bounds p :
  2 ^ (Z.pos (digits2_pos p) - 1) <= Z.pos p < 2 ^ Z.pos (digits2_pos p).
Proof.
  induction p as [p IH|p IH|]; cbn [digits2_pos].
  - rewrite Pos2Z.inj_succ. replace (Z.succ (Z.pos (digits2_pos p)) - 1)
      with (Z.succ (Z.pos (digits2_pos p) - 1)) by lia.
    rewrite !Z.pow_succ_r by lia. lia.
  - rewrite Pos2Z.inj_succ. replace (Z.succ (Z.pos (digits2_pos p)) - 1)
      with (Z.succ (Z.pos (digits2_pos p) - 1)) by lia.
    rewrite !Z.pow_succ_r by lia. lia.
  - simpl. lia.
Qed.

Lemma pow2_pos n : 0 < 2 ^ n \/ (n < 0 /\ 2 ^ n = 0).
Proof.
  destruct (Z.le_gt_cases 0 n) as [H|H].
  - left. apply Z.pow_pos_nonneg; lia.
  - right. split; [lia|]. apply Z.pow_neg_r. lia.
Qed.

(** Number of digits from bounds. *)
Lemma Zdigits2_unique R d :
  0 < d -> 2 ^ (d - 1) <= R < 2 ^ d -> Zdigits2 R = d.
Proof.
  intros Hd [Hlo Hhi].
  assert (HR : 0 < R).
  { assert (0 < 2 ^ (d - 1)) by (apply Z.pow_pos_nonneg; lia). lia. }
  destruct R as [|p|p]; try lia. cbn [Zdigits2].
  pose proof (digits2_pos_bounds p) as [Hl Hh].
  set (D := Z.pos (digits2_pos p)) in *.
  destruct (Z.lt_trichotomy D d) as [Hlt|[Heq|Hgt]]; [|assumption|].
  - assert (2 ^ D <= 2 ^ (d - 1)) by (apply Z.pow_le_mono_r; lia). lia.
  - assert (2 ^ d <= 2 ^ (D - 1)) by (apply Z.pow_le_mono_r; lia). lia.
Qed.

Lemma Zdigits2_le R d : 0 <= d -> 0 <= R < 2 ^ d -> Zdigits2 R <= d.
Proof.
  intros Hd [Hlo Hhi]. destruct R as [|p|p]; try lia; cbn [Zdigits2]; [lia|].
  pose proof (digits2_pos_bounds p) as [Hl Hh].
  set (D := Z.pos (digits2_pos p)) in *.
  destruct (Z.le_gt_cases D d) as [H|H]; [assumption|].
  assert (2 ^ d <= 2 ^ (D - 1)) by (apply Z.pow_le_mono_r; lia). lia.
Qed.

Lemma shr_1_inv M n r : 0 <= n -> shr_inv M n r -> shr_inv M (n + 1) (shr_1 r).
Proof.
  intros Hn (Hm & R & T & HM & HR & H2 & HT & Hs).
  assert (HP : 0 < 2 ^ n) by (apply Z.pow_pos_nonneg; lia).
  replace (n + 1) with (Z.succ n) by lia. 
  destruct r as [m rb sb]. cbn [shr_m shr_r shr_s] in *.
  assert (Hs' : (rb || sb = false <-> 2 * R = 0)).
  { destruct rb; cbn [orb]; [split; [discriminate | lia]|].
    rewrite Hs. lia. }
  destruct m as [|p|p]; [|destruct p as [p|p|]|lia]; unfold shr_inv;
    cbn [shr_1 shr_m shr_r shr_s]; rewrite Z.pow_succ_r by lia; (split; [lia|]).
  - exists R, (2 * R). repeat split; try lia; apply Hs'.
  - exists (2 ^ n + R), (2 * R). repeat split; try lia; apply Hs'.
  - exists R, (2 * R). repeat split; try lia; apply Hs'.
  - exists (2 ^ n + R), (2 * R). repeat split; try lia; apply Hs'.
Qed.

Lemma iter_shr_inv p : forall M n r,
  0 <= n -> shr_inv M n r -> shr_inv M (n + Z.pos p) (SpecFloat.iter_pos shr_1 p r).
Proof.
  induction p as [p IH|p IH|]; intros M n r Hn H; cbn [SpecFloat.iter_pos].
  - replace (n + Z.pos p~1) with (n + 1 + Z.pos p + Z.pos p) by lia.
    apply IH; [lia|]. apply IH; [lia|]. now apply shr_1_inv.
  - replace (n + Z.pos p~0) with (n + Z.pos p + Z.pos p) by lia.
    apply IH; [lia|]. now apply IH.
  - now apply shr_1_inv.
Qed.

Lemma shr_inv_init M : 0 <= M -> shr_inv M 0 (Build_shr_record M false false).
Proof.
  intros H. split; [exact H|]. exists 0, 0. cbn. repeat split; lia.
Qed.

(** Rounding to nearest after a shift of [n] bits. *)
Lemma round_shift M n r :
  0 < n -> shr_inv M n r ->
  let q := shr_m r in
  let R := round_nearest_even q (loc_of_shr_record r) in
  0 <= q /\ q * 2 ^ n <= M < (q + 1) * 2 ^ n /\
  q <= R <= q + 1 /\
  2 * Z.abs (R * 2 ^ n - M) <= 2 ^ n.
Proof.
  intros Hn (Hm & R0 & T & HM & HR & H2 & HT & Hs) q R. subst q R.
  assert (HP : 0 < 2 ^ n) by (apply Z.pow_pos_nonneg; lia).
  destruct r as [m rb sb]. cbn [shr_m shr_r shr_s loc_of_shr_record] in *.
  split; [lia|]. split; [nia|].
  destruct rb, sb; cbn [round_nearest_even].
  - split; [lia|]. nia.
  - assert (T = 0) by (apply Hs; reflexivity). subst T.
    destruct (Z.even m); (split; [lia|]); nia.
  - split; [lia|]. nia.
  - split; [lia|]. nia.
Qed.

Lemma fexp_64 e : fexp prec emax e = Z.max (e - 53) (-1074).
Proof. reflexivity. Qed.

Lemma pow2_split a b : 0 <= a -> 0 <= b -> 2 ^ (a + b) = 2 ^ a * 2 ^ b.
Proof. intros. apply Z.pow_add_r; assumption. Qed.

Lemma binary_round_aux_spec sx M ex :
  match binary_round_aux prec emax sx (Z.pos M) ex loc_Exact with
  | S754_nan => False
  | S754_infinity s =>
      s = sx /\
      exists m k, 0 <= k /\ 971 < ex + k /\ rnd_err (Z.pos m * 2 ^ k) (Z.pos M) ex
  | S754_zero s => s = sx /\ rnd_err 0 (Z.pos M) ex
  | S754_finite s m e =>
      s = sx /\
      exists k, 0 <= k /\ e = ex + k /\ e <= 971 /\ rnd_err (Z.pos m * 2 ^ k) (Z.pos M) ex
  end.
Proof.
  unfold binary_round_aux, shr_fexp.
  pose proof (digits2_pos_bounds M) as HD.
  cbn [Zdigits2 shr_record_of_loc].
  set (D := Z.pos (digits2_pos M)) in *.
  assert (HDpos : 0 < D) by (unfold D; lia).
  rewrite fexp_64.
  destruct (Z.max (D + ex - 53) (-1074) - ex) as [|p|p] eqn:Hn1.
  - (* no shift *)
    cbn [shr shr_m loc_of_shr_record round_nearest_even Zdigits2 shr_record_of_loc].
    fold D. rewrite fexp_64, Hn1. cbn [shr shr_m].
    assert (Hexact : rnd_err (Z.pos M * 2 ^ 0) (Z.pos M) ex).
    { left. replace (Z.pos M * 2 ^ 0 - Z.pos M) with 0 by (change (2 ^ 0) with 1; lia).
      change (Z.abs 0) with 0. lia. }
    change (emax - prec) with 971.
    destruct (Z.leb_spec ex 971); (split; [reflexivity|]).
    + exists 0. split; [lia|]. split; [lia|]. split; [lia | exact Hexact].
    + exists M, 0. split; [lia|]. split; [lia | exact Hexact].
  - (* a shift of [Z.pos p] bits *)
    cbn [shr].
    pose proof (iter_shr_inv p (Z.pos M) 0 _ ltac:(lia) (shr_inv_init (Z.pos M) ltac:(lia)))
      as Hinv.
    rewrite Z.add_0_l in Hinv.
    destruct (round_shift (Z.pos M) (Z.pos p) _ ltac:(lia) Hinv) as (Hq0 & Hq & HR & Herr).
    set (rec1 := SpecFloat.iter_pos shr_1 p {| shr_m := Z.pos M; shr_r := false; shr_s := false |}) in *.
    set (q := shr_m rec1) in *.
    set (R1 := round_nearest_even q (loc_of_shr_record rec1)) in *.
    set (n1 := Z.pos p) in *.
    assert (HP : 0 < 2 ^ n1) by (apply Z.pow_pos_nonneg; lia).
    destruct (Z.le_gt_cases (-1074) (D + ex - 53)) as [Hnormal|Hsub].
    + (* normal range *)
      assert (Hn : D = n1 + 53) by lia.
      assert (HD1 : 2 ^ (D - 1) = 2 ^ 52 * 2 ^ n1).
      { replace (D - 1) with (52 + n1) by lia. apply pow2_split; lia. }
      assert (HD2 : 2 ^ D = 2 ^ 53 * 2 ^ n1).
      { replace D with (53 + n1) by lia. apply pow2_split; lia. }
      rewrite HD1, HD2 in HD.
      assert (Hqlo : 2 ^ 52 <= q) by nia.
      assert (Hqhi : q < 2 ^ 53) by nia.
      assert (Hrel : 2 ^ 53 * Z.abs (R1 * 2 ^ n1 - Z.pos M) <= Z.pos M) by nia.
      destruct (Z.eq_dec R1 (2 ^ 53)) as [Htop|Htop].
      * (* the mantissa has grown to 2^53 *)
        rewrite Htop in *.
        change (Zdigits2 (2 ^ 53)) with 54. rewrite fexp_64.
        replace (Z.max (54 + (ex + n1) - 53) (-1074) - (ex + n1)) with 1 by lia.
        cbn [shr SpecFloat.iter_pos].
        change (shr_m (shr_1 (shr_record_of_loc (2 ^ 53) loc_Exact)))
          with (Z.pos 4503599627370496).
        cbv iota.
        assert (Herr2 : rnd_err (Z.pos 4503599627370496 * 2 ^ (n1 + 1)) (Z.pos M) ex).
        { left. rewrite pow2_split by lia. change (2 ^ 1) with 2. lia. }
        change (emax - prec) with 971.
        destruct (Z.leb_spec (ex + n1 + 1) 971); (split; [reflexivity|]).
        -- exists (n1 + 1). split; [lia|]. split; [lia|]. split; [lia | exact Herr2].
        -- exists 4503599627370496%positive, (n1 + 1). split; [lia|]. split; [lia | exact Herr2].
      * assert (Hdig : Zdigits2 R1 = 53) by (apply Zdigits2_unique; [lia|]; simpl; lia).
        rewrite Hdig, fexp_64.
        replace (Z.max (53 + (ex + n1) - 53) (-1074) - (ex + n1)) with 0 by lia.
        cbn [shr shr_record_of_loc shr_m].
        destruct R1 as [|m|m] eqn:HR1; [lia| |lia].
        change (emax - prec) with 971.
        destruct (Z.leb_spec (ex + n1) 971); (split; [reflexivity|]).
        -- exists n1. split; [lia|]. split; [reflexivity|]. split; [lia|]. left. exact Hrel.
        -- exists m, n1. split; [lia|]. split; [lia|]. left. exact Hrel.
    + (* subnormal range *)
      assert (Hn : n1 = -1074 - ex) by lia.
      assert (Hqhi : q < 2 ^ 52).
      { assert (2 ^ D <= 2 ^ (52 + n1)) by (apply Z.pow_le_mono_r; lia).
        rewrite pow2_split in H by lia. nia. }
      assert (Hdig : Zdigits2 R1 <= 53) by (apply Zdigits2_le; [lia|]; simpl; lia).
      assert (Hdig0 : 0 <= Zdigits2 R1) by (destruct R1; simpl; lia).
      rewrite fexp_64.
      replace (Z.max (Zdigits2 R1 + (ex + n1) - 53) (-1074) - (ex + n1)) with 0 by lia.
      cbn [shr shr_record_of_loc shr_m].
      assert (Herr2 : rnd_err (R1 * 2 ^ n1) (Z.pos M) ex).
      { right. split; [lia|]. rewrite <- Hn. split; [exact Herr|].
        assert (2 ^ D <= 2 ^ (-1021 - ex)) by (apply Z.pow_le_mono_r; lia). lia. }
      destruct R1 as [|m|m] eqn:HR1; [|  |lia].
      * split; [reflexivity|]. exact Herr2.
      * replace (ex + n1 <=? emax - prec) with true
          by (symmetry; apply Z.leb_le; change (emax - prec) with 971; lia).
        split; [reflexivity|]. exists n1. split; [lia|]. split; [reflexivity|].
        split; [lia | exact Herr2].
  - (* the exponent is above the target *)
    cbn [shr shr_m loc_of_shr_record round_nearest_even Zdigits2 shr_record_of_loc].
    fold D. rewrite fexp_64, Hn1. cbn [shr shr_m].
    assert (Hexact : rnd_err (Z.pos M * 2 ^ 0) (Z.pos M) ex).
    { left. replace (Z.pos M * 2 ^ 0 - Z.pos M) with 0 by (change (2 ^ 0) with 1; lia).
      change (Z.abs 0) with 0. lia. }
    change (emax - prec) with 971.
    destruct (Z.leb_spec ex 971); (split; [reflexivity|]).
    + exists 0. split; [lia|]. split; [lia|]. split; [lia | exact Hexact].
    + exists M, 0. split; [lia|]. split; [lia | exact Hexact].
Qed.

Lemma nearQ_ext R R' X X' : (R == R')%Q -> (X == X')%Q -> nearQ R X -> nearQ R' X'.
Proof.
  unfold nearQ. intros HR HX [H | [H1 H2]]; [left | right; split].
  - now rewrite <- HR, <- HX.
  - now rewrite <- HR, <- HX.
  - now rewrite <- HX.
Qed.

Lemma Qabs_bounds a : (a <= Qabs a /\ - a <= Qabs a)%Q.
Proof.
  split; [apply Qle_Qabs|]. rewrite <- Qabs_opp. apply Qle_Qabs.
Qed.

Lemma two_pow_pos e : (0 < 2 ^ e)%Q.
Proof. apply Qpower_0_lt. reflexivity. Qed.

Lemma two_pow_add a b : (2 ^ (a + b) == 2 ^ a * 2 ^ b)%Q.
Proof. apply Qpower_plus. discriminate. Qed.

Lemma two_pow_inject k : 0 <= k -> (inject_Z (2 ^ k) == 2 ^ k)%Q.
Proof. intros H. now rewrite Zpower_Qpower. Qed.

Lemma scaled_Q m k ex :
  0 <= k -> (inject_Z m * 2 ^ (ex + k) == inject_Z (m * 2 ^ k) * 2 ^ ex)%Q.
Proof.
  intros Hk. rewrite two_pow_add, inject_Z_mult, two_pow_inject by assumption. ring.
Qed.

Lemma rnd_err_Q s M ex :
  rnd_err s M ex -> nearQ (inject_Z s * 2 ^ ex) (inject_Z M * 2 ^ ex).
Proof.
  pose proof (two_pow_pos ex) as HP.
  assert (Hdiff : (inject_Z s * 2 ^ ex - inject_Z M * 2 ^ ex
                   == inject_Z (s - M) * 2 ^ ex)%Q).
  { unfold Z.sub. rewrite inject_Z_plus, inject_Z_opp. ring. }
  assert (Habs : (Qabs (inject_Z s * 2 ^ ex - inject_Z M * 2 ^ ex)
                  == inject_Z (Z.abs (s - M)) * 2 ^ ex)%Q).
  { rewrite Hdiff, Qabs_Qmult, (Qabs_pos (2 ^ ex)) by (apply Qlt_le_weak, HP).
    reflexivity. }
  intros [H | (Hex & H & HM)].
  - left. rewrite Habs.
    assert (Hq : (inject_Z (2 ^ 53 * Z.abs (s - M)) <= inject_Z M)%Q) by now rewrite <- Zle_Qle.
    rewrite inject_Z_mult in Hq. change (inject_Z (2 ^ 53)) with (2 ^ 53)%Q in Hq.
    setoid_replace (inject_Z (Z.abs (s - M)) * 2 ^ ex * 2 ^ 53)%Q
      with ((2 ^ 53 * inject_Z (Z.abs (s - M))) * 2 ^ ex)%Q using relation Qeq by ring.
    apply Qmult_le_compat_r; [exact Hq | now apply Qlt_le_weak].
  - right. split.
    + rewrite Habs.
      assert (Hq : (inject_Z (2 * Z.abs (s - M)) <= inject_Z (2 ^ (-1074 - ex)))%Q)
        by now rewrite <- Zle_Qle.
      rewrite inject_Z_mult, two_pow_inject in Hq by lia.
      assert (Hp : (2 ^ (-1074 - ex) * 2 ^ ex == 2 ^ (-1074))%Q).
      { rewrite <- two_pow_add. now replace (-1074 - ex + ex) with (-1074) by lia. }
      assert (Hm : (inject_Z 2 * inject_Z (Z.abs (s - M)) * 2 ^ ex
                    <= 2 ^ (-1074 - ex) * 2 ^ ex)%Q)
        by (apply Qmult_le_compat_r; [exact Hq | now apply Qlt_le_weak]).
      rewrite Hp in Hm. change (inject_Z 2) with 2%Q in Hm.
      set (a := (inject_Z (Z.abs (s - M)) * 2 ^ ex)%Q) in *.
      setoid_replace (2 * inject_Z (Z.abs (s - M)) * 2 ^ ex)%Q with (2 * a)%Q using relation Qeq in Hm
        by (unfold a; ring).
      lra.
    + assert (Hq : (inject_Z M < inject_Z (2 ^ (-1021 - ex)))%Q) by now rewrite <- Zlt_Qlt.
      rewrite two_pow_inject in Hq by lia.
      assert (Hp : (2 ^ (-1021 - ex) * 2 ^ ex == 2 ^ (-1021))%Q).
      { rewrite <- two_pow_add. now replace (-1021 - ex + ex) with (-1021) by lia. }
      rewrite <- Hp. now apply Qmult_lt_compat_r.
Qed.

(** What the rounding of [M * 2^ex] gives. *)
Lemma round_Q sx M ex :
  let X := (inject_Z (Z.pos M) * 2 ^ ex)%Q in
  match binary_round_aux prec emax sx (Z.pos M) ex loc_Exact with
  | S754_nan => False
  | S754_infinity s => s = sx /\ (2 ^ 971 <= X)%Q
  | S754_zero s => s = sx /\ nearQ 0 X
  | S754_finite s m e => s = sx /\ e <= 971 /\ nearQ (inject_Z (Z.pos m) * 2 ^ e) X
  end.
Proof.
  intros X. pose proof (binary_round_aux_spec sx M ex) as H.
  destruct (binary_round_aux prec emax sx (Z.pos M) ex loc_Exact) as [s|s| |s m e].
  - destruct H as [-> H]. split; [reflexivity|].
    apply rnd_err_Q in H. eapply nearQ_ext; [apply Qmult_0_l | reflexivity | exact H].
  - destruct H as (-> & m & k & Hk & Hbig & H). split; [reflexivity|].
    apply rnd_err_Q in H.
    apply (nearQ_ext _ (inject_Z (Z.pos m) * 2 ^ (ex + k))%Q _ X) in H;
      [|symmetry; now apply scaled_Q | reflexivity].
    assert (Hm : (1 <= inject_Z (Z.pos m))%Q) by (change 1%Q with (inject_Z 1); rewrite <- Zle_Qle; lia).
    assert (Hp : (2 ^ 972 <= 2 ^ (ex + k))%Q).
    { replace (ex + k) with (972 + (ex + k - 972)) by lia. rewrite two_pow_add.
      assert (1 <= 2 ^ (ex + k - 972))%Q.
      { rewrite <- two_pow_inject by lia. change 1%Q with (inject_Z 1).
        rewrite <- Zle_Qle. assert (0 < 2 ^ (ex + k - 972)) by (apply Z.pow_pos_nonneg; lia). lia. }
      pose proof (two_pow_pos 972). nra. }
    pose proof (two_pow_pos (ex + k)) as HP.
    assert (HR : (2 ^ 972 <= inject_Z (Z.pos m) * 2 ^ (ex + k))%Q) by nra.
    set (R := (inject_Z (Z.pos m) * 2 ^ (ex + k))%Q) in *.
    pose proof (Qabs_bounds (R - X)) as [Hb1 Hb2].
    destruct H as [H | [H1 H2]]; lra.
  - exact H.
  - destruct H as (-> & k & Hk & -> & Hle & H). split; [reflexivity|]. split; [assumption|].
    apply rnd_err_Q in H.
    eapply nearQ_ext; [symmetry; now apply scaled_Q | reflexivity | exact H].
Qed.

Lemma rounds_to_ext r s X X' : (X == X')%Q -> rounds_to r s X -> rounds_to r s X'.
Proof.
  intros HX. destruct r as [s0|s0| |s0 m e]; cbn [rounds_to]; try tauto.
  - intros [-> H]. split; [reflexivity|]. eapply nearQ_ext; [reflexivity | exact HX | exact H].
  - intros [-> H]. split; [reflexivity|]. now rewrite <- HX.
  - intros [-> H]. split; [reflexivity|]. eapply nearQ_ext; [reflexivity | exact HX | exact H].
Qed.

Lemma round_rounds_to sx M ex :
  rounds_to (binary_round_aux prec emax sx (Z.pos M) ex loc_Exact) sx
            (inject_Z (Z.pos M) * 2 ^ ex)%Q.
Proof.
  pose proof (round_Q sx M ex) as H. cbv zeta in H.
  destruct (binary_round_aux prec emax sx (Z.pos M) ex loc_Exact) as [s|s| |s m e];
    cbn [rounds_to SFsign SFmag]; try tauto.
Qed.

(** The product of two finite numbers. *)
Lemma mul_rounds_to sx mx ex sy my ey :
  rounds_to (SFmul prec emax (S754_finite sx mx ex) (S754_finite sy my ey)) (xorb sx sy)
            (SFmag (S754_finite sx mx ex) * SFmag (S754_finite sy my ey))%Q.
Proof.
  cbn [SFmul SFmag].
  eapply rounds_to_ext; [|apply round_rounds_to].
  rewrite Pos2Z.inj_mul, inject_Z_mult, two_pow_add. ring.
Qed.





(** [int(f)] is the magnitude of [f] with its fraction dropped, under the
    sign of [f]. *)
Lemma int_of_float_spec (f : float) :
  match Prim2SF f with
  | S754_nan => int_of_float f = Raise ValueError
  | S754_infinity _ => int_of_float f = Raise OverflowError
  | r => exists t,
           int_of_float f = Ok (if SFsign r then - t else t) /\
           0 <= t /\ (inject_Z t <= SFmag r < inject_Z t + 1)%Q
  end.
Proof.
  unfold int_of_float, float_to_Z.
  destruct (Prim2SF f) as [s|s| |s m e]; try reflexivity.
  - exists 0. cbn [SFsign SFmag]. split; [now destruct s|]. split; [lia|].
    change (inject_Z 0) with 0%Q. lra.
  - cbn [SFsign SFmag]. destruct (Z.leb_spec 0 e) as [He|He].
    + exists (Z.pos m * 2 ^ e). split; [reflexivity|].
      split; [apply Z.mul_nonneg_nonneg; [lia | apply Z.pow_nonneg; lia]|].
      rewrite inject_Z_mult, two_pow_inject by lia. lra.
    + exists (Z.pos m / 2 ^ (- e)).
      assert (HP : 0 < 2 ^ (- e)) by (apply Z.pow_pos_nonneg; lia).
      split; [reflexivity|]. split; [apply Z.div_pos; lia|].
      pose proof (Z.div_mod (Z.pos m) (2 ^ (- e)) ltac:(lia)) as Hdm.
      pose proof (Z.mod_pos_bound (Z.pos m) (2 ^ (- e)) HP) as Hr.
      set (t := Z.pos m / 2 ^ (- e)) in *. set (r := Z.pos m mod 2 ^ (- e)) in *.
      set (P := 2 ^ (- e)) in *.
      assert (Hinv : (2 ^ e * inject_Z P == 1)%Q).
      { unfold P. rewrite two_pow_inject, <- two_pow_add by lia.
        now replace (e + - e) with 0 by lia. }
      assert (HPq : (0 < inject_Z P)%Q)
        by (change 0%Q with (inject_Z 0); rewrite <- Zlt_Qlt; lia).
      assert (Hlo : (inject_Z t * inject_Z P <= inject_Z (Z.pos m))%Q)
        by (rewrite <- inject_Z_mult, <- Zle_Qle; lia).
      assert (Hhi : (inject_Z (Z.pos m) < (inject_Z t + 1) * inject_Z P)%Q).
      { change 1%Q with (inject_Z 1). rewrite <- inject_Z_plus, <- inject_Z_mult, <- Zlt_Qlt.
        nia. }
      pose proof (two_pow_pos e) as Hpe.
      set (a := inject_Z (Z.pos m)) in *. set (tq := inject_Z t) in *.
      set (Pq := inject_Z P) in *. set (E := (2 ^ e)%Q) in *.
      assert (H1 : (tq * Pq * E <= a * E)%Q)
        by (apply Qmult_le_compat_r; [exact Hlo | lra]).
      assert (H2 : (a * E < (tq + 1) * Pq * E)%Q)
        by (apply Qmult_lt_compat_r; [exact Hpe | exact Hhi]).
      assert (H3 : (tq * Pq * E == tq * (E * Pq))%Q) by ring.
      assert (H4 : ((tq + 1) * Pq * E == (tq + 1) * (E * Pq))%Q) by ring.
      rewrite H3, Hinv in H1. rewrite H4, Hinv in H2. lra.
Qed.



Lemma inject_Z_pos_le a b : a <= b -> (inject_Z a <= inject_Z b)%Q.
Proof. intros H. now rewrite <- Zle_Qle. Qed.



Lemma SFmag_nonneg r : (0 <= SFmag r)%Q.
Proof.
  destruct r as [s|s| |s m e]; cbn [SFmag]; try lra.
  pose proof (two_pow_pos e).
  apply Qmult_le_0_compat; [|lra]. change 0%Q with (inject_Z 0). rewrite <- Zle_Qle. lia.
Qed.

(** An integer part and a rounding, together. *)
Lemma trunc_near t R X :
  0 <= t -> (inject_Z t <= R < inject_Z t + 1)%Q -> nearQ R X -> (0 <= X)%Q ->
  (- 1 - X * 2 ^ (-53) < inject_Z t - X <= X * 2 ^ (-53))%Q.
Proof.
  intros Ht [Hlo Hhi] Hnear HX.
  pose proof (Qabs_bounds (R - X)) as [Hb1 Hb2].
  destruct Hnear as [H | [H1 H2]].
  - lra.
  - assert (Ht0 : t = 0).
    { destruct (Z.eq_dec t 0) as [|Hne]; [assumption|].
      assert (H1t : (1 <= inject_Z t)%Q)
        by (change 1%Q with (inject_Z 1); rewrite <- Zle_Qle; lia).
      lra. }
    subst t. change (inject_Z 0) with 0%Q in *. lra.
Qed.

Lemma truncated_of_parts r t :
  0 <= t -> (inject_Z t <= SFmag r < inject_Z t + 1)%Q ->
  truncated (SF2Q r) (if SFsign r then - t else t).
Proof.
  intros Ht [Hlo Hhi]. pose proof (SFmag_nonneg r) as Hm.
  assert (Htq : (0 <= inject_Z t)%Q) by (change 0%Q with (inject_Z 0); rewrite <- Zle_Qle; lia).
  unfold truncated, SF2Q. destruct (SFsign r).
  - rewrite inject_Z_opp, !Qabs_opp, !Qabs_pos by assumption.
    split; [assumption|]. split; [assumption|].
    setoid_replace (- inject_Z t * - SFmag r)%Q with (inject_Z t * SFmag r)%Q
      using relation Qeq by ring.
    now apply Qmult_le_0_compat.
  - rewrite !Qabs_pos by assumption.
    split; [assumption|]. split; [assumption|]. now apply Qmult_le_0_compat.
Qed.

Lemma billion : Prim2SF 1000000000 = S754_finite false 8388608000000000 (-23).
Proof. reflexivity. Qed.

Lemma billion_Q : (SFmag (S754_finite false 8388608000000000 (-23)) == 1000000000)%Q.
Proof. reflexivity. Qed.

(** The conversion of an amount in SOL to lamports. *)
Lemma to_lamports_spec (a : float) :
  match Prim2SF (a * 1000000000)%float with
  | S754_nan => to_lamports a = Raise ValueError
  | S754_infinity _ => to_lamports a = Raise OverflowError
  | _ =>
      exists z,
        to_lamports a = Ok z /\
        truncated (float_Q (a * 1000000000)%float) z /\
        (Qabs (inject_Z z - float_Q a * 1000000000)
         < 1 + Qabs (float_Q a) * (1000000000 * 2 ^ (-53)))%Q
  end.
Proof.
  pose proof (int_of_float_spec (a * 1000000000)%float) as Hint.
  unfold to_lamports, float_Q.
  pose proof (mul_spec a 1000000000) as Hmul. rewrite billion in Hmul.
  unfold SF64mul in Hmul.
  destruct (Prim2SF (a * 1000000000)%float) as [s|s| |s m e] eqn:Hr; try exact Hint.
  - destruct Hint as (t & Hz & Ht & Hmag). cbn [SFsign] in Hz.
    exists (if s then - t else t). split; [exact Hz|].
    split; [exact (truncated_of_parts (S754_zero s) t Ht Hmag)|].
    cbn [SFmag] in Hmag.
    assert (Ht0 : t = 0).
    { destruct (Z.eq_dec t 0) as [|Hne]; [assumption|].
      assert (H1t : (1 <= inject_Z t)%Q)
        by (change 1%Q with (inject_Z 1); rewrite <- Zle_Qle; lia).
      lra. }
    subst t. replace (if s then - 0 else 0) with 0 by now destruct s.
    destruct (Prim2SF a) as [sa|sa| |sa ma ea] eqn:Ha; cbn [SFmul] in Hmul;
      try discriminate.
    + destruct sa; reflexivity.
    + pose proof (mul_rounds_to sa ma ea false 8388608000000000 (-23)) as Hrt.
      cbn [SFmul] in Hrt. rewrite <- Hmul in Hrt. cbn [rounds_to] in Hrt. destruct Hrt as [_ Hnear].
      apply (nearQ_ext _ 0%Q _ (SFmag (S754_finite sa ma ea) * 1000000000)%Q) in Hnear;
        [|reflexivity | now rewrite billion_Q].
      pose proof (SFmag_nonneg (S754_finite sa ma ea)) as Hm.
      set (A := SFmag (S754_finite sa ma ea)) in *.
      pose proof (Qabs_bounds (0 - A * 1000000000)) as [Hb1 Hb2].
      assert (HA : (A * 1000000000 < 1)%Q) by (destruct Hnear as [H | [H1 H2]]; lra).
      unfold SF2Q. cbn [SFsign]. fold A. change (inject_Z 0) with 0%Q.
      destruct sa.
      * rewrite Qabs_opp, (Qabs_pos A) by assumption. apply Qabs_Qlt_condition. lra.
      * rewrite (Qabs_pos A) by assumption. apply Qabs_Qlt_condition. lra.
  - destruct Hint as (t & Hz & Ht & Hmag). cbn [SFsign] in Hz.
    exists (if s then - t else t). split; [exact Hz|].
    split; [exact (truncated_of_parts (S754_finite s m e) t Ht Hmag)|].
    destruct (Prim2SF a) as [sa|sa| |sa ma ea] eqn:Ha; cbn [SFmul] in Hmul;
      try discriminate.
    pose proof (mul_rounds_to sa ma ea false 8388608000000000 (-23)) as Hrt.
    cbn [SFmul] in Hrt. rewrite <- Hmul in Hrt. cbn [rounds_to SFsign] in Hrt. destruct Hrt as [Hs Hnear].
    rewrite xorb_false_r in Hs. subst s.
    apply (nearQ_ext _ (SFmag (S754_finite sa m e)) _
             (SFmag (S754_finite sa ma ea) * 1000000000)%Q) in Hnear;
      [|reflexivity | now rewrite billion_Q].
    pose proof (SFmag_nonneg (S754_finite sa ma ea)) as Hm.
    set (A := SFmag (S754_finite sa ma ea)) in *.
    assert (HX : (0 <= A * 1000000000)%Q) by lra.
    pose proof (trunc_near t _ _ Ht Hmag Hnear HX) as Hb.
    unfold SF2Q. cbn [SFsign]. fold A.
    destruct sa.
    + rewrite inject_Z_opp, Qabs_opp, (Qabs_pos A) by assumption.
      apply Qabs_Qlt_condition. lra.
    + rewrite (Qabs_pos A) by assumption. apply Qabs_Qlt_condition. lra.
Qed.













(* ================================================================== *)
(** * Properties of the swap client *)
(* ================================================================== *)

Ltac run_m :=
  unfold after, sleep, http_get, get_agent_settings, get_sol_balance,
    get_user_wallets, send_transaction, jupiter_swap, is_active, load, store,
    mark, await, try_, lift, raise, bind, ret in *; simpl in *.

#[local] Opaque sleep_limit.

(** The sleeps of the exception handler fit the clock as long as the
    counter of attempts is below 1024. *)
Lemma backoff_fits attempt : attempt < 1024 -> (sleep_limit <=? 2 ^ attempt) = false.
Proof.
  intros H. apply Z.leb_gt.
  assert (Hlim : 2 ^ 1023 < sleep_limit) by now vm_compute.
  destruct (Z.le_gt_cases 0 attempt) as [Hpos|Hneg].
  - assert (2 ^ attempt <= 2 ^ 1023) by (apply Z.pow_le_mono_r; lia).
    generalize dependent (2 ^ 1023). intros; lia.
  - rewrite Z.pow_neg_r by lia.
    assert (0 < 2 ^ 1023) by now vm_compute.
    generalize dependent (2 ^ 1023). intros; lia.
Qed.

Lemma backoff_overflows attempt : 1024 <= attempt -> (sleep_limit <=? 2 ^ attempt) = true.
Proof.
  intros H. apply Z.leb_le.
  assert (Hlim : sleep_limit <= 2 ^ 1024) by (vm_compute; discriminate).
  assert (2 ^ 1024 <= 2 ^ attempt) by (apply Z.pow_le_mono_r; lia).
  generalize dependent (2 ^ 1024). intros; lia.
Qed.

Section SwapClient.

Context (env : Env).

Lemma asyncio_sleep_unfold secs w :
  asyncio_sleep env secs w =
    if sleep_limit <=? secs then (Raise OverflowError, w)
    else (Ok tt, after (sleep env secs) w).
Proof. unfold asyncio_sleep. now destruct (sleep_limit <=? secs). Qed.

Lemma quote_try_conn_error p w :
  env_http env (tick w) = ConnError ->
  quote_try env p w = (Raise ClientError, after (http_get env p) w).
Proof. intros H. unfold quote_try. run_m. now rewrite H. Qed.

Lemma quote_try_bad_body p w status hdr :
  env_http env (tick w) = HttpResp status hdr None ->
  quote_try env p w = (Raise ContentTypeError, after (http_get env p) w).
Proof. intros H. unfold quote_try. run_m. now rewrite H. Qed.

Lemma quote_try_rate_limit p w hdr data :
  env_http env (tick w) = HttpResp 429 hdr (Some data) ->
  quote_try env p w =
    match retry_after_of hdr with
    | Ok d => if sleep_limit <=? d then (Raise OverflowError, after (http_get env p) w)
              else (Ok Continue, after (sleep env d) (after (http_get env p) w))
    | Raise e => (Raise e, after (http_get env p) w)
    end.
Proof.
  intros H. unfold quote_try, asyncio_sleep. run_m. rewrite H. simpl.
  destruct (retry_after_of hdr) as [d|e]; [|reflexivity].
  now destruct (sleep_limit <=? d).
Qed.

Lemma quote_try_other_status p w status hdr data :
  env_http env (tick w) = HttpResp status hdr (Some data) ->
  status <> 429 -> status <> 200 ->
  quote_try env p w = (Ok (Return empty_dict), after (http_get env p) w).
Proof.
  intros H H429 H200. unfold quote_try. run_m. rewrite H.
  destruct (Z.eqb_spec status 429); [contradiction|].
  destruct (Z.eqb_spec status 200); [contradiction|]. reflexivity.
Qed.

Lemma quote_try_ok_dict p w hdr m :
  env_http env (tick w) = HttpResp 200 hdr (Some (JObj m)) ->
  quote_try env p w =
    (Ok (Return (match m !! "routePlan" with
                 | Some _ => JObj m
                 | None => empty_dict
                 end)), after (http_get env p) w).
Proof.
  intros H. unfold quote_try. run_m. rewrite H. simpl.
  destruct (Nat.eqb_spec (size m) 0) as [Hz|Hz]; simpl.
  - apply map_size_empty_iff in Hz. subst m. now rewrite lookup_empty.
  - now destruct (m !! "routePlan").
Qed.

(** One turn of the loop, by the way its [try] ends. *)
Lemma quote_loop_turn p k attempt w :
  quote_loop env p (S k) attempt w =
    match quote_try env p w with
    | (Ok (Return data), w') => (Ok data, w')
    | (Ok Continue, w') => quote_loop env p k (attempt + 1) w'
    | (Raise _, w') =>
        if sleep_limit <=? 2 ^ attempt then (Raise OverflowError, w')
        else quote_loop env p k (attempt + 1) (after (sleep env (2 ^ attempt)) w')
    end.
Proof.
  cbn [quote_loop]. unfold bind at 1. unfold try_.
  destruct (quote_try env p w) as [[[data|]|e] w']; try reflexivity.
  unfold bind at 1. rewrite asyncio_sleep_unfold.
  now destruct (sleep_limit <=? 2 ^ attempt).
Qed.

Lemma quote_loop_step p k attempt w :
  attempt < 1024 ->
  quote_loop env p (S k) attempt w =
    match quote_try env p w with
    | (Ok (Return data), w') => (Ok data, w')
    | (Ok Continue, w') => quote_loop env p k (attempt + 1) w'
    | (Raise _, w') =>
        quote_loop env p k (attempt + 1) (after (sleep env (2 ^ attempt)) w')
    end.
Proof. intros H. now rewrite quote_loop_turn, backoff_fits. Qed.

Lemma requests_app evs1 evs2 :
  requests (evs1 ++ evs2) = (requests evs1 + requests evs2)%nat.
Proof. unfold requests. now rewrite List.filter_app, length_app. Qed.

(** The body of the [try] issues exactly one request. *)
Lemma quote_try_trace p w :
  exists evs, trace (snd (quote_try env p w)) = trace w ++ evs /\ requests evs = 1%nat.
Proof.
  unfold quote_try, asyncio_sleep. run_m.
  destruct (env_http env (tick w)) as [|status hdr [data|]]; simpl;
    try (eexists [_]; split; reflexivity).
  destruct (status =? 429).
  - destruct (retry_after_of hdr) as [d|e]; simpl.
    + destruct (sleep_limit <=? d); simpl.
      * eexists [_]; split; reflexivity.
      * eexists [_; _]. rewrite <- app_assoc. split; reflexivity.
    + eexists [_]; split; reflexivity.
  - destruct (negb (status =? 200)); [eexists [_]; split; reflexivity|].
    destruct (negb (truthy data)); [eexists [_]; split; reflexivity|].
    destruct (contains "routePlan" data) as [[|]|e]; simpl;
      eexists [_]; split; reflexivity.
Qed.

(** As long as the counter stays within 1024, the loop never raises, and
    it issues at most [remaining] requests. *)
Lemma quote_loop_total p k : forall attempt w,
  attempt + Z.of_nat k <= 1024 ->
  exists data w' evs,
    quote_loop env p k attempt w = (Ok data, w') /\
    trace w' = trace w ++ evs /\ (requests evs <= k)%nat.
Proof.
  induction k as [|k IH]; intros attempt w Hfit.
  - exists empty_dict, w, []. simpl. rewrite app_nil_r. repeat split.
    unfold requests. simpl. lia.
  - rewrite quote_loop_step by lia.
    destruct (quote_try_trace p w) as (evs & Ht & Hr).
    destruct (quote_try env p w) as [[[data|]|e] w1]; simpl in Ht.
    + exists data, w1, evs. repeat split; [assumption|lia].
    + destruct (IH (attempt + 1) w1 ltac:(lia)) as (data & w' & evs' & Hq & Ht' & Hr').
      exists data, w', (evs ++ evs'). rewrite Hq, Ht', Ht, requests_app, app_assoc.
      repeat split. lia.
    + destruct (IH (attempt + 1) (after (sleep env (2 ^ attempt)) w1) ltac:(lia))
        as (data & w' & evs' & Hq & Ht' & Hr').
      exists data, w', (evs ++ EvSleep (2 ^ attempt) :: evs').
      rewrite Hq, Ht'. run_m. rewrite Ht, requests_app.
      repeat split; [now rewrite <- !app_assoc | unfold requests in *; simpl; lia].
Qed.

(** Under outcomes that are all retried, the loop issues exactly
    [remaining] requests and ends on the empty dict. *)
Lemma quote_loop_sustained p k : forall attempt w,
  attempt + Z.of_nat k <= 1024 ->
  (forall t, retried (env_http env t) = true) ->
  exists w' evs,
    quote_loop env p k attempt w = (Ok empty_dict, w') /\
    trace w' = trace w ++ evs /\ requests evs = k.
Proof.
  induction k as [|k IH]; intros attempt w Hfit Hall.
  - exists w, []. simpl. now rewrite app_nil_r.
  - rewrite quote_loop_step by lia.
    destruct (quote_try_trace p w) as (evs & Ht & Hr).
    assert (Hnot : forall data w1, quote_try env p w <> (Ok (Return data), w1)).
    { intros data w1. specialize (Hall (tick w)). unfold quote_try, asyncio_sleep. run_m.
      destruct (env_http env (tick w)) as [|status hdr [body|]]; simpl in *;
        try discriminate.
      rewrite Hall. destruct (retry_after_of hdr) as [d|e]; [|discriminate].
      simpl. destruct (sleep_limit <=? d); discriminate. }
    destruct (quote_try env p w) as [[[data|]|e] w1]; simpl in Ht.
    + now destruct (Hnot data w1).
    + destruct (IH (attempt + 1) w1 ltac:(lia) Hall) as (w' & evs' & Hq & Ht' & Hr').
      exists w', (evs ++ evs'). rewrite Hq, Ht', Ht, requests_app, app_assoc.
      repeat split. lia.
    + destruct (IH (attempt + 1) (after (sleep env (2 ^ attempt)) w1) ltac:(lia) Hall)
        as (w' & evs' & Hq & Ht' & Hr').
      exists w', (evs ++ EvSleep (2 ^ attempt) :: evs').
      rewrite Hq, Ht'. run_m. rewrite Ht, requests_app.
      repeat split; [now rewrite <- !app_assoc | unfold requests in *; simpl; lia].
Qed.

(** When every call fails, the loop sleeps 1, 2, 4, ... seconds between
    its requests. *)
Lemma quote_loop_backoff p k : forall attempt w,
  attempt + Z.of_nat k <= 1024 ->
  (forall t, env_http env t = ConnError) ->
  trace (after (quote_loop env p k attempt) w) = trace w ++ backoff_trace p attempt k.
Proof.
  induction k as [|k IH]; intros attempt w Hfit Hall.
  - unfold after. simpl. now rewrite app_nil_r.
  - unfold after. rewrite quote_loop_step by lia. rewrite (quote_try_conn_error _ _ (Hall _)).
    fold (after (quote_loop env p k (attempt + 1))
                (after (sleep env (2 ^ attempt)) (after (http_get env p) w))).
    rewrite (IH (attempt + 1) _ ltac:(lia) Hall). unfold after, sleep, http_get, bind, await, ret.
    cbn [snd fst trace backoff_trace]. now rewrite <- !app_assoc.
Qed.

(** The events of the quote loop and of the swap. *)
Lemma quote_loop_net p k : forall attempt w,
  exists evs, trace (after (quote_loop env p k attempt) w) = trace w ++ evs /\
              Forall net_event evs.
Proof.
  induction k as [|k IH]; intros attempt w.
  - exists []. unfold after. simpl. now rewrite app_nil_r.
  - unfold after. rewrite quote_loop_turn.
    assert (Ht : exists evs, trace (snd (quote_try env p w)) = trace w ++ evs /\
                             Forall net_event evs).
    { unfold quote_try, asyncio_sleep. run_m.
      destruct (env_http env (tick w)) as [|status hdr [data|]]; simpl;
        try (eexists [_]; split; [reflexivity | repeat constructor]).
      destruct (status =? 429).
      - destruct (retry_after_of hdr) as [d|e]; simpl.
        + destruct (sleep_limit <=? d); simpl.
          * eexists [_]; split; [reflexivity | repeat constructor].
          * eexists [_; _]. rewrite <- app_assoc. split; [reflexivity | repeat constructor].
        + eexists [_]; split; [reflexivity | repeat constructor].
      - destruct (negb (status =? 200));
          [eexists [_]; split; [reflexivity | repeat constructor]|].
        destruct (negb (truthy data));
          [eexists [_]; split; [reflexivity | repeat constructor]|].
        destruct (contains "routePlan" data) as [[|]|e]; simpl;
          eexists [_]; (split; [reflexivity | repeat constructor]). }
    destruct Ht as (evs & Ht & Hn).
    destruct (quote_try env p w) as [[[data|]|e] w1]; simpl in Ht |- *.
    + now exists evs.
    + destruct (IH (attempt + 1) w1) as (evs' & Ht' & Hn').
      exists (evs ++ evs'). unfold after in Ht'. rewrite Ht', Ht, app_assoc.
      split; [reflexivity | now apply Forall_app].
    + destruct (sleep_limit <=? 2 ^ attempt); [now exists evs|].
      destruct (IH (attempt + 1) (after (sleep env (2 ^ attempt)) w1)) as (evs' & Ht' & Hn').
      exists (evs ++ EvSleep (2 ^ attempt) :: evs'). unfold after in Ht' |- *. rewrite Ht'.
      run_m. rewrite Ht, <- !app_assoc.
      split; [reflexivity | apply Forall_app; split; [assumption|]].
      constructor; [exact I | assumption].
Qed.

Lemma buy_token_jupiter_unfold wallet_kp token a w :
  buy_token_jupiter env wallet_kp token a w =
    let w0 := after (mark (EvBuy token a)) w in
    match to_lamports a with
    | Raise e => (Raise e, w0)
    | Ok lamports =>
        if lamports <? 100000 then (Ok None, w0)
        else
          match jupiter_get_quote env SOL_MINT token lamports DEFAULT_SLIPPAGE 5 w0 with
          | (Raise e, w1) => (Raise e, w1)
          | (Ok quote, w1) =>
              if negb (truthy quote) then (Ok None, w1)
              else
                match Py.get quote "outAmount" with
                | Raise e => (Raise e, w1)
                | Ok v =>
                    let out := match Py.int v with Ok z => z | Raise _ => 0 end in
                    let w2 := after (jupiter_swap env wallet_kp quote (public_key wallet_kp)) w1 in
                    match env_swap env (tick w1) with
                    | Some s => if sig_truthy (Some s) then (Ok (Some (s, out)), w2)
                                else (Ok None, w2)
                    | None => (Ok None, w2)
                    end
                end
          end
    end.
Proof.
  unfold buy_token_jupiter, after, mark, lift, jupiter_swap, sig_truthy.
  unfold bind at 1. cbn [snd]. unfold bind at 1.
  destruct (to_lamports a) as [lamports|e]; [|reflexivity].
  destruct (lamports <? 100000); [reflexivity|].
  unfold bind at 1.
  match goal with |- context [jupiter_get_quote ?e ?i ?o ?l ?s ?n ?w0] =>
    destruct (jupiter_get_quote e i o l s n w0) as [[quote|e'] w1] end; [|reflexivity].
  destruct (negb (truthy quote)); [reflexivity|].
  unfold bind at 1.
  destruct (Py.get quote "outAmount") as [v|e']; [|reflexivity].
  unfold bind, await, ret. cbn [snd].
  destruct (env_swap env (tick w1)) as [s|]; [|reflexivity].
  destruct (negb (s =? ""))%string; reflexivity.
Qed.

Lemma sell_token_jupiter_unfold wallet_kp token amount w :
  sell_token_jupiter env wallet_kp token amount w =
    let w0 := after (mark (EvSell token amount)) w in
    match jupiter_get_quote env token SOL_MINT amount DEFAULT_SLIPPAGE 5 w0 with
    | (Raise e, w1) => (Raise e, w1)
    | (Ok quote, w1) =>
        if negb (truthy quote) then (Ok None, w1)
        else (Ok (env_swap env (tick w1)),
              after (jupiter_swap env wallet_kp quote (public_key wallet_kp)) w1)
    end.
Proof.
  unfold sell_token_jupiter, after, mark, jupiter_swap.
  unfold bind at 1. cbn [snd]. unfold bind at 1.
  match goal with |- context [jupiter_get_quote ?e ?i ?o ?l ?s ?n ?w0] =>
    destruct (jupiter_get_quote e i o l s n w0) as [[quote|e'] w1] end; [|reflexivity].
  destruct (negb (truthy quote)); reflexivity.
Qed.


(** A buy emits its marker, then requests, sleeps and at most one swap. *)
Lemma buy_token_jupiter_trace wallet_kp token a w :
  exists evs,
    trace (after (buy_token_jupiter env wallet_kp token a) w) =
      trace w ++ EvBuy token a :: evs /\ Forall net_event evs.
Proof.
  unfold after at 1. rewrite buy_token_jupiter_unfold. cbv zeta.
  set (w0 := after (mark (EvBuy token a)) w).
  assert (H0 : trace w0 = trace w ++ [EvBuy token a]) by reflexivity.
  destruct (to_lamports a) as [lamports|e];
    [|exists []; split; [reflexivity | constructor]].
  destruct (lamports <? 100000); [exists []; split; [reflexivity | constructor]|].
  unfold jupiter_get_quote.
  match goal with |- context [quote_loop env ?p ?k ?n w0] =>
    destruct (quote_loop_net p k n w0) as (evs & Ht & Hn);
    destruct (quote_loop_total p k n w0 ltac:(now vm_compute)) as (quote & w1 & _ & Hq & _) end.
  unfold after in Ht. rewrite Hq in Ht |- *. cbn [snd] in Ht.
  assert (H1 : trace w1 = trace w ++ EvBuy token a :: evs)
    by (rewrite Ht, H0, <- app_assoc; reflexivity).
  destruct (negb (truthy quote)); [now exists evs|].
  destruct (Py.get quote "outAmount") as [v|e]; [|now exists evs].
  assert (H2 : trace (after (jupiter_swap env wallet_kp quote (public_key wallet_kp)) w1)
               = trace w ++ EvBuy token a :: evs ++ [EvSwap quote (public_key wallet_kp)]).
  { run_m. rewrite H1, <- app_assoc. reflexivity. }
  assert (Hn2 : Forall net_event (evs ++ [EvSwap quote (public_key wallet_kp)])).
  { apply Forall_app. split; [assumption | repeat constructor]. }
  cbv zeta.
  destruct (env_swap env (tick w1)) as [s|]; [destruct (sig_truthy (Some s))|];
    simpl; eexists; split; try exact H2; assumption.
Qed.

(** A sell never raises; it emits its marker, then requests, sleeps and at
    most one swap. *)
Lemma sell_token_jupiter_trace wallet_kp token amount w :
  exists tx_sell w' evs,
    sell_token_jupiter env wallet_kp token amount w = (Ok tx_sell, w') /\
    trace w' = trace w ++ EvSell token amount :: evs /\ Forall net_event evs.
Proof.
  rewrite sell_token_jupiter_unfold. cbv zeta.
  set (w0 := after (mark (EvSell token amount)) w).
  assert (H0 : trace w0 = trace w ++ [EvSell token amount]) by reflexivity.
  unfold jupiter_get_quote.
  match goal with |- context [quote_loop env ?p ?k ?n w0] =>
    destruct (quote_loop_net p k n w0) as (evs & Ht & Hn);
    destruct (quote_loop_total p k n w0 ltac:(now vm_compute)) as (quote & w1 & _ & Hq & _) end.
  unfold after in Ht. rewrite Hq in Ht |- *. cbn [snd] in Ht.
  assert (H1 : trace w1 = trace w ++ EvSell token amount :: evs)
    by (rewrite Ht, H0, <- app_assoc; reflexivity).
  destruct (negb (truthy quote)).
  - exists None, w1, evs. now repeat split.
  - eexists _, _, (evs ++ [EvSwap quote (public_key wallet_kp)]).
    split; [reflexivity|]. split.
    + run_m. rewrite H1, <- app_assoc. reflexivity.
    + apply Forall_app. split; [assumption | repeat constructor].
Qed.

(** The body of the [try] raises with nothing done but the request. *)
Lemma quote_try_raises p w :
  forall e, fst (quote_try env p w) = Raise e ->
            snd (quote_try env p w) = after (http_get env p) w.
Proof.
  unfold quote_try, asyncio_sleep. run_m.
  destruct (env_http env (tick w)) as [|status hdr [data|]]; simpl; try reflexivity.
  destruct (status =? 429).
  - destruct (retry_after_of hdr) as [d|e0]; simpl; [|reflexivity].
    destruct (sleep_limit <=? d); simpl; [reflexivity | discriminate].
  - destruct (negb (status =? 200)); [discriminate|].
    destruct (negb (truthy data)); [discriminate|].
    destruct (contains "routePlan" data) as [[|]|e0]; simpl; try discriminate.
    reflexivity.
Qed.

(** The outcomes on which the body of the [try] raises. *)
Lemma quote_try_raises_iff p w :
  (exists e w1, quote_try env p w = (Raise e, w1)) <->
  (env_http env (tick w) = ConnError \/
   (exists status hdr, env_http env (tick w) = HttpResp status hdr None) \/
   (exists hdr data, env_http env (tick w) = HttpResp 429 hdr (Some data) /\
                     forall d, retry_after_of hdr = Ok d -> sleep_limit <= d) \/
   (exists hdr data e, env_http env (tick w) = HttpResp 200 hdr (Some data) /\
                       truthy data = true /\
                       contains "routePlan" data = Raise e)).
Proof.
  split.
  - intros (e & w1 & H). revert H. unfold quote_try, asyncio_sleep. run_m.
    destruct (env_http env (tick w)) as [|status hdr [data|]]; simpl.
    + now left.
    + destruct (Z.eqb_spec status 429) as [->|H429].
      * intros H. right. right. left. exists hdr, data. split; [reflexivity|].
        intros d Hd. rewrite Hd in H. simpl in H.
        destruct (Z.leb_spec sleep_limit d); [assumption | discriminate].
      * destruct (Z.eqb_spec status 200) as [->|H200]; simpl; [|discriminate].
        destruct (truthy data) eqn:Htruthy; simpl; [|discriminate].
        destruct (contains "routePlan" data) as [[|]|e0] eqn:Hplan; simpl;
          try discriminate.
        intros _. right. right. right. now exists hdr, data, e0.
    + intros _. right. left. now exists status, hdr.
  - intros [H | [(status & hdr & H) | [(hdr & data & H & Hd) | (hdr & data & e & H & Ht & Hc)]]].
    + eexists _, _. now apply quote_try_conn_error.
    + eexists _, _. now apply (quote_try_bad_body _ _ status hdr).
    + rewrite (quote_try_rate_limit _ _ _ _ H).
      destruct (retry_after_of hdr) as [d|e]; [|now eexists _, _].
      specialize (Hd d eq_refl). destruct (Z.leb_spec sleep_limit d); [|lia].
      now eexists _, _.
    + unfold quote_try. run_m. rewrite H. simpl. rewrite Ht, Hc. simpl.
      now eexists _, _.
Qed.

Lemma quoted_widen t0 t1 t0' t1' data :
  (t0' <= t0)%nat -> (t1 <= t1')%nat -> quoted env t0 t1 data -> quoted env t0' t1' data.
Proof.
  intros H0 H1 (t & hdr & Ht & Hrest). exists t, hdr. split; [lia | exact Hrest].
Qed.

Ltac one_request :=
  eexists [_]; split; [reflexivity|]; split; [now constructor|];
  split; [reflexivity|]; split; [simpl; lia|].

(** The body of the [try]: one request, perhaps a sleep; what it returns
    is the empty dict or the body just received. *)
Lemma quote_try_shape p w :
  exists evs,
    trace (snd (quote_try env p w)) = trace w ++ evs /\
    Forall (quote_event p) evs /\
    requests evs = 1%nat /\
    (tick w < tick (snd (quote_try env p w)))%nat /\
    forall data, fst (quote_try env p w) = Ok (Return data) ->
      data = empty_dict \/ quoted env (tick w) (tick (snd (quote_try env p w))) data.
Proof.
  assert (Hreq : quote_event p (EvHttpGet (q_input p) (q_output p) (q_amount p)
                                          (q_slippage p * 100))) by now left.
  unfold quote_try, asyncio_sleep, http_get, sleep, bind, await, ret, raise, lift.
  cbn [snd fst tick trace].
  destruct (env_http env (tick w)) as [|status hdr [data|]] eqn:Hhttp;
    cbn [snd fst tick trace].
  - one_request. intros data Hr. discriminate Hr.
  - destruct (Z.eqb_spec status 429) as [H429|H429].
    + destruct (retry_after_of hdr) as [d|e]; cbn [snd fst tick trace].
      * destruct (sleep_limit <=? d); cbn [snd fst tick trace].
        { one_request. intros data' Hr. discriminate Hr. }
        eexists [_; _]. rewrite <- app_assoc.
        split; [reflexivity|]. split.
        { constructor; [exact Hreq|]. constructor; [right; now eexists | constructor]. }
        split; [reflexivity|]. split; [lia|]. intros data' Hr. discriminate Hr.
      * one_request. intros data' Hr. discriminate Hr.
    + destruct (Z.eqb_spec status 200) as [H200|H200]; cbn [negb snd fst tick trace].
      * destruct (truthy data) eqn:Htruthy; cbn [negb snd fst tick trace].
        -- destruct (contains "routePlan" data) as [[|]|e] eqn:Hplan;
             cbn [negb snd fst tick trace]; one_request; intros data' Hr.
           ++ injection Hr as <-. right. exists (tick w), hdr. subst status.
              split; [lia|]. now repeat split.
           ++ injection Hr as <-. now left.
           ++ discriminate Hr.
        -- one_request. intros data' Hr. injection Hr as <-. now left.
      * one_request. intros data' Hr. injection Hr as <-. now left.
  - one_request. intros data Hr. discriminate Hr.
Qed.

(** The loop as a whole, however it ends. *)
Lemma quote_loop_shape p k : forall attempt w,
  exists evs,
    trace (snd (quote_loop env p k attempt w)) = trace w ++ evs /\
    Forall (quote_event p) evs /\
    (requests evs <= k)%nat /\
    (tick w <= tick (snd (quote_loop env p k attempt w)))%nat /\
    forall data, fst (quote_loop env p k attempt w) = Ok data ->
      data = empty_dict \/
      quoted env (tick w) (tick (snd (quote_loop env p k attempt w))) data.
Proof.
  induction k as [|k IH]; intros attempt w.
  - exists []. simpl. rewrite app_nil_r.
    split; [reflexivity|]. split; [constructor|].
    split; [unfold requests; simpl; lia|]. split; [lia|].
    intros data H. injection H as <-. now left.
  - rewrite quote_loop_turn.
    destruct (quote_try_shape p w) as (evs & Ht & Hev & Hr & Htick & Hdata).
    destruct (quote_try env p w) as [[[data|]|e] w1]; cbn [snd fst] in *.
    + exists evs.
      split; [assumption|]. split; [assumption|].
      split; [lia|]. split; [lia|]. intros data' H. injection H as <-. now apply Hdata.
    + destruct (IH (attempt + 1) w1) as (evs' & Ht' & Hev' & Hr' & Htick' & Hdata').
      exists (evs ++ evs'). rewrite Ht', Ht, requests_app, app_assoc.
      split; [reflexivity|]. split; [now apply Forall_app|].
      split; [lia|]. split; [lia|].
      intros data H. destruct (Hdata' data H) as [-> | Hd]; [now left | right].
      eapply quoted_widen; [| |exact Hd]; lia.
    + destruct (sleep_limit <=? 2 ^ attempt); cbn [snd fst].
      { exists evs. split; [assumption|]. split; [assumption|].
        split; [lia|]. split; [lia|]. intros data H. discriminate H. }
      set (w2 := after (sleep env (2 ^ attempt)) w1).
      assert (Ht2 : trace w2 = trace w1 ++ [EvSleep (2 ^ attempt)]) by reflexivity.
      assert (Htick2 : tick w2 = S (tick w1)) by reflexivity.
      destruct (IH (attempt + 1) w2) as (evs' & Ht' & Hev' & Hr' & Htick' & Hdata').
      exists (evs ++ EvSleep (2 ^ attempt) :: evs').
      split; [rewrite Ht', Ht2, Ht, <- !app_assoc; reflexivity|]. split.
      { apply Forall_app. split; [assumption|].
        constructor; [right; now eexists | assumption]. }
      split; [rewrite requests_app; unfold requests in *; simpl; lia|]. split; [lia|].
      intros data H. destruct (Hdata' data H) as [-> | Hd]; [now left | right].
      eapply quoted_widen; [| |exact Hd]; lia.
Qed.

(** The loop when the counter stays within 1024: it returns. *)
Lemma quote_loop_result p k attempt w :
  attempt + Z.of_nat k <= 1024 ->
  exists data w' evs,
    quote_loop env p k attempt w = (Ok data, w') /\
    trace w' = trace w ++ evs /\
    Forall (quote_event p) evs /\
    (requests evs <= k)%nat /\
    (tick w <= tick w')%nat /\
    (data = empty_dict \/ quoted env (tick w) (tick w') data).
Proof.
  intros Hfit.
  destruct (quote_loop_total p k attempt w Hfit) as (data & w' & _ & Hq & _).
  destruct (quote_loop_shape p k attempt w) as (evs & Ht & Hev & Hr & Htick & Hd).
  rewrite Hq in Ht, Htick, Hd. cbn [fst snd] in *.
  exists data, w', evs. repeat split; try assumption. now apply Hd.
Qed.

(** When every call fails and more than 1024 attempts are allowed, the
    sleep of the handler ends the call at the attempt number 1024. *)
Lemma quote_loop_backoff_overflow p k : forall attempt w,
  (forall t, env_http env t = ConnError) ->
  attempt <= 1024 < attempt + Z.of_nat k ->
  fst (quote_loop env p k attempt w) = Raise OverflowError.
Proof.
  induction k as [|k IH]; intros attempt w Hall Hfit; [lia|].
  rewrite quote_loop_turn, (quote_try_conn_error _ _ (Hall _)).
  destruct (Z.eq_dec attempt 1024) as [->|Hne].
  - now rewrite backoff_overflows.
  - rewrite backoff_fits by lia. apply IH; [assumption | lia].
Qed.

(** The body of the [try] begins with the request. *)
Lemma quote_try_first p w :
  exists evs,
    trace (snd (quote_try env p w)) =
      trace w ++ EvHttpGet (q_input p) (q_output p) (q_amount p) (q_slippage p * 100) :: evs.
Proof.
  unfold quote_try, asyncio_sleep. run_m.
  destruct (env_http env (tick w)) as [|status hdr [data|]]; simpl;
    try (exists []; reflexivity).
  destruct (status =? 429).
  - destruct (retry_after_of hdr) as [d|e]; simpl.
    + destruct (sleep_limit <=? d); simpl.
      * exists []; reflexivity.
      * eexists [_]. rewrite <- app_assoc. reflexivity.
    + exists []; reflexivity.
  - destruct (negb (status =? 200)); [exists []; reflexivity|].
    destruct (negb (truthy data)); [exists []; reflexivity|].
    destruct (contains "routePlan" data) as [[|]|e]; simpl; exists []; reflexivity.
Qed.

(** So does a loop that has a turn left. *)
Lemma quote_loop_first p k attempt w :
  exists evs,
    trace (snd (quote_loop env p (S k) attempt w)) =
      trace w ++ EvHttpGet (q_input p) (q_output p) (q_amount p) (q_slippage p * 100) :: evs.
Proof.
  rewrite quote_loop_turn. destruct (quote_try_first p w) as (evs & Ht).
  destruct (quote_try env p w) as [[[data|]|e] w1]; cbn [snd] in Ht |- *.
  - now exists evs.
  - destruct (quote_loop_net p k (attempt + 1) w1) as (evs' & Ht' & _).
    unfold after in Ht'. rewrite Ht', Ht, <- app_assoc. now exists (evs ++ evs').
  - destruct (sleep_limit <=? 2 ^ attempt); [now exists evs|].
    set (w2 := after (sleep env (2 ^ attempt)) w1).
    assert (Hs : trace w2 = trace w1 ++ [EvSleep (2 ^ attempt)]) by reflexivity.
    destruct (quote_loop_net p k (attempt + 1) w2) as (evs' & Ht' & _).
    unfold after in Ht'. rewrite Ht', Hs, Ht, <- !app_assoc.
    now exists (evs ++ [EvSleep (2 ^ attempt)] ++ evs').
Qed.

(** A buy of an amount at or above the floor asks for a quote of it. *)
Lemma buy_token_jupiter_first_request wallet_kp token a lamports w :
  to_lamports a = Ok lamports -> 100000 <= lamports ->
  exists evs,
    trace (after (buy_token_jupiter env wallet_kp token a) w) =
      trace w ++ EvBuy token a
        :: EvHttpGet SOL_MINT token lamports (DEFAULT_SLIPPAGE * 100) :: evs.
Proof.
  intros Hl Hfloor. unfold after at 1. rewrite buy_token_jupiter_unfold, Hl. cbv zeta.
  set (w0 := after (mark (EvBuy token a)) w).
  assert (H0 : trace w0 = trace w ++ [EvBuy token a]) by reflexivity.
  destruct (Z.ltb_spec lamports 100000); [lia|].
  unfold jupiter_get_quote. change (Z.to_nat 5) with 5%nat.
  match goal with |- context [quote_loop env ?p 5 0 w0] =>
    destruct (quote_loop_first p 4 0 w0) as (evs & Ht);
    destruct (quote_loop env p 5 0 w0) as [[quote|e] w1] end;
    cbn [snd q_input q_output q_amount q_slippage] in Ht.
  - assert (H1 : trace w1 = trace w ++ EvBuy token a
                   :: EvHttpGet SOL_MINT token lamports (DEFAULT_SLIPPAGE * 100) :: evs)
      by (rewrite Ht, H0, <- app_assoc; reflexivity).
    destruct (negb (truthy quote)); [now exists evs|].
    destruct (Py.get quote "outAmount") as [v|e]; [|now exists evs].
    assert (H2 : trace (after (jupiter_swap env wallet_kp quote (public_key wallet_kp)) w1)
                 = trace w ++ EvBuy token a
                     :: EvHttpGet SOL_MINT token lamports (DEFAULT_SLIPPAGE * 100)
                     :: evs ++ [EvSwap quote (public_key wallet_kp)]).
    { run_m. rewrite H1, <- app_assoc. reflexivity. }
    cbv zeta.
    destruct (env_swap env (tick w1)) as [s|]; [destruct (sig_truthy (Some s))|];
      simpl; eexists; exact H2.
  - exists evs. cbn [snd]. rewrite Ht, H0, <- app_assoc. reflexivity.
Qed.

End SwapClient.

(** C1 (amended). One turn of the loop of [jupiter_get_quote], with
    counter [attempt] and [k + 1] turns left, handles the outcome of its
    request as follows.  A 429 whose body decodes as JSON and whose
    Retry-After is absent or an integer that the clock can take: sleep for
    that delay (5 when absent), then retry with one turn less.  Any other
    status than 200 whose body decodes as JSON: the empty dict at once,
    without sleep or retry.  Any exception in the turn, whatever it is:
    nothing was done but the request, and the handler sleeps for 2^attempt
    seconds, then retries with one turn less.  The turns that raise are
    exactly those of a failed call, of a body that does not decode as JSON
    whatever the status, of a 429 whose Retry-After is no integer or is
    one too large to sleep on, and of a 200 whose body is a number or
    [true], in which [routePlan] cannot be looked for.  With no turn left
    the result is the empty dict.  With up to 1024 attempts allowed, the
    call never raises and issues at most [max_retries] requests; when
    every outcome is one that is retried it issues exactly [max_retries]
    requests and returns the empty dict; when every call fails, the sleeps
    between the requests are of 1, 2, 4, ... seconds.  (From the attempt
    number 1024 on, the sleep of the handler itself raises.) *)
Theorem jupiter_get_quote_status_handling (env : Env) (p : quote_params)
    (k : nat) (attempt : Z) (w : World) :
  let sent := after (http_get env p) w in
  (forall hdr data d,
      env_http env (tick w) = HttpResp 429 hdr (Some data) ->
      retry_after_of hdr = Ok d ->
      d < sleep_limit ->
      quote_loop env p (S k) attempt w =
        quote_loop env p k (attempt + 1) (after (sleep env d) sent)) /\
  retry_after_of None = Ok 5 /\
  (forall status hdr data,
      env_http env (tick w) = HttpResp status hdr (Some data) ->
      status <> 429 -> status <> 200 ->
      quote_loop env p (S k) attempt w = (Ok empty_dict, sent)) /\
  (forall e w1,
      quote_try env p w = (Raise e, w1) ->
      w1 = sent /\
      (attempt < 1024 ->
       quote_loop env p (S k) attempt w =
         quote_loop env p k (attempt + 1) (after (sleep env (2 ^ attempt)) sent)) /\
      (1024 <= attempt ->
       quote_loop env p (S k) attempt w = (Raise OverflowError, sent))) /\
  ((exists e w1, quote_try env p w = (Raise e, w1)) <->
   (env_http env (tick w) = ConnError \/
    (exists status hdr, env_http env (tick w) = HttpResp status hdr None) \/
    (exists hdr data, env_http env (tick w) = HttpResp 429 hdr (Some data) /\
                      forall d, retry_after_of hdr = Ok d -> sleep_limit <= d) \/
    (exists hdr data e, env_http env (tick w) = HttpResp 200 hdr (Some data) /\
                        truthy data = true /\
                        contains "routePlan" data = Raise e))) /\
  quote_loop env p 0 attempt w = (Ok empty_dict, w) /\
  (forall input_mint output_mint amount slippage max_retries,
      max_retries <= 1024 ->
      exists data w' evs,
        jupiter_get_quote env input_mint output_mint amount slippage max_retries w
          = (Ok data, w') /\
        trace w' = trace w ++ evs /\
        (requests evs <= Z.to_nat max_retries)%nat /\
        ((forall t, retried (env_http env t) = true) ->
         data = empty_dict /\ requests evs = Z.to_nat max_retries) /\
        ((forall t, env_http env t = ConnError) ->
         evs = backoff_trace {| q_input := input_mint; q_output := output_mint;
                                q_amount := amount; q_slippage := slippage |}
                             0 (Z.to_nat max_retries))).
Proof.
  intros sent. split; [|split; [reflexivity|split; [|split; [|split; [|split]]]]].
  - intros hdr data d H Hd Hfit.
    rewrite quote_loop_turn, (quote_try_rate_limit _ _ _ _ _ H), Hd.
    destruct (Z.leb_spec sleep_limit d); [lia | reflexivity].
  - intros status hdr data H H429 H200.
    now rewrite quote_loop_turn, (quote_try_other_status _ _ _ _ _ _ H H429 H200).
  - intros e w1 H.
    assert (Hw1 : w1 = sent).
    { pose proof (quote_try_raises env p w) as Hr. rewrite H in Hr. exact (Hr e eq_refl). }
    subst w1. split; [reflexivity|]. split; intros Ha; rewrite quote_loop_turn, H.
    + now rewrite backoff_fits.
    + now rewrite backoff_overflows.
  - apply quote_try_raises_iff.
  - reflexivity.
  - intros input_mint output_mint amount slippage max_retries Hmax.
    unfold jupiter_get_quote.
    set (q := {| q_input := input_mint; q_output := output_mint;
                 q_amount := amount; q_slippage := slippage |}).
    assert (Hfit : 0 + Z.of_nat (Z.to_nat max_retries) <= 1024) by lia.
    destruct (quote_loop_total env q (Z.to_nat max_retries) 0 w Hfit)
      as (data & w' & evs & Hq & Ht & Hr).
    exists data, w', evs. repeat split; try assumption.
    + destruct (quote_loop_sustained env q (Z.to_nat max_retries) 0 w Hfit H)
        as (w2 & evs2 & Hq2 & _). congruence.
    + destruct (quote_loop_sustained env q (Z.to_nat max_retries) 0 w Hfit H)
        as (w2 & evs2 & Hq2 & Ht2 & Hr2).
      rewrite Hq in Hq2. injection Hq2 as _ <-. rewrite Ht in Ht2.
      apply app_inv_head in Ht2. now subst evs2.
    + intros Hall.
      pose proof (quote_loop_backoff env q (Z.to_nat max_retries) 0 w Hfit Hall) as Hb.
      unfold after in Hb. rewrite Hq in Hb. cbn [snd] in Hb. rewrite Ht in Hb.
      now apply app_inv_head in Hb.
Qed.

(** The rate-limit clause, the exception clause and the other-status
    clause at work: a 429 with [Retry-After: 7], a 200 whose body is the
    number 7, then a 503. *)
Lemma jupiter_get_quote_status_handling_witness :
  jupiter_get_quote limited_then_number_then_503 "A" "B" 1000 20 5 idle =
    (Ok empty_dict,
     {| tick := 5; agent_last_buy := ∅;
        trace := [EvHttpGet "A" "B" 1000 2000; EvSleep 7;
                  EvHttpGet "A" "B" 1000 2000; EvSleep 2;
                  EvHttpGet "A" "B" 1000 2000] |}).
Proof.
  unfold jupiter_get_quote.
  set (env := limited_then_number_then_503).
  set (p := {| q_input := "A"; q_output := "B"; q_amount := 1000; q_slippage := 20 |}).
  change (Z.to_nat 5) with 5%nat.
  destruct (jupiter_get_quote_status_handling env p 4 0 idle) as (Hlimit & _).
  rewrite (Hlimit (Some "7"%string) JNull 7 eq_refl eq_refl); [|now vm_compute].
  set (w1 := after (sleep env 7) (after (http_get env p) idle)).
  destruct (jupiter_get_quote_status_handling env p 3 (0 + 1) w1)
    as (_ & _ & _ & Hraise & _).
  destruct (Hraise TypeError (after (http_get env p) w1) eq_refl) as (_ & Hretry & _).
  rewrite Hretry by lia.
  set (w2 := after (sleep env (2 ^ (0 + 1))) (after (http_get env p) w1)).
  destruct (jupiter_get_quote_status_handling env p 2 (0 + 1 + 1) w2)
    as (_ & _ & Hother & _).
  rewrite (Hother 503 None JNull eq_refl); [reflexivity | lia | lia].
Defined.

(** C1, as stated, fails: a 502 whose body is not JSON is no immediate
    empty result, the call sleeps 1 and 2 seconds and asks again; and a 429
    whose Retry-After is an HTTP date is not slept on for the delay of the
    server, nor for 5 seconds, but for 1 and 2 seconds. *)
Lemma jupiter_get_quote_bad_gateway_retried :
  jupiter_get_quote bad_gateway "A" "B" 1000 20 2 idle =
    (Ok empty_dict,
     {| tick := 4; agent_last_buy := ∅;
        trace := [EvHttpGet "A" "B" 1000 2000; EvSleep 1;
                  EvHttpGet "A" "B" 1000 2000; EvSleep 2] |}) /\
  jupiter_get_quote limited_until_date "A" "B" 1000 20 2 idle =
    (Ok empty_dict,
     {| tick := 4; agent_last_buy := ∅;
        trace := [EvHttpGet "A" "B" 1000 2000; EvSleep 1;
                  EvHttpGet "A" "B" 1000 2000; EvSleep 2] |}) /\
  ~ (forall env p k attempt w status hdr body,
        env_http env (tick w) = HttpResp status hdr body ->
        status <> 429 -> status <> 200 ->
        quote_loop env p (S k) attempt w = (Ok empty_dict, after (http_get env p) w)).
Proof.
  split; [reflexivity|]. split; [reflexivity|].
  intros claim.
  specialize (claim bad_gateway
                {| q_input := "A"; q_output := "B"; q_amount := 1000; q_slippage := 20 |}
                1%nat 0 idle 502 None None eq_refl).
  assert (H : 502 <> 429 /\ 502 <> 200) by lia.
  specialize (claim (proj1 H) (proj2 H)). discriminate claim.
Qed.

(** C4 (amended). In every turn of the loop of [jupiter_get_quote], the
    first of a call or one that follows rate limits and failures, a
    response with status 200 whose body decodes to a JSON object is
    answered at once, without sleep or retry: with the body itself when it
    has a [routePlan] key, whatever the value under it, and with the empty
    dict when it has none.  Hence a call that is allowed an attempt
    answers so the response to its first request; and an object that a
    call returns, other than the empty dict, has a [routePlan] key and is
    the body of a response with status 200 received during the call. *)
Theorem jupiter_get_quote_route_plan (env : Env) (p : quote_params) (k : nat)
    (attempt : Z) (w : World) (hdr : option string) (m : gmap string json) :
  env_http env (tick w) = HttpResp 200 hdr (Some (JObj m)) ->
  let answer := match m !! "routePlan" with Some _ => JObj m | None => empty_dict end in
  quote_loop env p (S k) attempt w = (Ok answer, after (http_get env p) w) /\
  (forall max_retries,
      0 < max_retries ->
      jupiter_get_quote env (q_input p) (q_output p) (q_amount p) (q_slippage p)
                        max_retries w
        = (Ok answer, after (http_get env p) w)) /\
  (forall env' input_mint output_mint amount slippage max_retries w0 m' w',
      jupiter_get_quote env' input_mint output_mint amount slippage max_retries w0
        = (Ok (JObj m'), w') ->
      m' <> ∅ ->
      is_Some (m' !! "routePlan") /\
      exists t hdr', (tick w0 <= t < tick w')%nat /\
                     env_http env' t = HttpResp 200 hdr' (Some (JObj m'))).
Proof.
  intros H answer.
  assert (Hturn : forall k' attempt',
             quote_loop env p (S k') attempt' w = (Ok answer, after (http_get env p) w)).
  { intros k' attempt'. now rewrite quote_loop_turn, (quote_try_ok_dict _ _ _ _ _ H). }
  split; [apply Hturn|]. split.
  - intros max_retries Hpos. unfold jupiter_get_quote.
    destruct (Z.to_nat max_retries) as [|k'] eqn:Hk; [lia|].
    destruct p; apply Hturn.
  - intros env' input_mint output_mint amount slippage max_retries w0 m' w' Hcall Hne.
    unfold jupiter_get_quote in Hcall.
    match type of Hcall with quote_loop env' ?q ?n ?a w0 = _ =>
      destruct (quote_loop_shape env' q n a w0) as (evs & _ & _ & _ & _ & Hd) end.
    rewrite Hcall in Hd. cbn [fst snd] in Hd.
    destruct (Hd (JObj m') eq_refl) as [Heq | (t & hdr' & Ht & Hresp & _ & Hplan)].
    + injection Heq as ->. contradiction.
    + split.
      * cbn [contains] in Hplan. destruct (m' !! "routePlan"); [now eexists | discriminate].
      * now exists t, hdr'.
Qed.

(** The first request is rate limited; the answer to the second has an
    empty route plan, and it is returned as the quote. *)
Lemma jupiter_get_quote_route_plan_witness :
  jupiter_get_quote limited_then_empty_plan "A" "B" 1000 20 5 idle =
    (Ok no_route,
     {| tick := 3; agent_last_buy := ∅;
        trace := [EvHttpGet "A" "B" 1000 2000; EvSleep 5;
                  EvHttpGet "A" "B" 1000 2000] |}).
Proof.
  set (p := {| q_input := "A"; q_output := "B"; q_amount := 1000; q_slippage := 20 |}).
  set (w1 := {| tick := 2; agent_last_buy := ∅;
                trace := [EvHttpGet "A" "B" 1000 2000; EvSleep 5] |}).
  destruct (jupiter_get_quote_route_plan limited_then_empty_plan p 3 1 w1 None
              (<["routePlan" := JArr []]> (<["outAmount" := JStr "0"]> ∅)) eq_refl)
    as (Hturn & _).
  transitivity (quote_loop limited_then_empty_plan p 4 1 w1); [reflexivity | exact Hturn].
Defined.

(** C4, as stated, fails: a quote with an empty route plan is returned. *)
Lemma jupiter_get_quote_returns_empty_plan :
  fst (jupiter_get_quote empty_plan "A" "B" 1000 20 5 idle) = Ok no_route /\
  truthy no_route = true /\
  has_nonempty_route_plan no_route = false.
Proof. repeat split; reflexivity. Qed.

(** C5 (amended). The amount in SOL is converted by truncating toward zero
    the binary64 product of the amount and 1,000,000,000.  When the product
    is a number, [lamports] is that product with its fraction dropped, and
    it is within one lamport and one rounding of the amount times 10^9;
    when the product is [nan] or infinite the buy raises on entry.  1.0
    gives 1,000,000,000 lamports, 0.0001 gives 100,000 and 0.0000999999
    gives 99,999.  Whenever the converted amount is below 100,000,
    [buy_token_jupiter] returns [None] having done nothing but enter: no
    request is issued and no suspension point is passed; at 100,000 and
    above the first thing it does is the quote request of that many
    lamports. *)
Theorem buy_token_jupiter_dust_floor (env : Env) (wallet_kp : Keypair)
    (token : string) (amount_sol : float) (w : World) :
  let entered := {| tick := tick w;
                    agent_last_buy := agent_last_buy w;
                    trace := trace w ++ [EvBuy token amount_sol] |} in
  match Prim2SF (amount_sol * 1000000000)%float with
  | S754_nan =>
      buy_token_jupiter env wallet_kp token amount_sol w = (Raise ValueError, entered)
  | S754_infinity _ =>
      buy_token_jupiter env wallet_kp token amount_sol w = (Raise OverflowError, entered)
  | _ =>
      exists lamports,
        to_lamports amount_sol = Ok lamports /\
        truncated (float_Q (amount_sol * 1000000000)%float) lamports /\
        (Qabs (inject_Z lamports - float_Q amount_sol * 1000000000)
         < 1 + Qabs (float_Q amount_sol) * (1000000000 * 2 ^ (-53)))%Q /\
        (lamports < 100000 ->
         buy_token_jupiter env wallet_kp token amount_sol w = (Ok None, entered)) /\
        (100000 <= lamports ->
         exists evs,
           trace (after (buy_token_jupiter env wallet_kp token amount_sol) w) =
             trace w ++ EvBuy token amount_sol
               :: EvHttpGet SOL_MINT token lamports (DEFAULT_SLIPPAGE * 100) :: evs)
  end /\
  to_lamports 1 = Ok 1000000000 /\
  to_lamports 0.0001 = Ok 100000 /\
  to_lamports 0.0000999999 = Ok 99999.
Proof.
  intros entered. split; [|repeat split; reflexivity].
  pose proof (to_lamports_spec amount_sol) as Hspec.
  assert (Hraise : forall e, to_lamports amount_sol = Raise e ->
            buy_token_jupiter env wallet_kp token amount_sol w = (Raise e, entered))
    by (intros e He; now rewrite buy_token_jupiter_unfold, He).
  assert (Hgen : forall z, to_lamports amount_sol = Ok z ->
            (z < 100000 ->
             buy_token_jupiter env wallet_kp token amount_sol w = (Ok None, entered)) /\
            (100000 <= z ->
             exists evs,
               trace (after (buy_token_jupiter env wallet_kp token amount_sol) w) =
                 trace w ++ EvBuy token amount_sol
                   :: EvHttpGet SOL_MINT token z (DEFAULT_SLIPPAGE * 100) :: evs)).
  { intros z Hz. split.
    - intros Hdust. rewrite buy_token_jupiter_unfold, Hz. cbv zeta.
      destruct (Z.ltb_spec z 100000); [reflexivity | lia].
    - intros Hfloor. now apply buy_token_jupiter_first_request. }
  destruct (Prim2SF (amount_sol * 1000000000)%float) as [s|s| |s m e].
  - destruct Hspec as (z & Hz & Htr & Hb). destruct (Hgen z Hz) as [Hdust Hfloor].
    exists z. split; [exact Hz|]. split; [exact Htr|]. split; [exact Hb|]. now split.
  - now apply Hraise.
  - now apply Hraise.
  - destruct Hspec as (z & Hz & Htr & Hb). destruct (Hgen z Hz) as [Hdust Hfloor].
    exists z. split; [exact Hz|]. split; [exact Htr|]. split; [exact Hb|]. now split.
Qed.

(** 0.00005 SOL is 50,000 lamports, below the floor. *)
Lemma buy_token_jupiter_dust_floor_witness :
  buy_token_jupiter empty_plan {| public_key := "W" |} "T" 0.00005 idle =
    (Ok None, {| tick := 0; agent_last_buy := ∅; trace := [EvBuy "T" 0.00005] |}).
Proof.
  destruct (buy_token_jupiter_dust_floor empty_plan {| public_key := "W" |} "T"
              0.00005 idle) as [H _].
  cbv zeta in H.
  change (Prim2SF (0.00005 * 1000000000)%float)
    with (S754_finite false 6871947673600000 (-37)) in H.
  cbv iota in H. destruct H as (lamports & Hl & _ & _ & Hdust & _).
  assert (Hv : lamports = 50000) by (vm_compute in Hl; congruence).
  apply Hdust. lia.
Defined.

(** C5, as stated, fails: the conversion is not exact. 0.00013 SOL is
    130,000 lamports, and the code converts it to 129,999, which is the
    amount that the quote request carries. *)
Lemma to_lamports_inexact :
  to_lamports 0.00013 = Ok 129999 /\
  13 * 1000000000 / 100000 = 130000 /\
  trace (after (buy_token_jupiter empty_plan {| public_key := "W" |} "T" 0.00013) idle) =
    [EvBuy "T" 0.00013; EvHttpGet SOL_MINT "T" 129999 2000; EvSwap no_route "W"].
Proof. repeat split; reflexivity. Qed.

(* ================================================================== *)
(** * Properties of the cycle controller *)
(* ================================================================== *)

Section Cycle.

Context (env : Env) (user_id : string) (wallet_kp : Keypair)
        (token_address name : string).

Local Abbreviation key := (user_id +:+ "_" +:+ name)%string.

Lemma selling_unfold agent_key w :
  selling env wallet_kp token_address agent_key w =
    let stored_amount := default 0 (agent_last_buy w !! agent_key) in
    if 0 <? stored_amount then
      match sell_token_jupiter env wallet_kp token_address stored_amount w with
      | (Ok tx_sell, w') =>
          if sig_truthy tx_sell then (Ok tt, after (store agent_key 0) w')
          else (Ok tt, w')
      | (Raise e, w') => (Raise e, w')
      end
    else (Ok tt, w).
Proof.
  unfold selling, after, load, store. unfold bind at 1. cbv zeta.
  destruct (0 <? default 0 (agent_last_buy w !! agent_key)); [|reflexivity].
  unfold bind at 1.
  destruct (sell_token_jupiter env wallet_kp token_address
              (default 0 (agent_last_buy w !! agent_key)) w) as [[tx_sell|e] w'];
    [|reflexivity].
  destruct (sig_truthy tx_sell); reflexivity.
Qed.

Lemma resting_max s w :
  resting env s w = (Ok tt, after (sleep env (Z.max (fixed_rest_delay s) 1)) w).
Proof.
  unfold resting.
  destruct (Z.ltb_spec 0 (fixed_rest_delay s)).
  - now rewrite Z.max_l by lia.
  - now rewrite Z.max_r by lia.
Qed.

(** The sell step never raises; it emits nothing unless the stored amount
    is positive, and then it sells exactly that amount. *)
Lemma selling_trace agent_key w :
  exists w' evs,
    selling env wallet_kp token_address agent_key w = (Ok tt, w') /\
    trace w' = trace w ++ evs /\
    forall tok amt, In (EvSell tok amt) evs ->
      0 < amt /\ tok = token_address /\ agent_last_buy w !! agent_key = Some amt.
Proof.
  rewrite selling_unfold. cbv zeta.
  destruct (Z.ltb_spec 0 (default 0 (agent_last_buy w !! agent_key))) as [Hpos|Hle].
  - destruct (sell_token_jupiter_trace env wallet_kp token_address
                (default 0 (agent_last_buy w !! agent_key)) w)
      as (tx_sell & w' & evs & Hs & Ht & Hn).
    rewrite Hs.
    assert (Hin : forall tok amt,
               In (EvSell tok amt) (EvSell token_address
                   (default 0 (agent_last_buy w !! agent_key)) :: evs) ->
               0 < amt /\ tok = token_address /\ agent_last_buy w !! agent_key = Some amt).
    { intros tok amt [Heq | Hin].
      - injection Heq as <- <-. repeat split; try assumption.
        destruct (agent_last_buy w !! agent_key); simpl in *; [reflexivity | lia].
      - rewrite List.Forall_forall in Hn. now apply Hn in Hin. }
    destruct (sig_truthy tx_sell); eexists _, _; (split; [reflexivity|]);
      (split; [exact Ht | exact Hin]).
  - exists w, []. rewrite app_nil_r. repeat split; now destruct H.
Qed.

(** What follows a successful buy never raises and ends on the rest. *)
Lemma after_buy_trace s agent_key w :
  exists w' evs,
    after_buy env s wallet_kp token_address agent_key w = (Ok tt, w') /\
    trace w' = trace w ++ evs ++ [EvSleep (Z.max (fixed_rest_delay s) 1)] /\
    (sell_enabled s = false -> evs = []) /\
    forall tok amt, In (EvSell tok amt) evs ->
      0 < amt /\ tok = token_address /\ sell_enabled s = true /\
      agent_last_buy (after (sleep env (fixed_sell_delay s)) w) !! agent_key = Some amt.
Proof.
  unfold after_buy. destruct (sell_enabled s).
  - unfold bind at 1. unfold bind at 1.
    change (sleep env (fixed_sell_delay s) w)
      with (Ok tt, after (sleep env (fixed_sell_delay s)) w).
    destruct (selling_trace agent_key (after (sleep env (fixed_sell_delay s)) w))
      as (w1 & evs & Hs & Ht & Hin).
    rewrite Hs, resting_max.
    exists (after (sleep env (Z.max (fixed_rest_delay s) 1)) w1),
           (EvSleep (fixed_sell_delay s) :: evs).
    split; [reflexivity|]. split; [|split; [discriminate|]].
    + unfold after at 1, sleep at 1. run_m. rewrite Ht. simpl.
      now rewrite <- !app_assoc.
    + intros tok amt [Heq | H]; [discriminate|].
      destruct (Hin tok amt H) as (? & ? & ?). now repeat split.
  - unfold bind at 1. unfold ret at 1. rewrite resting_max.
    exists (after (sleep env (Z.max (fixed_rest_delay s) 1)) w), [].
    split; [reflexivity|]. split; [reflexivity|]. split; [reflexivity|].
    intros tok amt [].
Qed.

Lemma cycle_body_unfold w :
  cycle_body env user_id wallet_kp token_address name w =
    let s := env_settings env (tick w) user_id name in
    let w1 := after (get_agent_settings env user_id name) w in
    if (fixed_buy s <=? 0)%float then (Ok NoBuyAmount, after (sleep env 5) w1)
    else
      let w2 := after (get_sol_balance env (public_key wallet_kp)) w1 in
      if (env_balance env (tick w1) (public_key wallet_kp) <? fixed_buy s)%float
      then (Ok NoFunds, after (sleep env 5) w2)
      else
        match buy_token_jupiter env wallet_kp token_address (fixed_buy s) w2 with
        | (Ok (Some (tx_buy, out_amount)), w3) =>
            match after_buy env s wallet_kp token_address key
                    (after (store key out_amount) w3) with
            | (Ok _, w4) => (Ok Rested, w4)
            | (Raise e, w4) => (Raise e, w4)
            end
        | (Ok None, w3) => (Ok BuyFailed, after (sleep env 1) w3)
        | (Raise e, w3) => (Raise e, w3)
        end.
Proof.
  unfold cycle_body, after, get_agent_settings, get_sol_balance, sleep, store,
    bind, await, ret.
  cbn [snd fst tick agent_last_buy trace].
  destruct (fixed_buy (env_settings env (tick w) user_id name) <=? 0)%float;
    [reflexivity|].
  cbn [snd fst tick agent_last_buy trace].
  match goal with |- context [(?b <? ?f)%float] => destruct (b <? f)%float end;
    [reflexivity|].
  cbn [snd fst tick agent_last_buy trace].
  match goal with |- context [buy_token_jupiter ?e ?k ?t ?a ?w2] =>
    destruct (buy_token_jupiter e k t a w2) as [[[[tx_buy out_amount]|]|e'] w3] end;
    reflexivity.
Qed.

Lemma run_wallet_cycle_unfold turns w :
  run_wallet_cycle env (S turns) user_id wallet_kp token_address name w =
    if default false (active_trading env (tick w) !! user_id) then
      match cycle_body env user_id wallet_kp token_address name w with
      | (Ok _, w1) => run_wallet_cycle env turns user_id wallet_kp token_address name w1
      | (Raise e, w1) => (Raise e, w1)
      end
    else (Ok Stopped, w).
Proof.
  simpl. unfold bind at 1. unfold is_active.
  destruct (default false (active_trading env (tick w) !! user_id)); [|reflexivity].
  unfold bind at 1.
  destruct (cycle_body env user_id wallet_kp token_address name w) as [[r|e] w1];
    reflexivity.
Qed.


Lemma net_event_not_sell evs tok amt :
  Forall net_event evs -> ~ In (EvSell tok amt) evs.
Proof.
  intros Hn Hin. rewrite List.Forall_forall in Hn. exact (Hn _ Hin).
Qed.

End Cycle.

(** C2. In a turn of the loop, [sell_token_jupiter] is entered only with a
    positive amount, which is the amount stored under the agent's key when
    the hold is over, and only in a turn whose buy succeeded: a turn that
    ends on the [continue] of the failed buy has no sell.  The sell step
    itself does nothing when the stored amount is zero, negative or
    absent. *)
Theorem sell_only_on_positive_stored_amount (env : Env) (user_id : string)
    (wallet_kp : Keypair) (token_address name : string) (w : World)
    (r : result iteration_end) (w' : World) :
  let key := (user_id +:+ "_" +:+ name)%string in
  let s := env_settings env (tick w) user_id name in
  cycle_body env user_id wallet_kp token_address name w = (r, w') ->
  exists evs,
    trace w' = trace w ++ evs /\
    (forall tok amt, In (EvSell tok amt) evs ->
       0 < amt /\ r = Ok Rested /\
       exists tx_buy out_amount w2 w3,
         buy_token_jupiter env wallet_kp token_address (fixed_buy s) w2
           = (Ok (Some (tx_buy, out_amount)), w3) /\
         agent_last_buy (after (sleep env (fixed_sell_delay s))
                               (after (store key out_amount) w3)) !! key = Some amt) /\
    (r = Ok BuyFailed -> forall tok amt, ~ In (EvSell tok amt) evs) /\
    (forall w0, default 0 (agent_last_buy w0 !! key) <= 0 ->
       selling env wallet_kp token_address key w0 = (Ok tt, w0)).
Proof.
  intros key s H.
  assert (Hskip : forall w0, default 0 (agent_last_buy w0 !! key) <= 0 ->
            selling env wallet_kp token_address key w0 = (Ok tt, w0)).
  { intros w0 Hle. rewrite selling_unfold. cbv zeta.
    destruct (Z.ltb_spec 0 (default 0 (agent_last_buy w0 !! key))); [lia | reflexivity]. }
  rewrite cycle_body_unfold in H. cbv zeta in H. fold s key in H.
  destruct (fixed_buy s <=? 0)%float.
  { injection H as <- <-. exists [EvGetSettings user_id name; EvSleep 5].
    split; [run_m; now rewrite <- app_assoc|].
    split; [|split; [discriminate | exact Hskip]].
    intros tok amt [Heq | [Heq | []]]; discriminate. }
  destruct (env_balance env _ _ <? fixed_buy s)%float.
  { injection H as <- <-.
    exists [EvGetSettings user_id name; EvGetBalance (public_key wallet_kp); EvSleep 5].
    split; [run_m; now rewrite <- !app_assoc|].
    split; [|split; [discriminate | exact Hskip]].
    intros tok amt [Heq | [Heq | [Heq | []]]]; discriminate. }
  set (w2 := after (get_sol_balance env (public_key wallet_kp))
                   (after (get_agent_settings env user_id name) w)) in *.
  assert (H2 : trace w2 = trace w ++ [EvGetSettings user_id name;
                                      EvGetBalance (public_key wallet_kp)])
    by (unfold w2; run_m; now rewrite <- app_assoc).
  destruct (buy_token_jupiter_trace env wallet_kp token_address (fixed_buy s) w2)
    as (evsb & Hb & Hnb).
  unfold after in Hb.
  destruct (buy_token_jupiter env wallet_kp token_address (fixed_buy s) w2)
    as [[[[tx_buy out_amount]|]|e] w3] eqn:Hbuy; cbn [snd] in Hb.
  - destruct (after_buy_trace env wallet_kp token_address s key
                (after (store key out_amount) w3)) as (w4 & evsa & Ha & Hta & _ & Hina).
    rewrite Ha in H. injection H as <- <-.
    exists ([EvGetSettings user_id name; EvGetBalance (public_key wallet_kp)]
            ++ EvBuy token_address (fixed_buy s) :: evsb
            ++ evsa ++ [EvSleep (Z.max (fixed_rest_delay s) 1)]).
    split.
    { rewrite Hta. change (trace (after (store key out_amount) w3)) with (trace w3).
      rewrite Hb, H2. now rewrite <- !app_assoc. }
    split; [|split; [discriminate | exact Hskip]].
    intros tok amt Hin.
    apply in_app_or in Hin. destruct Hin as [[Heq | [Heq | []]] | [Heq | Hin]];
      try discriminate.
    apply in_app_or in Hin. destruct Hin as [Hin | Hin];
      [now apply net_event_not_sell in Hin|].
    apply in_app_or in Hin. destruct Hin as [Hin | [Heq | []]]; [|discriminate].
    destruct (Hina tok amt Hin) as (Hpos & _ & _ & Hst).
    split; [assumption|]. split; [reflexivity|].
    now exists tx_buy, out_amount, w2, w3.
  - injection H as <- <-.
    exists ([EvGetSettings user_id name; EvGetBalance (public_key wallet_kp)]
            ++ EvBuy token_address (fixed_buy s) :: evsb ++ [EvSleep 1]).
    split.
    { run_m. rewrite Hb, H2. now rewrite <- !app_assoc. }
    assert (Hno : forall tok amt,
               ~ In (EvSell tok amt)
                    ([EvGetSettings user_id name; EvGetBalance (public_key wallet_kp)]
                     ++ EvBuy token_address (fixed_buy s) :: evsb ++ [EvSleep 1])).
    { intros tok amt Hin.
      apply in_app_or in Hin. destruct Hin as [[Heq | [Heq | []]] | [Heq | Hin]];
        try discriminate.
      apply in_app_or in Hin. destruct Hin as [Hin | [Heq | []]]; [|discriminate].
      now apply net_event_not_sell in Hin. }
    split; [|split; [intros _; exact Hno | exact Hskip]].
    intros tok amt Hin. now apply Hno in Hin.
  - injection H as <- <-.
    exists ([EvGetSettings user_id name; EvGetBalance (public_key wallet_kp)]
            ++ EvBuy token_address (fixed_buy s) :: evsb).
    split.
    { rewrite Hb, H2. now rewrite <- !app_assoc. }
    split; [|split; [discriminate | exact Hskip]].
    intros tok amt Hin.
    apply in_app_or in Hin. destruct Hin as [[Heq | [Heq | []]] | [Heq | Hin]];
      try discriminate.
    now apply net_event_not_sell in Hin.
Qed.

(** A turn in which 123 units are bought, stored and sold. *)
Lemma sell_only_on_positive_stored_amount_witness :
  exists w' evs,
    cycle_body (smooth settings_1 good_quote) "7" wallet_W "T" "A" idle = (Ok Rested, w') /\
    trace w' = trace idle ++ evs /\
    In (EvSell "T" 123) evs /\
    forall tok amt, In (EvSell tok amt) evs -> 0 < amt.
Proof.
  destruct (cycle_body (smooth settings_1 good_quote) "7" wallet_W "T" "A" idle)
    as [r w'] eqn:H.
  destruct (sell_only_on_positive_stored_amount _ _ _ _ _ _ _ _ H)
    as (evs & Ht & Hsell & _).
  vm_compute in H. injection H as <- <-.
  exists (snd (cycle_body (smooth settings_1 good_quote) "7" wallet_W "T" "A" idle)), evs.
  split; [reflexivity|]. split; [exact Ht|]. split.
  - simpl in Ht. subst evs. vm_compute. tauto.
  - intros tok amt Hin. now destruct (Hsell tok amt Hin).
Defined.

(** C3. As long as the settings read at the head of a turn have
    [fixed_buy <= 0] (the turn number [i] reads them at the instant
    [tick w + 2 * i]), the turn reads the settings, sleeps 5 seconds and
    goes back to the head of the loop: over any number of turns the trace
    holds nothing else, so no buy is entered and no request is issued, the
    controller writes nothing to [agent_last_buy], and it is still in its
    loop unless the trading flag was found off. *)
Theorem no_buy_while_fixed_buy_not_positive (env : Env) (user_id : string)
    (wallet_kp : Keypair) (token_address name : string) (turns : nat) :
  forall w,
  (forall i, (i < turns)%nat ->
     (fixed_buy (env_settings env (tick w + 2 * i) user_id name) <=? 0)%float = true) ->
  exists r w' j,
    run_wallet_cycle env turns user_id wallet_kp token_address name w = (Ok r, w') /\
    (j <= turns)%nat /\
    trace w' = trace w ++ concat (repeat [EvGetSettings user_id name; EvSleep 5] j) /\
    tick w' = (tick w + 2 * j)%nat /\
    agent_last_buy w' = drift env (tick w) (2 * j) (agent_last_buy w) /\
    (r = StillRunning /\ j = turns \/
     r = Stopped /\ default false (active_trading env (tick w') !! user_id) = false).
Proof.
  induction turns as [|k IH]; intros w Hle.
  - exists StillRunning, w, 0%nat. simpl. rewrite app_nil_r, Nat.add_0_r.
    repeat split; auto.
  - rewrite run_wallet_cycle_unfold.
    destruct (default false (active_trading env (tick w) !! user_id)) eqn:Hact.
    + rewrite cycle_body_unfold. cbv zeta.
      assert (H0 := Hle 0%nat ltac:(lia)). rewrite Nat.mul_0_r, Nat.add_0_r in H0.
      rewrite H0.
      set (w1 := after (sleep env 5) (after (get_agent_settings env user_id name) w)).
      assert (Hk : forall i, (i < k)%nat ->
                 (fixed_buy (env_settings env (tick w1 + 2 * i) user_id name) <=? 0)%float
                 = true).
      { intros i Hi. specialize (Hle (S i) ltac:(lia)).
        replace (tick w1 + 2 * i)%nat with (tick w + 2 * S i)%nat; [exact Hle|].
        unfold w1. run_m. lia. }
      destruct (IH w1 Hk) as (r & w' & j & Hrun & Hj & Ht & Htick & Hst & Hend).
      exists r, w', (S j). rewrite Hrun. split; [reflexivity|]. split; [lia|].
      split; [|split; [|split]].
      * rewrite Ht. unfold w1. run_m. now rewrite <- !app_assoc.
      * rewrite Htick. unfold w1. run_m. lia.
      * rewrite Hst. replace (2 * S j)%nat with (S (S (2 * j))) by lia. reflexivity.
      * destruct Hend as [[-> ->] | [-> Hoff]]; [now left | now right].
    + exists Stopped, w, 0%nat. simpl. rewrite app_nil_r, Nat.add_0_r.
      repeat split; [lia | now right].
Qed.

(** Three turns of an agent whose [fixed_buy] is 0. *)
Lemma no_buy_while_fixed_buy_not_positive_witness :
  run_wallet_cycle (smooth settings_0 good_quote) 3 "7" wallet_W "T" "A" idle =
    (Ok StillRunning,
     {| tick := 6; agent_last_buy := ∅;
        trace := [EvGetSettings "7" "A"; EvSleep 5; EvGetSettings "7" "A"; EvSleep 5;
                  EvGetSettings "7" "A"; EvSleep 5] |}).
Proof.
  destruct (no_buy_while_fixed_buy_not_positive (smooth settings_0 good_quote)
              "7" wallet_W "T" "A" 3 idle)
    as (r & w' & j & Hrun & _); [intros i _; reflexivity|].
  rewrite Hrun. vm_compute in Hrun. injection Hrun as <- <-. reflexivity.
Defined.

Section StopFlag.

Context (env : Env) (f : nat -> gmap string bool).






End StopFlag.




(** C7. The rest sleeps [max(fixed_rest_delay, 1)] seconds, and it is the
    last thing a turn does before going back to the head of the loop: the
    trace of a turn that reaches the rest ends on that sleep. *)
Theorem resting_sleeps_max_of_delay_and_one (env : Env) (user_id : string)
    (wallet_kp : Keypair) (token_address name : string) (w w' : World) :
  let s := env_settings env (tick w) user_id name in
  cycle_body env user_id wallet_kp token_address name w = (Ok Rested, w') ->
  (forall s0 w0,
      resting env s0 w0 = (Ok tt, after (sleep env (Z.max (fixed_rest_delay s0) 1)) w0)) /\
  exists evs,
    trace w' = trace w ++ evs ++ [EvSleep (Z.max (fixed_rest_delay s) 1)].
Proof.
  intros s H. split; [intros s0 w0; apply resting_max|].
  rewrite cycle_body_unfold in H. cbv zeta in H. fold s in H.
  destruct (fixed_buy s <=? 0)%float; [discriminate|].
  destruct (env_balance env _ _ <? fixed_buy s)%float; [discriminate|].
  set (w2 := after (get_sol_balance env (public_key wallet_kp))
                   (after (get_agent_settings env user_id name) w)) in *.
  assert (H2 : trace w2 = trace w ++ [EvGetSettings user_id name;
                                      EvGetBalance (public_key wallet_kp)])
    by (unfold w2; run_m; now rewrite <- app_assoc).
  destruct (buy_token_jupiter_trace env wallet_kp token_address (fixed_buy s) w2)
    as (evsb & Hb & _).
  unfold after in Hb.
  destruct (buy_token_jupiter env wallet_kp token_address (fixed_buy s) w2)
    as [[[[tx_buy out_amount]|]|e] w3]; cbn [snd] in Hb; try discriminate.
  match type of H with context [after_buy env s ?kp ?t ?k ?w0] =>
    destruct (after_buy_trace env kp t s k w0) as (w4 & evsa & Ha & Hta & _) end.
  rewrite Ha in H. injection H as <-.
  exists ([EvGetSettings user_id name; EvGetBalance (public_key wallet_kp)]
          ++ EvBuy token_address (fixed_buy s) :: evsb ++ evsa).
  rewrite Hta. cbn [after store snd trace]. rewrite Hb, H2.
  repeat rewrite <- app_assoc. simpl. now repeat rewrite <- app_assoc.
Qed.

Lemma resting_sleeps_max_of_delay_and_one_witness :
  exists w' evs,
    cycle_body (smooth settings_1 good_quote) "7" wallet_W "T" "A" idle = (Ok Rested, w') /\
    trace w' = evs ++ [EvSleep 1].
Proof.
  destruct (cycle_body (smooth settings_1 good_quote) "7" wallet_W "T" "A" idle)
    as [r w'] eqn:H.
  assert (Hr : r = Ok Rested) by (vm_compute in H; now injection H as <- _).
  subst r.
  destruct (resting_sleeps_max_of_delay_and_one _ _ _ _ _ _ _ H) as (_ & evs & Ht).
  exists w', evs. split; [reflexivity | exact Ht].
Defined.

(** C10. When the quote is a non-empty dict in which [outAmount] is missing
    or is not convertible to an integer, and the swap succeeds,
    [buy_token_jupiter] returns the signature with an output amount of 0.
    The turn of the loop then stores 0 under the agent's key; unless another
    task writes that entry, the sell step is skipped (the turn only holds
    and rests after the buy) and the entry is still 0 when the turn ends. *)
Theorem buy_with_unreadable_output_is_stored_as_zero (env : Env) (user_id : string)
    (wallet_kp : Keypair) (token_address name : string) (w w1 : World)
    (lamports : Z) (m : gmap string json) (tx_sig : string) :
  let key := (user_id +:+ "_" +:+ name)%string in
  let s := env_settings env (tick w) user_id name in
  let w2 := after (get_sol_balance env (public_key wallet_kp))
                  (after (get_agent_settings env user_id name) w) in
  let w3 := after (jupiter_swap env wallet_kp (JObj m) (public_key wallet_kp)) w1 in
  to_lamports (fixed_buy s) = Ok lamports ->
  100000 <= lamports ->
  jupiter_get_quote env SOL_MINT token_address lamports DEFAULT_SLIPPAGE 5
    (after (mark (EvBuy token_address (fixed_buy s))) w2) = (Ok (JObj m), w1) ->
  truthy (JObj m) = true ->
  (m !! "outAmount" = None \/
   exists v e, m !! "outAmount" = Some v /\ Py.int v = Raise e) ->
  env_swap env (tick w1) = Some tx_sig ->
  sig_truthy (Some tx_sig) = true ->
  (fixed_buy s <=? 0)%float = false ->
  (env_balance env (S (tick w)) (public_key wallet_kp) <? fixed_buy s)%float = false ->
  (forall t st, env_others env t st !! key = st !! key) ->
  buy_token_jupiter env wallet_kp token_address (fixed_buy s) w2
    = (Ok (Some (tx_sig, 0)), w3) /\
  exists w',
    cycle_body env user_id wallet_kp token_address name w = (Ok Rested, w') /\
    agent_last_buy w' !! key = Some 0 /\
    trace w' = trace w3
               ++ (if sell_enabled s then [EvSleep (fixed_sell_delay s)] else [])
               ++ [EvSleep (Z.max (fixed_rest_delay s) 1)].
Proof.
  intros key s w2 w3 Hl Hfloor Hq Htruthy Hout Hswap Hsig Hfb Hbal Hquiet.
  assert (Hbuy : buy_token_jupiter env wallet_kp token_address (fixed_buy s) w2
                 = (Ok (Some (tx_sig, 0)), w3)).
  { rewrite buy_token_jupiter_unfold, Hl. cbv zeta.
    destruct (Z.ltb_spec lamports 100000); [lia|].
    rewrite Hq, Htruthy. cbn [negb Py.get]. rewrite Hswap, Hsig.
    destruct Hout as [-> | (v & e & -> & Hint)]; cbn [from_option id];
      [reflexivity | now rewrite Hint]. }
  split; [exact Hbuy|].
  rewrite cycle_body_unfold. cbv zeta. fold s key. rewrite Hfb.
  change (tick (after (get_agent_settings env user_id name) w)) with (S (tick w)).
  rewrite Hbal. fold w2. rewrite Hbuy.
  unfold after_buy, resting, selling, sleep, load.
  destruct (sell_enabled s).
  - unfold bind, await, ret, after, store.
    cbn [snd fst tick agent_last_buy trace].
    rewrite Hquiet, lookup_insert_eq. cbn [from_option id].
    change (0 <? 0) with false. cbv iota.
    eexists. split; [reflexivity|]. cbn [agent_last_buy trace]. split.
    + now rewrite Hquiet, Hquiet, lookup_insert_eq.
    + destruct (Z.ltb_spec 0 (fixed_rest_delay s)).
      * rewrite Z.max_l by lia. now rewrite <- app_assoc.
      * rewrite Z.max_r by lia. now rewrite <- app_assoc.
  - unfold bind, await, ret, after, store.
    cbn [snd fst tick agent_last_buy trace].
    eexists. split; [reflexivity|]. cbn [agent_last_buy trace]. split.
    + now rewrite Hquiet, lookup_insert_eq.
    + destruct (Z.ltb_spec 0 (fixed_rest_delay s)).
      * now rewrite Z.max_l by lia.
      * now rewrite Z.max_r by lia.
Qed.

(** A quote without [outAmount] and a swap that succeeds: the buy returns
    the signature and 0, and the turn ends with 0 stored and nothing sold. *)
Lemma buy_with_unreadable_output_is_stored_as_zero_witness :
  fst (buy_token_jupiter (smooth settings_1 quote_without_amount) wallet_W "T" 0.01 idle)
    = Ok (Some ("sig"%string, 0)) /\
  cycle_body (smooth settings_1 quote_without_amount) "7" wallet_W "T" "A" idle =
    (Ok Rested,
     {| tick := 6; agent_last_buy := {["7_A" := 0]};
        trace := [EvGetSettings "7" "A"; EvGetBalance "W"; EvBuy "T" 0.01;
                  EvHttpGet SOL_MINT "T" 10000000 2000;
                  EvSwap quote_without_amount "W"; EvSleep 3; EvSleep 1] |}).
Proof.
  split; [reflexivity|].
  destruct (buy_with_unreadable_output_is_stored_as_zero
              (smooth settings_1 quote_without_amount) "7" wallet_W "T" "A" idle
              {| tick := 3; agent_last_buy := ∅;
                 trace := [EvGetSettings "7" "A"; EvGetBalance "W"; EvBuy "T" 0.01;
                           EvHttpGet SOL_MINT "T" 10000000 2000] |}
              10000000 (<["routePlan" := JArr [JStr "hop"]]> ∅) "sig")
    as (_ & w' & Hbody & _);
    [reflexivity | lia | reflexivity | reflexivity | now left | reflexivity
    | reflexivity | reflexivity | reflexivity | reflexivity |].
  rewrite Hbody. vm_compute in Hbody. now injection Hbody as <-.
Defined.

(* ================================================================== *)
(** * Properties of the fund transfers *)
(* ================================================================== *)



(** The transfer instruction builds on the amounts that fit 64 bits. *)
Lemma transfer_fits lamports : 0 <= lamports < 2 ^ 64 -> transfer lamports = Ok tt.
Proof.
  intros H. unfold transfer.
  destruct (Z.leb_spec 0 lamports); [|lia].
  destruct (Z.ltb_spec lamports (2 ^ 64)); [reflexivity | lia].
Qed.

Lemma transfer_overflows lamports :
  lamports < 0 \/ 2 ^ 64 <= lamports -> transfer lamports = Raise FormatFieldError.
Proof.
  intros H. unfold transfer.
  destruct (Z.leb_spec 0 lamports); [|reflexivity].
  destruct (Z.ltb_spec lamports (2 ^ 64)); [lia | reflexivity].
Qed.

Lemma transfer_cases lamports :
  transfer lamports = Ok tt /\ 0 <= lamports < 2 ^ 64 \/
  transfer lamports = Raise FormatFieldError /\ (lamports < 0 \/ 2 ^ 64 <= lamports).
Proof.
  unfold transfer.
  destruct (Z.leb_spec 0 lamports); [|right; split; [reflexivity | lia]].
  destruct (Z.ltb_spec lamports (2 ^ 64)); [left | right]; (split; [reflexivity | lia]).
Qed.

Section Funds.

Context (env : Env).

Lemma collect_one_unfold root_key agent w :
  collect_one env root_key agent w =
    match env_from_secret_key env (base58_key agent) with
    | None => (Ok (KeyDecodeError (agent_name agent)), w)
    | Some agent_key =>
        let balance := env_balance env (tick w) (public_key agent_key) in
        let w1 := after (get_sol_balance env (public_key agent_key)) w in
        if (balance <=? MIN_BALANCE)%float
        then (Ok (Insufficient (agent_name agent)), w1)
        else
          match to_lamports (balance - MIN_BALANCE)%float with
          | Raise e => (Raise e, w1)
          | Ok lamports =>
              (Ok (if env_send env (tick w1)
                   then Collected (agent_name agent) lamports
                   else TransferFailed (agent_name agent)),
               after (send_transaction env (public_key agent_key)
                                       (public_key root_key) lamports) w1)
          end
    end.
Proof.
  unfold collect_one, decode_keypair.
  destruct (env_from_secret_key env (base58_key agent)) as [agent_key|]; [|reflexivity].
  unfold after, get_sol_balance, send_transaction. unfold bind, await, ret, lift.
  cbn [snd fst tick agent_last_buy trace].
  destruct (env_balance env (tick w) (public_key agent_key) <=? MIN_BALANCE)%float;
    [reflexivity|].
  destruct (to_lamports _) as [lamports|e]; [|reflexivity].
  cbn [snd fst tick agent_last_buy trace].
  destruct (env_send env (S (tick w))); reflexivity.
Qed.

(** The sweep reports on every agent it gets to: each turn of its loop adds
    one line, whether the key decodes or not and whether the transfer goes
    through or not. *)
Lemma collect_loop_lines root_key agents : forall results w lines w',
  collect_loop env root_key agents results w = (Ok lines, w') ->
  length lines = (length results + length agents)%nat.
Proof.
  induction agents as [|agent rest IH]; intros results w lines w' H.
  - injection H as <- _. simpl. lia.
  - simpl in H. unfold bind at 1 in H.
    destruct (collect_one env root_key agent w) as [[line|e] w1]; [|discriminate].
    apply IH in H. rewrite H, length_app. simpl. lia.
Qed.

(** The sweep stops before its last agent only on a balance that has no
    integer part to convert. *)
Lemma collect_loop_total root_key agents : forall results w,
  (forall t pubkey, exists lamports,
      to_lamports (env_balance env t pubkey - MIN_BALANCE)%float = Ok lamports) ->
  exists lines w', collect_loop env root_key agents results w = (Ok lines, w').
Proof.
  induction agents as [|agent rest IH]; intros results w Hfin.
  - now exists results, w.
  - simpl. unfold bind at 1. rewrite collect_one_unfold.
    destruct (env_from_secret_key env (base58_key agent)) as [agent_key|];
      [|now apply IH].
    cbv zeta. destruct (_ <=? MIN_BALANCE)%float; [now apply IH|].
    destruct (Hfin (tick w) (public_key agent_key)) as (lamports & ->).
    now apply IH.
Qed.

(** The loop of the distribution gives one line per agent when every key
    decodes and the amount converts to lamports that fit the instruction;
    a transfer that fails is one of them. *)
Lemma load_loop_lines root_key amount lamports agents : forall responses w,
  to_lamports amount = Ok lamports ->
  transfer lamports = Ok tt ->
  Forall (fun agent => env_from_secret_key env (base58_key agent) <> None) agents ->
  exists lines w',
    load_loop env root_key amount agents responses w = (Ok lines, w') /\
    length lines = (length responses + length agents)%nat.
Proof.
  induction agents as [|agent rest IH]; intros responses w Hl Hfit Hkeys.
  - exists responses, w. simpl. split; [reflexivity | lia].
  - inversion Hkeys as [|? ? Hkey Hrest]; subst.
    simpl. unfold bind at 1. unfold load_one, decode_keypair.
    destruct (env_from_secret_key env (base58_key agent)) as [agent_key|];
      [|contradiction].
    rewrite Hl. unfold send_transaction, bind, await, ret, lift.
    cbn [snd fst]. rewrite Hfit.
    destruct (env_send env (tick w)); cbn [snd fst];
      match goal with |- context [load_loop env root_key amount rest ?rs ?w1] =>
        destruct (IH rs w1 Hl Hfit Hrest) as (lines & w' & Hrun & Hlen) end;
      exists lines, w'; (split; [exact Hrun|]); rewrite Hlen, length_app; simpl; lia.
Qed.

End Funds.



(** C9 fails on the distribution. Agent [B], the second of three, has a key
    that does not decode: [load_all_agents] sends to [A], then raises out
    of its loop. [C] is never reached and no report is returned, not even
    the line of [A]. The sweep, on the same wallets, reports the key of [B]
    and goes on to [C]. *)
Theorem load_all_agents_aborts_on_bad_key :
  load_all_agents funded "7" 0.5 idle =
    (Raise ValueError,
     {| tick := 2; agent_last_buy := ∅;
        trace := [EvGetWallets "7";
                  EvSend ("pub:" +:+ key_root) ("pub:" +:+ key_A) 500000000] |}) /\
  fst (collect_agents_to_root funded "7" idle) =
    Ok [Collected "A" 9000000; KeyDecodeError "B"; Collected "C" 9000000].
Proof. split; vm_compute; reflexivity. Qed.

(* ================================================================== *)
(** * Further properties of the swap client *)
(* ================================================================== *)

Section MoreSwap.

Context (env : Env).

Lemma swaps_app evs1 evs2 : swaps (evs1 ++ evs2) = (swaps evs1 + swaps evs2)%nat.
Proof. unfold swaps. now rewrite List.filter_app, length_app. Qed.

Lemma slept_app evs1 evs2 : slept (evs1 ++ evs2) = slept evs1 + slept evs2.
Proof.
  induction evs1 as [|ev evs1 IH]; [reflexivity|].
  destruct ev; simpl; rewrite IH; lia.
Qed.

Lemma quote_event_no_swap p evs : Forall (quote_event p) evs -> swaps evs = 0%nat.
Proof.
  induction 1 as [|ev evs Hev _ IH]; [reflexivity|].
  unfold swaps in *. destruct Hev as [-> | [secs ->]]; simpl; exact IH.
Qed.

Lemma slept_backoff_trace p k : forall attempt,
  0 <= attempt ->
  slept (backoff_trace p attempt k) = 2 ^ attempt * (2 ^ Z.of_nat k - 1).
Proof.
  induction k as [|k IH]; intros attempt Hpos.
  - simpl. lia.
  - cbn [backoff_trace slept]. rewrite IH by lia.
    replace (attempt + 1) with (Z.succ attempt) by lia.
    rewrite Nat2Z.inj_succ, !Z.pow_succ_r by lia. ring.
Qed.

End MoreSwap.

(** X1. Whatever [jupiter_get_quote] returns is the empty dict or the body of
    a response with status 200 that it received during the call, a
    non-empty value in which [routePlan] occurs: it never hands out the
    body of an error response nor anything of its own making. *)
Theorem jupiter_get_quote_returns_received_quote (env : Env)
    (input_mint output_mint : string) (amount slippage max_retries : Z)
    (w : World) (data : json) (w' : World) :
  jupiter_get_quote env input_mint output_mint amount slippage max_retries w
    = (Ok data, w') ->
  data = empty_dict \/ quoted env (tick w) (tick w') data.
Proof.
  unfold jupiter_get_quote. intros H.
  match type of H with quote_loop env ?p ?k ?a w = _ =>
    destruct (quote_loop_shape env p k a w) as (evs & _ & _ & _ & _ & Hd) end.
  rewrite H in Hd. exact (Hd data eq_refl).
Qed.

Lemma jupiter_get_quote_returns_received_quote_witness :
  quoted (smooth settings_1 good_quote) 0 1 good_quote.
Proof.
  destruct (jupiter_get_quote_returns_received_quote (smooth settings_1 good_quote)
              "A" "B" 1000 20 5 idle good_quote
              {| tick := 1; agent_last_buy := ∅; trace := [EvHttpGet "A" "B" 1000 2000] |}
              eq_refl) as [H | H]; [discriminate H | exact H].
Defined.

(** X2. When every call on the quote endpoint fails, [jupiter_get_quote]
    with a budget of [max_retries] up to 1024 issues that many requests,
    sleeps [2^max_retries - 1] seconds in all (31 seconds for the default
    of 5) and returns the empty dict.  With a larger budget it does not
    return: the sleep of [2^1024] seconds that the handler asks for after
    the attempt number 1024 raises [OverflowError], which leaves the
    function. *)
Theorem jupiter_get_quote_offline_wait (env : Env) (input_mint output_mint : string)
    (amount slippage max_retries : Z) (w : World) :
  0 <= max_retries ->
  (forall t, env_http env t = ConnError) ->
  (max_retries <= 1024 ->
   exists w' evs,
     jupiter_get_quote env input_mint output_mint amount slippage max_retries w
       = (Ok empty_dict, w') /\
     trace w' = trace w ++ evs /\
     requests evs = Z.to_nat max_retries /\
     slept evs = 2 ^ max_retries - 1) /\
  (1024 < max_retries ->
   fst (jupiter_get_quote env input_mint output_mint amount slippage max_retries w)
     = Raise OverflowError).
Proof.
  intros Hpos Hall. unfold jupiter_get_quote.
  set (p := {| q_input := input_mint; q_output := output_mint;
               q_amount := amount; q_slippage := slippage |}).
  split.
  - intros Hmax.
    assert (Hfit : 0 + Z.of_nat (Z.to_nat max_retries) <= 1024) by lia.
    assert (Hret : forall t, retried (env_http env t) = true)
      by (intros t; now rewrite Hall).
    destruct (quote_loop_sustained env p (Z.to_nat max_retries) 0 w Hfit Hret)
      as (w' & evs & Hq & Ht & Hr).
    exists w', evs. repeat split; try assumption.
    pose proof (quote_loop_backoff env p (Z.to_nat max_retries) 0 w Hfit Hall) as Hb.
    unfold after in Hb. rewrite Hq in Hb. cbn [snd] in Hb. rewrite Ht in Hb.
    apply app_inv_head in Hb. subst evs.
    rewrite slept_backoff_trace by lia. rewrite Z2Nat.id by lia. lia.
  - intros Hmax. apply quote_loop_backoff_overflow; [assumption | lia].
Qed.

Lemma jupiter_get_quote_offline_wait_witness :
  exists w' evs,
    jupiter_get_quote offline "A" "B" 1000 20 5 idle = (Ok empty_dict, w') /\
    trace w' = evs /\ requests evs = 5%nat /\ slept evs = 31.
Proof.
  destruct (jupiter_get_quote_offline_wait offline "A" "B" 1000 20 5 idle)
    as (Hwait & _); [lia | reflexivity |].
  destruct Hwait as (w' & evs & Hq & Ht & Hr & Hs); [lia|].
  exists w', evs. repeat split; assumption.
Defined.

Section MoreSwapCalls.

Context (env : Env).

Lemma quote_event_request p evs i o a b :
  Forall (quote_event p) evs -> In (EvHttpGet i o a b) evs ->
  i = q_input p /\ o = q_output p /\ a = q_amount p /\ b = q_slippage p * 100.
Proof.
  intros Hall Hin. rewrite List.Forall_forall in Hall.
  destruct (Hall _ Hin) as [Heq | [secs Heq]]; [|discriminate].
  now injection Heq as -> -> -> ->.
Qed.

Lemma quote_event_not_swap p evs quote wallet :
  Forall (quote_event p) evs -> ~ In (EvSwap quote wallet) evs.
Proof.
  intros Hall Hin. rewrite List.Forall_forall in Hall.
  destruct (Hall _ Hin) as [Heq | [secs Heq]]; discriminate.
Qed.

Lemma quoted_of_truthy t0 t1 data :
  data = empty_dict \/ quoted env t0 t1 data -> truthy data = true -> quoted env t0 t1 data.
Proof. intros [-> | H] Ht; [discriminate Ht | exact H]. Qed.

(** The quote loop followed by at most one swap, as both [buy_token_jupiter]
    and [sell_token_jupiter] run them. *)
Lemma quote_then_swap_shape p wallet w data w1 qevs tail :
  Forall (quote_event p) qevs ->
  (requests qevs <= 5)%nat ->
  (tail = [] \/
   tail = [EvSwap data wallet] /\ quoted env (tick w) (tick w1) data) ->
  (requests (qevs ++ tail) <= 5)%nat /\
  (swaps (qevs ++ tail) <= 1)%nat /\
  (forall i o a b, In (EvHttpGet i o a b) (qevs ++ tail) ->
     i = q_input p /\ o = q_output p /\ a = q_amount p /\ b = q_slippage p * 100) /\
  (forall quote wallet', In (EvSwap quote wallet') (qevs ++ tail) ->
     wallet' = wallet /\ quoted env (tick w) (tick w1) quote).
Proof.
  intros Hev Hr [-> | [-> Hq]].
  - rewrite app_nil_r. split; [assumption|]. split; [rewrite (quote_event_no_swap p) by assumption; lia|].
    split; [intros i o a b; now apply quote_event_request|].
    intros quote wallet' Hin. now apply (quote_event_not_swap p) in Hin.
  - split; [rewrite requests_app; unfold requests at 2; simpl; lia|].
    split; [rewrite swaps_app, (quote_event_no_swap p) by assumption;
            unfold swaps; simpl; lia|].
    split.
    + intros i o a b Hin. apply in_app_or in Hin. destruct Hin as [Hin | [Heq | []]];
        [now apply (quote_event_request p qevs) | discriminate].
    + intros quote wallet' Hin. apply in_app_or in Hin.
      destruct Hin as [Hin | [Heq | []]];
        [now apply (quote_event_not_swap p) in Hin|].
      injection Heq as <- <-. now split.
Qed.

End MoreSwapCalls.

(** X3. [sell_token_jupiter] never raises. After its entry it issues at
    most 5 quote requests, all for the given amount of the token against
    SOL at 2000 basis points, and submits at most one swap, for the wallet
    of the key pair and with a quote received during the call; when it
    returns a signature, exactly one swap was submitted. *)
Theorem sell_token_jupiter_effects (env : Env) (wallet_kp : Keypair)
    (token_mint : string) (amount : Z) (w : World) :
  exists tx_sell w' evs,
    sell_token_jupiter env wallet_kp token_mint amount w = (Ok tx_sell, w') /\
    trace w' = trace w ++ EvSell token_mint amount :: evs /\
    (requests evs <= 5)%nat /\
    (swaps evs <= 1)%nat /\
    (forall i o a b, In (EvHttpGet i o a b) evs ->
       i = token_mint /\ o = SOL_MINT /\ a = amount /\ b = 2000) /\
    (forall quote wallet, In (EvSwap quote wallet) evs ->
       wallet = public_key wallet_kp /\ quoted env (tick w) (tick w') quote) /\
    (tx_sell <> None -> swaps evs = 1%nat).
Proof.
  rewrite sell_token_jupiter_unfold. cbv zeta.
  set (w0 := after (mark (EvSell token_mint amount)) w).
  unfold jupiter_get_quote.
  match goal with |- context [quote_loop env ?p ?k ?n w0] =>
    set (q := p);
    destruct (quote_loop_result env q k n w0 ltac:(now vm_compute))
      as (quote & w1 & qevs & Hq & Ht & Hev & Hr & Htick & Hd) end.
  rewrite Hq. change (Z.to_nat 5) with 5%nat in Hr.
  change (trace w0) with (trace w ++ [EvSell token_mint amount]) in Ht.
  change (tick w0) with (tick w) in Htick, Hd.
  destruct (truthy quote) eqn:Htruthy; cbn [negb].
  - exists (env_swap env (tick w1)),
           (after (jupiter_swap env wallet_kp quote (public_key wallet_kp)) w1),
           (qevs ++ [EvSwap quote (public_key wallet_kp)]).
    destruct (quote_then_swap_shape env q (public_key wallet_kp) w0 quote w1 qevs
                [EvSwap quote (public_key wallet_kp)] Hev Hr)
      as (H1 & H2 & H3 & H4).
    { right. split; [reflexivity|]. now apply quoted_of_truthy. }
    split; [reflexivity|]. split.
    { unfold after, jupiter_swap, bind, await, ret. cbn [snd trace].
      rewrite Ht, <- !app_assoc. reflexivity. }
    split; [assumption|]. split; [assumption|]. split; [exact H3|]. split.
    + intros quote' wallet Hin. destruct (H4 _ _ Hin) as [-> Hquoted]. split; [reflexivity|].
      eapply quoted_widen; [| |exact Hquoted];
        [reflexivity | unfold after, jupiter_swap, bind, await, ret; simpl; lia].
    + intros _. rewrite swaps_app, (quote_event_no_swap q) by assumption. reflexivity.
  - exists None, w1, qevs.
    destruct (quote_then_swap_shape env q (public_key wallet_kp) w0 quote w1 qevs
                [] Hev Hr) as (H1 & H2 & H3 & H4); [now left|].
    rewrite app_nil_r in H1, H2, H3, H4.
    split; [reflexivity|]. split; [rewrite Ht, <- app_assoc; reflexivity|].
    split; [assumption|]. split; [assumption|]. split; [exact H3|].
    split; [exact H4 | intros H; now destruct H].
Qed.

(** X4. After its entry, [buy_token_jupiter] issues at most 5 quote
    requests, all for SOL against the token, at 2000 basis points, for the
    converted amount, which is never below the dust floor of 100,000
    lamports; it submits at most one swap, for the wallet of the key pair
    and with a quote received during the call. *)
Theorem buy_token_jupiter_effects (env : Env) (wallet_kp : Keypair)
    (token_address : string) (amount_sol : float) (w : World) :
  exists evs,
    trace (after (buy_token_jupiter env wallet_kp token_address amount_sol) w)
      = trace w ++ EvBuy token_address amount_sol :: evs /\
    (requests evs <= 5)%nat /\
    (swaps evs <= 1)%nat /\
    (forall i o a b, In (EvHttpGet i o a b) evs ->
       i = SOL_MINT /\ o = token_address /\ to_lamports amount_sol = Ok a /\
       100000 <= a /\ b = 2000) /\
    (forall quote wallet, In (EvSwap quote wallet) evs ->
       wallet = public_key wallet_kp /\
       quoted env (tick w)
         (tick (after (buy_token_jupiter env wallet_kp token_address amount_sol) w)) quote).
Proof.
  unfold after at 1 2. rewrite buy_token_jupiter_unfold. cbv zeta.
  set (w0 := after (mark (EvBuy token_address amount_sol)) w).
  assert (Hnone : exists evs : list event,
             trace w0 = trace w ++ EvBuy token_address amount_sol :: evs /\
             (requests evs <= 5)%nat /\ (swaps evs <= 1)%nat /\
             (forall i o a b, In (EvHttpGet i o a b) evs ->
                i = SOL_MINT /\ o = token_address /\ to_lamports amount_sol = Ok a /\
                100000 <= a /\ b = 2000) /\
             (forall quote wallet, In (EvSwap quote wallet) evs ->
                wallet = public_key wallet_kp /\ quoted env (tick w) (tick w0) quote)).
  { exists []. split; [reflexivity|]. unfold requests, swaps. simpl.
    split; [lia|]. split; [lia|]. split; intros; contradiction. }
  destruct (to_lamports amount_sol) as [lamports|e] eqn:Hl; [|exact Hnone].
  destruct (Z.ltb_spec lamports 100000) as [Hlt|Hge]; [exact Hnone|]. clear Hnone.
  unfold jupiter_get_quote.
  match goal with |- context [quote_loop env ?p ?k ?n w0] =>
    set (q := p);
    destruct (quote_loop_result env q k n w0 ltac:(now vm_compute))
      as (quote & w1 & qevs & Hq & Ht & Hev & Hr & Htick & Hd) end.
  rewrite Hq. change (Z.to_nat 5) with 5%nat in Hr.
  assert (Hw1 : trace w1 = trace w0 ++ qevs) by exact Ht.
  change (trace w0) with (trace w ++ [EvBuy token_address amount_sol]) in Ht.
  assert (Hfinish : forall w2 tail,
             trace w2 = trace w1 ++ tail ->
             (tick w1 <= tick w2)%nat ->
             (tail = [] \/
              tail = [EvSwap quote (public_key wallet_kp)] /\
              quoted env (tick w0) (tick w1) quote) ->
             exists evs0,
               trace w2 = trace w ++ EvBuy token_address amount_sol :: evs0 /\
               (requests evs0 <= 5)%nat /\ (swaps evs0 <= 1)%nat /\
               (forall i o a b, In (EvHttpGet i o a b) evs0 ->
                  i = SOL_MINT /\ o = token_address /\ Ok lamports = Ok a /\
                  100000 <= a /\ b = 2000) /\
               (forall quote0 wallet, In (EvSwap quote0 wallet) evs0 ->
                  wallet = public_key wallet_kp /\ quoted env (tick w) (tick w2) quote0)).
  { intros w2 tail Hw2 Htick2 Htail.
    destruct (quote_then_swap_shape env q (public_key wallet_kp) w0 quote w1 qevs tail
                Hev Hr Htail) as (H1 & H2 & H3 & H4).
    exists (qevs ++ tail). split.
    { rewrite Hw2, Ht, <- !app_assoc. reflexivity. }
    split; [assumption|]. split; [assumption|]. split.
    - intros i o a b Hin. destruct (H3 _ _ _ _ Hin) as (-> & -> & -> & ->).
      now repeat split.
    - intros quote0 wallet Hin. destruct (H4 _ _ Hin) as [-> Hquoted].
      split; [reflexivity|]. eapply quoted_widen; [| |exact Hquoted];
        [reflexivity | assumption]. }
  destruct (truthy quote) eqn:Htruthy; cbn [negb].
  - destruct (Py.get quote "outAmount") as [v|e].
    + assert (Hswap : exists evs0,
                 trace (after (jupiter_swap env wallet_kp quote (public_key wallet_kp)) w1)
                 = trace w ++ EvBuy token_address amount_sol :: evs0 /\
                 (requests evs0 <= 5)%nat /\ (swaps evs0 <= 1)%nat /\
                 (forall i o a b, In (EvHttpGet i o a b) evs0 ->
                    i = SOL_MINT /\ o = token_address /\ Ok lamports = Ok a /\
                    100000 <= a /\ b = 2000) /\
                 (forall quote0 wallet, In (EvSwap quote0 wallet) evs0 ->
                    wallet = public_key wallet_kp /\
                    quoted env (tick w)
                      (tick (after (jupiter_swap env wallet_kp quote
                                                 (public_key wallet_kp)) w1)) quote0)).
      { apply (Hfinish _ [EvSwap quote (public_key wallet_kp)]).
        - reflexivity.
        - unfold after, jupiter_swap, bind, await, ret. simpl. lia.
        - right. split; [reflexivity|]. now apply quoted_of_truthy. }
      destruct (env_swap env (tick w1)) as [s|]; [destruct (sig_truthy (Some s))|];
        exact Hswap.
    + apply (Hfinish w1 []); [now rewrite app_nil_r | lia | now left].
  - apply (Hfinish w1 []); [now rewrite app_nil_r | lia | now left].
Qed.

(** X5. When [buy_token_jupiter] returns a signature and an amount, the
    signature is a non-empty one that the swap gave during the call, the
    quote is a dict received during the call with status 200, the amount
    bought is at least the dust floor, and the amount returned is the
    integer value of the quote's [outAmount], or 0 when there is none. *)
Theorem buy_token_jupiter_success (env : Env) (wallet_kp : Keypair)
    (token_address : string) (amount_sol : float) (w : World)
    (tx_sig : string) (out_amount : Z) (w' : World) :
  buy_token_jupiter env wallet_kp token_address amount_sol w
    = (Ok (Some (tx_sig, out_amount)), w') ->
  tx_sig <> ""%string /\
  exists lamports m t,
    to_lamports amount_sol = Ok lamports /\
    100000 <= lamports /\
    quoted env (tick w) (tick w') (JObj m) /\
    (tick w <= t < tick w')%nat /\
    env_swap env t = Some tx_sig /\
    out_amount = match Py.int (default JNull (m !! "outAmount")) with
                 | Ok z => z
                 | Raise _ => 0
                 end.
Proof.
  rewrite buy_token_jupiter_unfold. cbv zeta.
  set (w0 := after (mark (EvBuy token_address amount_sol)) w).
  destruct (to_lamports amount_sol) as [lamports|e]; [|discriminate].
  destruct (Z.ltb_spec lamports 100000) as [Hlt|Hge]; [discriminate|].
  unfold jupiter_get_quote.
  match goal with |- context [quote_loop env ?p ?k ?n w0] =>
    destruct (quote_loop_result env p k n w0 ltac:(now vm_compute))
      as (quote & w1 & qevs & Hq & _ & _ & _ & Htick & Hd) end.
  rewrite Hq. change (tick w0) with (tick w) in Htick, Hd.
  destruct (truthy quote) eqn:Htruthy; cbn [negb]; [|discriminate].
  destruct quote as [| | | | | |m]; cbn [Py.get]; try discriminate.
  destruct (env_swap env (tick w1)) as [s|] eqn:Hswap; [|discriminate].
  unfold sig_truthy. destruct (String.eqb_spec s "") as [Hs|Hs]; cbn [negb];
    [discriminate|].
  intros H. injection H as <- <- <-. split; [exact Hs|].
  exists lamports, m, (tick w1).
  assert (Hw' : tick (after (jupiter_swap env wallet_kp (JObj m) (public_key wallet_kp)) w1)
                = S (tick w1)) by reflexivity.
  split; [reflexivity|]. split; [assumption|]. split.
  { eapply quoted_widen; [| |exact (quoted_of_truthy env _ _ _ Hd Htruthy)];
      [reflexivity | lia]. }
  split; [lia|]. split; [assumption | reflexivity].
Qed.

(** A quote that announces 123 units and a swap that succeeds. *)
Lemma buy_token_jupiter_success_witness :
  exists t, (t < 2)%nat /\ env_swap (smooth settings_1 good_quote) t = Some "sig"%string.
Proof.
  destruct (buy_token_jupiter_success (smooth settings_1 good_quote) wallet_W "T" 0.01
              idle "sig" 123
              {| tick := 2; agent_last_buy := ∅;
                 trace := [EvBuy "T" 0.01; EvHttpGet SOL_MINT "T" 10000000 2000;
                           EvSwap good_quote "W"] |} eq_refl)
    as (_ & lamports & m & t & _ & _ & _ & Ht & Hswap & _).
  exists t. split; [exact (proj2 Ht) | exact Hswap].
Defined.

(* ================================================================== *)
(** * Further properties of the cycle controller *)
(* ================================================================== *)

Section Keeping.

Context (env : Env) (key : string) (Hquiet : untouched env key).

Lemma keeps_ret {A} (a : A) : keeps key (ret a).
Proof. intros w. reflexivity. Qed.

Lemma keeps_lift {A} (r : result A) : keeps key (lift r).
Proof. intros w. reflexivity. Qed.

Lemma keeps_raise {A} (e : exn) : keeps key (@raise A e).
Proof. intros w. reflexivity. Qed.

Lemma keeps_mark ev : keeps key (mark ev).
Proof. intros w. reflexivity. Qed.

Lemma keeps_load k : keeps key (load k).
Proof. intros w. reflexivity. Qed.

Lemma keeps_store_other k v : k <> key -> keeps key (store k v).
Proof. intros Hne w. unfold after, store. cbn [snd agent_last_buy]. now apply lookup_insert_ne. Qed.

Lemma keeps_await ev : keeps key (await env ev).
Proof. intros w. unfold after, await. cbn [snd agent_last_buy]. apply Hquiet. Qed.

Lemma keeps_bind {A B} (m : M A) (k : A -> M B) :
  keeps key m -> (forall a, keeps key (k a)) -> keeps key (bind m k).
Proof.
  intros Hm Hk w. specialize (Hm w). unfold after, bind in *.
  destruct (m w) as [[a|e] w1]; cbn [snd] in *; [|exact Hm].
  rewrite <- Hm. apply (Hk a w1).
Qed.

Lemma keeps_try {A} (m : M A) : keeps key m -> keeps key (try_ m).
Proof.
  intros Hm w. specialize (Hm w). unfold after, try_ in *.
  destruct (m w) as [[a|e] w1]; exact Hm.
Qed.

Lemma keeps_sleep secs : keeps key (sleep env secs).
Proof. apply keeps_bind; [apply keeps_await | intros; apply keeps_ret]. Qed.

Lemma keeps_asyncio_sleep secs : keeps key (asyncio_sleep env secs).
Proof.
  unfold asyncio_sleep. destruct (sleep_limit <=? secs); [apply keeps_raise | apply keeps_sleep].
Qed.

Lemma keeps_quote_try p : keeps key (quote_try env p).
Proof.
  unfold quote_try, http_get.
  apply keeps_bind; [apply keeps_bind; [apply keeps_await | intros; apply keeps_ret]|].
  intros [|status hdr [data|]]; try apply keeps_raise.
  destruct (status =? 429).
  - apply keeps_bind; [apply keeps_lift|]. intros d.
    apply keeps_bind; [apply keeps_asyncio_sleep | intros; apply keeps_ret].
  - destruct (negb (status =? 200)); [apply keeps_ret|].
    destruct (negb (truthy data)); [apply keeps_ret|].
    apply keeps_bind; [apply keeps_lift|]. intros b. destruct (negb b); apply keeps_ret.
Qed.

Lemma keeps_quote_loop p k : forall attempt, keeps key (quote_loop env p k attempt).
Proof.
  induction k as [|k IH]; intros attempt; [apply keeps_ret|].
  cbn [quote_loop]. apply keeps_bind; [apply keeps_try, keeps_quote_try|].
  intros [[data|]|e]; [apply keeps_ret | apply IH |].
  apply keeps_bind; [apply keeps_asyncio_sleep | intros; apply IH].
Qed.

Lemma keeps_jupiter_swap kp quote wallet : keeps key (jupiter_swap env kp quote wallet).
Proof. apply keeps_bind; [apply keeps_await | intros; apply keeps_ret]. Qed.

Lemma keeps_buy kp token a : keeps key (buy_token_jupiter env kp token a).
Proof.
  unfold buy_token_jupiter. apply keeps_bind; [apply keeps_mark|]. intros _.
  apply keeps_bind; [apply keeps_lift|]. intros lamports.
  destruct (lamports <? 100000); [apply keeps_ret|].
  apply keeps_bind; [apply keeps_quote_loop|]. intros quote.
  destruct (negb (truthy quote)); [apply keeps_ret|].
  apply keeps_bind; [apply keeps_lift|]. intros v.
  apply keeps_bind; [apply keeps_jupiter_swap|].
  intros [s|]; [destruct (sig_truthy (Some s))|]; apply keeps_ret.
Qed.

Lemma keeps_sell kp token amount : keeps key (sell_token_jupiter env kp token amount).
Proof.
  unfold sell_token_jupiter. apply keeps_bind; [apply keeps_mark|]. intros _.
  apply keeps_bind; [apply keeps_quote_loop|]. intros quote.
  destruct (negb (truthy quote)); [apply keeps_ret|].
  apply keeps_bind; [apply keeps_jupiter_swap | intros; apply keeps_ret].
Qed.

Lemma keeps_cycle_body user_id kp token name :
  (user_id +:+ "_" +:+ name)%string <> key ->
  keeps key (cycle_body env user_id kp token name).
Proof.
  intros Hne. unfold cycle_body, get_agent_settings, get_sol_balance.
  apply keeps_bind; [apply keeps_bind; [apply keeps_await | intros; apply keeps_ret]|].
  intros s. destruct (fixed_buy s <=? 0)%float.
  { apply keeps_bind; [apply keeps_sleep | intros; apply keeps_ret]. }
  apply keeps_bind; [apply keeps_bind; [apply keeps_await | intros; apply keeps_ret]|].
  intros balance. destruct (balance <? fixed_buy s)%float.
  { apply keeps_bind; [apply keeps_sleep | intros; apply keeps_ret]. }
  apply keeps_bind; [apply keeps_buy|].
  intros [[tx_buy out_amount]|];
    [|apply keeps_bind; [apply keeps_sleep | intros; apply keeps_ret]].
  apply keeps_bind; [now apply keeps_store_other|]. intros _.
  apply keeps_bind; [|intros; apply keeps_ret].
  unfold after_buy, resting, selling.
  apply keeps_bind; [|intros; apply keeps_sleep].
  destruct (sell_enabled s); [|apply keeps_ret].
  apply keeps_bind; [apply keeps_sleep|]. intros _.
  apply keeps_bind; [apply keeps_load|]. intros stored.
  destruct (0 <? stored); [|apply keeps_ret].
  apply keeps_bind; [apply keeps_sell|]. intros tx_sell.
  destruct (sig_truthy tx_sell); [now apply keeps_store_other | apply keeps_ret].
Qed.

End Keeping.

(** X6. The controller writes no entry of [agent_last_buy] but its own:
    over any number of turns, an entry under another key that the other
    tasks leave alone is at the end what it was at the start. *)
Theorem run_wallet_cycle_writes_own_entry_only (env : Env) (user_id : string)
    (wallet_kp : Keypair) (token_address name key : string) (turns : nat) (w : World) :
  untouched env key ->
  key <> (user_id +:+ "_" +:+ name)%string ->
  agent_last_buy (after (run_wallet_cycle env turns user_id wallet_kp token_address name) w)
    !! key = agent_last_buy w !! key.
Proof.
  intros Hquiet Hne. revert w.
  induction turns as [|k IH]; intros w; [reflexivity|].
  cbn [run_wallet_cycle].
  apply (keeps_bind key); [intros w0; reflexivity|].
  intros [|]; [|apply keeps_ret].
  apply keeps_bind; [apply keeps_cycle_body; [assumption | congruence] | intros _ w0; apply IH].
Qed.

(** Two turns of agent [A]: the entry of agent [C] is still absent. *)
Lemma run_wallet_cycle_writes_own_entry_only_witness :
  agent_last_buy
    (after (run_wallet_cycle (smooth settings_1 good_quote) 2 "7" wallet_W "T" "A") idle)
    !! "7_C" = None.
Proof.
  rewrite (run_wallet_cycle_writes_own_entry_only (smooth settings_1 good_quote)
             "7" wallet_W "T" "A" "7_C" 2 idle);
    [reflexivity | intros t st; reflexivity | discriminate].
Defined.

Section MoreCycle.

Context (env : Env) (user_id : string) (wallet_kp : Keypair)
        (token_address name : string).

Local Abbreviation key := (user_id +:+ "_" +:+ name)%string.

(** The five ways through a turn of the loop. *)
Lemma cycle_body_shape w r w' :
  let s := env_settings env (tick w) user_id name in
  let w1 := after (get_agent_settings env user_id name) w in
  let w2 := after (get_sol_balance env (public_key wallet_kp)) w1 in
  cycle_body env user_id wallet_kp token_address name w = (r, w') ->
  (r = Ok NoBuyAmount /\ (fixed_buy s <=? 0)%float = true /\
   w' = after (sleep env 5) w1) \/
  (r = Ok NoFunds /\ (fixed_buy s <=? 0)%float = false /\
   (env_balance env (S (tick w)) (public_key wallet_kp) <? fixed_buy s)%float = true /\
   w' = after (sleep env 5) w2) \/
  (exists w3, r = Ok BuyFailed /\
     buy_token_jupiter env wallet_kp token_address (fixed_buy s) w2 = (Ok None, w3) /\
     w' = after (sleep env 1) w3) \/
  (exists tx_buy out_amount w3, r = Ok Rested /\
     buy_token_jupiter env wallet_kp token_address (fixed_buy s) w2
       = (Ok (Some (tx_buy, out_amount)), w3) /\
     after_buy env s wallet_kp token_address key (after (store key out_amount) w3)
       = (Ok tt, w')) \/
  (exists e, r = Raise e /\
     buy_token_jupiter env wallet_kp token_address (fixed_buy s) w2 = (Raise e, w')).
Proof.
  intros s w1 w2. rewrite cycle_body_unfold. cbv zeta. fold s w1 w2.
  change (tick w1) with (S (tick w)).
  destruct (fixed_buy s <=? 0)%float.
  { intros H. injection H as <- <-. now left. }
  destruct (env_balance env _ _ <? fixed_buy s)%float.
  { intros H. injection H as <- <-. right. left. now repeat split. }
  destruct (buy_token_jupiter env wallet_kp token_address (fixed_buy s) w2)
    as [[[[tx_buy out_amount]|]|e] w3].
  - destruct (after_buy_trace env wallet_kp token_address s key
                (after (store key out_amount) w3)) as (w4 & evs & Ha & _).
    rewrite Ha. intros H. injection H as <- <-.
    right. right. right. left. now exists tx_buy, out_amount, w3.
  - intros H. injection H as <- <-. right. right. left. now exists w3.
  - intros H. injection H as <- <-. right. right. right. right. now exists e.
Qed.

End MoreCycle.

(** X7. In the sell step, when the stored amount is positive and the other
    tasks leave the entry alone: a sell that returns a signature resets the
    entry to 0, and a sell that returns none leaves the stored amount in
    place. *)
Theorem selling_settles_entry (env : Env) (wallet_kp : Keypair)
    (token_address agent_key : string) (w : World) (stored : Z)
    (tx_sell : option string) (w1 : World) :
  untouched env agent_key ->
  agent_last_buy w !! agent_key = Some stored ->
  0 < stored ->
  sell_token_jupiter env wallet_kp token_address stored w = (Ok tx_sell, w1) ->
  exists w',
    selling env wallet_kp token_address agent_key w = (Ok tt, w') /\
    trace w' = trace w1 /\
    agent_last_buy w' !! agent_key = Some (if sig_truthy tx_sell then 0 else stored).
Proof.
  intros Hquiet Hst Hpos Hsell.
  rewrite selling_unfold. cbv zeta. rewrite Hst. cbn [from_option id].
  destruct (Z.ltb_spec 0 stored); [|lia].
  rewrite Hsell.
  pose proof (keeps_sell env agent_key Hquiet wallet_kp token_address stored w) as Hk.
  unfold after in Hk. rewrite Hsell in Hk. cbn [snd] in Hk.
  destruct (sig_truthy tx_sell).
  - eexists. split; [reflexivity|]. split; [reflexivity|].
    unfold after, store. cbn [snd agent_last_buy]. apply lookup_insert_eq.
  - exists w1. split; [reflexivity|]. split; [reflexivity|]. now rewrite Hk.
Qed.

(** 123 units are stored and the swap of the sell fails: they stay. *)
Lemma selling_settles_entry_witness :
  exists w',
    selling (failing_swap settings_1 good_quote) wallet_W "T" "7_A"
            {| tick := 0; agent_last_buy := {["7_A" := 123]}; trace := [] |}
      = (Ok tt, w') /\
    agent_last_buy w' !! "7_A" = Some 123.
Proof.
  destruct (selling_settles_entry (failing_swap settings_1 good_quote) wallet_W "T" "7_A"
              {| tick := 0; agent_last_buy := {["7_A" := 123]}; trace := [] |}
              123 None
              {| tick := 2; agent_last_buy := {["7_A" := 123]};
                 trace := [EvSell "T" 123; EvHttpGet "T" SOL_MINT 123 2000;
                           EvSwap good_quote "W"] |})
    as (w' & Hrun & _ & Hst);
    [intros t st; reflexivity | reflexivity | lia | reflexivity |].
  exists w'. split; [exact Hrun | exact Hst].
Defined.

(** X8. With [sell_enabled] off, a turn of the loop never enters
    [sell_token_jupiter] and does not hold: after a successful buy it only
    rests, and the amount bought stays under the agent's key (unless
    another task writes that entry). *)
Theorem disabled_sell_keeps_position (env : Env) (user_id : string)
    (wallet_kp : Keypair) (token_address name : string) (w : World)
    (r : result iteration_end) (w' : World) :
  let key := (user_id +:+ "_" +:+ name)%string in
  let s := env_settings env (tick w) user_id name in
  sell_enabled s = false ->
  cycle_body env user_id wallet_kp token_address name w = (r, w') ->
  (exists evs, trace w' = trace w ++ evs /\
               forall tok amt, ~ In (EvSell tok amt) evs) /\
  (r = Ok Rested ->
   exists tx_buy out_amount w2 w3,
     buy_token_jupiter env wallet_kp token_address (fixed_buy s) w2
       = (Ok (Some (tx_buy, out_amount)), w3) /\
     trace w' = trace w3 ++ [EvSleep (Z.max (fixed_rest_delay s) 1)] /\
     (untouched env key -> agent_last_buy w' !! key = Some out_amount)).
Proof.
  intros key s Hoff H.
  set (w2 := after (get_sol_balance env (public_key wallet_kp))
                   (after (get_agent_settings env user_id name) w)).
  assert (H2 : trace w2 = trace w ++ [EvGetSettings user_id name;
                                      EvGetBalance (public_key wallet_kp)]).
  { unfold w2, after, get_sol_balance, get_agent_settings, bind, await, ret.
    cbn [snd trace]. now rewrite <- app_assoc. }
  destruct (buy_token_jupiter_trace env wallet_kp token_address (fixed_buy s) w2)
    as (evsb & Hb & Hnb).
  unfold after in Hb.
  destruct (cycle_body_shape env user_id wallet_kp token_address name w r w' H)
    as [(-> & _ & ->) | [(-> & _ & _ & ->) | [(w3 & -> & Hbuy & ->)
       | [(tx_buy & out_amount & w3 & -> & Hbuy & Ha) | (e & -> & Hbuy)]]]];
    fold s in Hbuy || idtac; fold w2 in Hbuy || idtac.
  - split; [|discriminate].
    exists [EvGetSettings user_id name; EvSleep 5]. split.
    + unfold after, sleep, get_agent_settings, bind, await, ret. cbn [snd trace].
      now rewrite <- app_assoc.
    + intros tok amt [Heq | [Heq | []]]; discriminate.
  - split; [|discriminate]. fold w2.
    exists [EvGetSettings user_id name; EvGetBalance (public_key wallet_kp); EvSleep 5].
    split.
    + unfold after at 1, sleep, bind, await, ret. cbn [snd trace].
      rewrite H2, <- app_assoc. reflexivity.
    + intros tok amt [Heq | [Heq | [Heq | []]]]; discriminate.
  - split; [|discriminate]. rewrite Hbuy in Hb. cbn [snd] in Hb.
    exists ([EvGetSettings user_id name; EvGetBalance (public_key wallet_kp)]
            ++ EvBuy token_address (fixed_buy s) :: evsb ++ [EvSleep 1]).
    split.
    + unfold after, sleep, bind, await, ret. cbn [snd trace].
      rewrite Hb, H2. repeat rewrite <- app_assoc. reflexivity.
    + intros tok amt Hin.
      apply in_app_or in Hin. destruct Hin as [[Heq | [Heq | []]] | [Heq | Hin]];
        try discriminate.
      apply in_app_or in Hin. destruct Hin as [Hin | [Heq | []]]; [|discriminate].
      now apply net_event_not_sell in Hin.
  - rewrite Hbuy in Hb. cbn [snd] in Hb.
    fold s key in Ha. unfold after_buy in Ha. rewrite Hoff in Ha.
    unfold bind at 1 in Ha. unfold ret at 1 in Ha. rewrite resting_max in Ha.
    injection Ha as <-.
    assert (Ht : trace (after (sleep env (Z.max (fixed_rest_delay s) 1))
                              (after (store key out_amount) w3))
                 = trace w3 ++ [EvSleep (Z.max (fixed_rest_delay s) 1)]) by reflexivity.
    split.
    + exists ([EvGetSettings user_id name; EvGetBalance (public_key wallet_kp)]
              ++ EvBuy token_address (fixed_buy s) :: evsb
              ++ [EvSleep (Z.max (fixed_rest_delay s) 1)]).
      split.
      * rewrite Ht, Hb, H2. repeat rewrite <- app_assoc. reflexivity.
      * intros tok amt Hin.
        apply in_app_or in Hin. destruct Hin as [[Heq | [Heq | []]] | [Heq | Hin]];
          try discriminate.
        apply in_app_or in Hin. destruct Hin as [Hin | [Heq | []]]; [|discriminate].
        now apply net_event_not_sell in Hin.
    + intros _. exists tx_buy, out_amount, w2, w3.
      split; [exact Hbuy|]. split; [exact Ht|].
      intros Hquiet. unfold after, sleep, store, bind, await, ret.
      cbn [snd agent_last_buy]. rewrite Hquiet. apply lookup_insert_eq.
  - split; [|discriminate]. rewrite Hbuy in Hb. cbn [snd] in Hb.
    exists ([EvGetSettings user_id name; EvGetBalance (public_key wallet_kp)]
            ++ EvBuy token_address (fixed_buy s) :: evsb).
    split.
    + rewrite Hb, H2. repeat rewrite <- app_assoc. reflexivity.
    + intros tok amt Hin.
      apply in_app_or in Hin. destruct Hin as [[Heq | [Heq | []]] | [Heq | Hin]];
        try discriminate.
      now apply net_event_not_sell in Hin.
Qed.

(** A turn of an agent that does not sell: 123 units bought and kept. *)
Lemma disabled_sell_keeps_position_witness :
  exists w' evs,
    cycle_body (smooth settings_hold good_quote) "7" wallet_W "T" "A" idle = (Ok Rested, w') /\
    trace w' = trace idle ++ evs /\
    (forall tok amt, ~ In (EvSell tok amt) evs) /\
    agent_last_buy w' !! "7_A" = Some 123.
Proof.
  destruct (cycle_body (smooth settings_hold good_quote) "7" wallet_W "T" "A" idle)
    as [r w'] eqn:H.
  destruct (disabled_sell_keeps_position (smooth settings_hold good_quote) "7" wallet_W
              "T" "A" idle r w' eq_refl H) as ((evs & Ht & Hno) & _).
  vm_compute in H. injection H as <- <-.
  eexists _, evs. split; [reflexivity|]. split; [exact Ht|]. split; [exact Hno|].
  reflexivity.
Defined.

(** X9. As long as the agent has a buy amount and its wallet holds less
    (the turn number [i] reads the settings at the instant [tick w + 3 * i]
    and the balance at the next), a turn reads the settings and the
    balance, sleeps 5 seconds and goes back to the head of the loop: no buy
    is entered, no request is issued and the controller writes nothing to
    [agent_last_buy]. *)
Theorem no_buy_while_underfunded (env : Env) (user_id : string)
    (wallet_kp : Keypair) (token_address name : string) (turns : nat) :
  forall w,
  (forall i, (i < turns)%nat ->
     let s := env_settings env (tick w + 3 * i) user_id name in
     (fixed_buy s <=? 0)%float = false /\
     (env_balance env (S (tick w + 3 * i)) (public_key wallet_kp) <? fixed_buy s)%float
       = true) ->
  exists r w' j,
    run_wallet_cycle env turns user_id wallet_kp token_address name w = (Ok r, w') /\
    (j <= turns)%nat /\
    trace w' = trace w ++ concat (repeat [EvGetSettings user_id name;
                                          EvGetBalance (public_key wallet_kp);
                                          EvSleep 5] j) /\
    tick w' = (tick w + 3 * j)%nat /\
    agent_last_buy w' = drift env (tick w) (3 * j) (agent_last_buy w) /\
    (r = StillRunning /\ j = turns \/
     r = Stopped /\ default false (active_trading env (tick w') !! user_id) = false).
Proof.
  induction turns as [|k IH]; intros w Hlow.
  - exists StillRunning, w, 0%nat. simpl. rewrite app_nil_r, Nat.add_0_r.
    repeat split; auto.
  - rewrite run_wallet_cycle_unfold.
    destruct (default false (active_trading env (tick w) !! user_id)) eqn:Hact.
    + rewrite cycle_body_unfold. cbv zeta.
      destruct (Hlow 0%nat ltac:(lia)) as [Hfb Hbal].
      rewrite Nat.mul_0_r, Nat.add_0_r in Hfb, Hbal. rewrite Hfb.
      change (tick (after (get_agent_settings env user_id name) w)) with (S (tick w)).
      rewrite Hbal.
      set (w1 := after (sleep env 5)
                   (after (get_sol_balance env (public_key wallet_kp))
                          (after (get_agent_settings env user_id name) w))).
      assert (Htick1 : tick w1 = S (S (S (tick w)))) by reflexivity.
      assert (Hk : forall i, (i < k)%nat ->
                 let s := env_settings env (tick w1 + 3 * i) user_id name in
                 (fixed_buy s <=? 0)%float = false /\
                 (env_balance env (S (tick w1 + 3 * i)) (public_key wallet_kp)
                    <? fixed_buy s)%float = true).
      { intros i Hi. specialize (Hlow (S i) ltac:(lia)).
        replace (tick w1 + 3 * i)%nat with (tick w + 3 * S i)%nat by (rewrite Htick1; lia).
        exact Hlow. }
      destruct (IH w1 Hk) as (r & w' & j & Hrun & Hj & Ht & Htick & Hst & Hend).
      exists r, w', (S j). rewrite Hrun. split; [reflexivity|]. split; [lia|].
      split; [|split; [|split]].
      * rewrite Ht. unfold w1, after, sleep, get_sol_balance, get_agent_settings,
          bind, await, ret. cbn [snd trace repeat concat].
        repeat rewrite <- app_assoc. reflexivity.
      * rewrite Htick, Htick1. lia.
      * rewrite Hst. replace (3 * S j)%nat with (S (S (S (3 * j)))) by lia. reflexivity.
      * destruct Hend as [[-> ->] | [-> Hoff]]; [now left | now right].
    + exists Stopped, w, 0%nat. simpl. rewrite app_nil_r, Nat.add_0_r.
      repeat split; [lia | now right].
Qed.

(** Two turns of an agent that wants 0.01 SOL and holds 0.005. *)
Lemma no_buy_while_underfunded_witness :
  run_wallet_cycle underfunded 2 "7" wallet_W "T" "A" idle =
    (Ok StillRunning,
     {| tick := 6; agent_last_buy := ∅;
        trace := [EvGetSettings "7" "A"; EvGetBalance "W"; EvSleep 5;
                  EvGetSettings "7" "A"; EvGetBalance "W"; EvSleep 5] |}).
Proof.
  destruct (no_buy_while_underfunded underfunded "7" wallet_W "T" "A" 2 idle)
    as (r & w' & j & Hrun & _); [intros i _; split; reflexivity|].
  rewrite Hrun. vm_compute in Hrun. injection Hrun as <- <-. reflexivity.
Defined.

(** A comparison with [nan] is false. *)
Lemma ltb_nan (x : float) : (x <? nan)%float = false.
Proof.
  rewrite ltb_spec. change (Prim2SF nan) with S754_nan.
  unfold SFltb. now destruct (Prim2SF x).
Qed.

(** X10. A buy amount that is not a number ends the controller: when the
    trading flag is on and the settings read at the head of a turn have
    [nan] for [fixed_buy], neither test of the turn stops it, the buy is
    entered, the conversion to lamports raises [ValueError] and the
    exception leaves the loop. *)
Theorem run_wallet_cycle_ends_on_nan (env : Env) (user_id : string)
    (wallet_kp : Keypair) (token_address name : string) (turns : nat) (w : World) :
  default false (active_trading env (tick w) !! user_id) = true ->
  fixed_buy (env_settings env (tick w) user_id name) = nan ->
  exists w',
    run_wallet_cycle env (S turns) user_id wallet_kp token_address name w
      = (Raise ValueError, w') /\
    trace w' = trace w ++ [EvGetSettings user_id name;
                           EvGetBalance (public_key wallet_kp);
                           EvBuy token_address nan].
Proof.
  intros Hact Hnan.
  rewrite run_wallet_cycle_unfold, Hact, cycle_body_unfold. cbv zeta.
  rewrite Hnan. change (nan <=? 0)%float with false. cbv iota.
  rewrite ltb_nan, buy_token_jupiter_unfold. cbv zeta.
  change (to_lamports nan) with (@Raise Z ValueError). cbv iota.
  eexists. split; [reflexivity|].
  unfold after, mark, get_sol_balance, get_agent_settings, bind, await, ret.
  cbn [snd trace]. repeat rewrite <- app_assoc. reflexivity.
Qed.

Lemma run_wallet_cycle_ends_on_nan_witness :
  fst (run_wallet_cycle (smooth settings_nan good_quote) 3 "7" wallet_W "T" "A" idle)
    = Raise ValueError.
Proof.
  destruct (run_wallet_cycle_ends_on_nan (smooth settings_nan good_quote) "7" wallet_W
              "T" "A" 2 idle eq_refl eq_refl) as (w' & Hrun & _).
  now rewrite Hrun.
Defined.

(** X11. The loop never turns without a pause: a turn that does not raise
    ends on a sleep, of 5 seconds when the buy amount or the funds are
    missing, of 1 second when the buy failed, of [max(fixed_rest_delay, 1)]
    seconds after a buy, hence of at least one second. *)
Theorem cycle_body_ends_on_sleep (env : Env) (user_id : string)
    (wallet_kp : Keypair) (token_address name : string) (w : World)
    (r : iteration_end) (w' : World) :
  let s := env_settings env (tick w) user_id name in
  cycle_body env user_id wallet_kp token_address name w = (Ok r, w') ->
  exists evs secs,
    trace w' = trace w ++ evs ++ [EvSleep secs] /\
    1 <= secs /\
    secs = match r with
           | NoBuyAmount => 5
           | NoFunds => 5
           | BuyFailed => 1
           | Rested => Z.max (fixed_rest_delay s) 1
           end.
Proof.
  intros s H.
  set (w2 := after (get_sol_balance env (public_key wallet_kp))
                   (after (get_agent_settings env user_id name) w)).
  assert (H2 : trace w2 = trace w ++ [EvGetSettings user_id name;
                                      EvGetBalance (public_key wallet_kp)]).
  { unfold w2, after, get_sol_balance, get_agent_settings, bind, await, ret.
    cbn [snd trace]. now rewrite <- app_assoc. }
  destruct (buy_token_jupiter_trace env wallet_kp token_address (fixed_buy s) w2)
    as (evsb & Hb & _).
  unfold after in Hb.
  destruct (cycle_body_shape env user_id wallet_kp token_address name w (Ok r) w' H)
    as [(Hr & _ & ->) | [(Hr & _ & _ & ->) | [(w3 & Hr & Hbuy & ->)
       | [(tx_buy & out_amount & w3 & Hr & Hbuy & Ha) | (e & Hr & _)]]]];
    try discriminate Hr; injection Hr as ->.
  - exists [EvGetSettings user_id name], 5. split; [|split; [lia | reflexivity]].
    unfold after, sleep, get_agent_settings, bind, await, ret. cbn [snd trace].
    now rewrite <- app_assoc.
  - exists [EvGetSettings user_id name; EvGetBalance (public_key wallet_kp)], 5.
    split; [|split; [lia | reflexivity]]. fold w2.
    unfold after at 1, sleep, bind, await, ret. cbn [snd trace].
    rewrite H2, <- app_assoc. reflexivity.
  - fold s w2 in Hbuy. rewrite Hbuy in Hb. cbn [snd] in Hb.
    exists ([EvGetSettings user_id name; EvGetBalance (public_key wallet_kp)]
            ++ EvBuy token_address (fixed_buy s) :: evsb), 1.
    split; [|split; [lia | reflexivity]].
    unfold after, sleep, bind, await, ret. cbn [snd trace].
    rewrite Hb, H2. repeat rewrite <- app_assoc. reflexivity.
  - fold s w2 in Hbuy. rewrite Hbuy in Hb. cbn [snd] in Hb.
    match type of Ha with after_buy env ?s0 ?kp ?t ?k ?w0 = _ =>
      destruct (after_buy_trace env kp t s0 k w0) as (w4 & evsa & Ha' & Hta & _) end.
    rewrite Ha in Ha'. injection Ha' as <-.
    exists ([EvGetSettings user_id name; EvGetBalance (public_key wallet_kp)]
            ++ EvBuy token_address (fixed_buy s) :: evsb ++ evsa),
           (Z.max (fixed_rest_delay s) 1).
    split; [|split; [lia | reflexivity]].
    rewrite Hta. cbn [after store snd trace]. rewrite Hb, H2.
    repeat rewrite <- app_assoc. simpl. now repeat rewrite <- app_assoc.
Qed.

(** A turn whose swap fails ends on the sleep of one second. *)
Lemma cycle_body_ends_on_sleep_witness :
  exists w' evs,
    cycle_body (failing_swap settings_1 good_quote) "7" wallet_W "T" "A" idle
      = (Ok BuyFailed, w') /\
    trace w' = evs ++ [EvSleep 1].
Proof.
  destruct (cycle_body (failing_swap settings_1 good_quote) "7" wallet_W "T" "A" idle)
    as [r w'] eqn:H.
  assert (Hr : r = Ok BuyFailed) by (vm_compute in H; now injection H as <- _).
  subst r.
  destruct (cycle_body_ends_on_sleep _ _ _ _ _ _ _ _ H) as (evs & secs & Ht & _ & ->).
  exists w', evs. split; [reflexivity | exact Ht].
Defined.

(* ================================================================== *)
(** * Further properties of the fund transfers *)
(* ================================================================== *)

Section MoreFunds.

Context (env : Env).

Lemma sends_app evs1 evs2 : sends (evs1 ++ evs2) = (sends evs1 + sends evs2)%nat.
Proof. unfold sends. now rewrite List.filter_app, length_app. Qed.

(** One turn of the loop of the sweep: at most one transfer, to the root,
    from the agent; its line is about the agent. *)
Lemma collect_one_shape root_key agent w :
  exists evs,
    trace (snd (collect_one env root_key agent w)) = trace w ++ evs /\
    (sends evs <= 1)%nat /\
    (forall from to lamports, In (EvSend from to lamports) evs ->
       to = public_key root_key /\
       exists agent_key, env_from_secret_key env (base58_key agent) = Some agent_key /\
                         from = public_key agent_key) /\
    (forall line, fst (collect_one env root_key agent w) = Ok line ->
       line_name line = Some (agent_name agent)).
Proof.
  rewrite collect_one_unfold.
  destruct (env_from_secret_key env (base58_key agent)) as [agent_key|] eqn:Hkey.
  - cbv zeta. destruct (_ <=? MIN_BALANCE)%float.
    + exists [EvGetBalance (public_key agent_key)]. split; [reflexivity|].
      split; [unfold sends; simpl; lia|]. split.
      * intros from to lamports [Heq | []]. discriminate.
      * intros line H. now injection H as <-.
    + destruct (to_lamports _) as [lamports|e].
      * exists [EvGetBalance (public_key agent_key);
                EvSend (public_key agent_key) (public_key root_key) lamports].
        split.
        { unfold after, send_transaction, get_sol_balance, bind, await, ret.
          cbn [snd trace]. now rewrite <- app_assoc. }
        split; [unfold sends; simpl; lia|]. split.
        -- intros from to l [Heq | [Heq | []]]; [discriminate|].
           injection Heq as <- <- <-. split; [reflexivity | now exists agent_key].
        -- intros line H. injection H as <-. now destruct (env_send env _).
      * exists [EvGetBalance (public_key agent_key)]. split; [reflexivity|].
        split; [unfold sends; simpl; lia|]. split.
        -- intros from to lamports [Heq | []]. discriminate.
        -- intros line H. discriminate H.
  - exists []. split; [now rewrite app_nil_r|].
    split; [unfold sends; simpl; lia|]. split.
    + intros from to lamports [].
    + intros line H. now injection H as <-.
Qed.

Lemma collect_loop_step root_key agent rest results w :
  collect_loop env root_key (agent :: rest) results w =
    match collect_one env root_key agent w with
    | (Ok line, w1) => collect_loop env root_key rest (results ++ [line]) w1
    | (Raise e, w1) => (Raise e, w1)
    end.
Proof.
  cbn [collect_loop]. unfold bind at 1.
  now destruct (collect_one env root_key agent w) as [[line|e] w1].
Qed.

Lemma collect_loop_shape root_key agents : forall results w,
  exists evs,
    trace (snd (collect_loop env root_key agents results w)) = trace w ++ evs /\
    (sends evs <= length agents)%nat /\
    (forall from to lamports, In (EvSend from to lamports) evs ->
       to = public_key root_key /\
       exists agent agent_key,
         In agent agents /\
         env_from_secret_key env (base58_key agent) = Some agent_key /\
         from = public_key agent_key) /\
    (forall lines, fst (collect_loop env root_key agents results w) = Ok lines ->
       exists new, lines = results ++ new /\
                   map line_name new = map (fun agent => Some (agent_name agent)) agents).
Proof.
  induction agents as [|agent rest IH]; intros results w.
  - exists []. simpl. rewrite app_nil_r. split; [reflexivity|].
    split; [unfold sends; simpl; lia|]. split; [intros ? ? ? []|].
    intros lines H. injection H as <-. exists []. now rewrite app_nil_r.
  - rewrite collect_loop_step.
    destruct (collect_one_shape root_key agent w) as (evs1 & Ht1 & Hs1 & Hto1 & Hline1).
    destruct (collect_one env root_key agent w) as [[line|e] w1]; cbn [snd fst] in *.
    + destruct (IH (results ++ [line]) w1) as (evs2 & Ht2 & Hs2 & Hto2 & Hlines2).
      exists (evs1 ++ evs2). split; [rewrite Ht2, Ht1; now rewrite app_assoc|].
      split; [rewrite sends_app; simpl; lia|]. split.
      * intros from to lamports Hin. apply in_app_or in Hin. destruct Hin as [Hin | Hin].
        -- destruct (Hto1 _ _ _ Hin) as (-> & agent_key & Hkey & ->).
           split; [reflexivity|]. exists agent, agent_key.
           split; [now left|]. now split.
        -- destruct (Hto2 _ _ _ Hin) as (-> & agent' & agent_key & Hin' & Hkey & ->).
           split; [reflexivity|]. exists agent', agent_key.
           split; [now right|]. now split.
      * intros lines H. destruct (Hlines2 lines H) as (new & -> & Hnames).
        exists (line :: new). rewrite <- app_assoc. split; [reflexivity|].
        cbn [map]. now rewrite (Hline1 line eq_refl), Hnames.
    + exists evs1. split; [assumption|]. split; [simpl; lia|]. split.
      * intros from to lamports Hin.
        destruct (Hto1 _ _ _ Hin) as (-> & agent_key & Hkey & ->).
        split; [reflexivity|]. exists agent, agent_key.
           split; [now left|]. now split.
      * intros lines H. discriminate H.
Qed.

(** The transfers of one turn of the sweep: none, or one from the agent. *)
Lemma collect_one_sends root_key agent w :
  exists evs,
    trace (snd (collect_one env root_key agent w)) = trace w ++ evs /\
    (List.filter is_send evs = [] \/
     exists ev, List.filter is_send evs = [ev] /\ sweeps env root_key ev agent).
Proof.
  rewrite collect_one_unfold.
  destruct (env_from_secret_key env (base58_key agent)) as [agent_key|] eqn:Hkey.
  - cbv zeta. destruct (_ <=? MIN_BALANCE)%float.
    + exists [EvGetBalance (public_key agent_key)]. split; [reflexivity | now left].
    + destruct (to_lamports _) as [lamports|e].
      * exists [EvGetBalance (public_key agent_key);
                EvSend (public_key agent_key) (public_key root_key) lamports].
        split.
        { unfold after, send_transaction, get_sol_balance, bind, await, ret.
          cbn [snd trace]. now rewrite <- app_assoc. }
        right. eexists. split; [reflexivity|]. now exists agent_key, lamports.
      * exists [EvGetBalance (public_key agent_key)]. split; [reflexivity | now left].
  - exists []. split; [now rewrite app_nil_r | now left].
Qed.

(** The transfers of the sweep, in their order, come from agents taken in
    the order of the loop, each agent giving at most one. *)
Lemma collect_loop_sends root_key agents : forall results w,
  exists evs served,
    trace (snd (collect_loop env root_key agents results w)) = trace w ++ evs /\
    sublist served agents /\
    Forall2 (sweeps env root_key) (List.filter is_send evs) served.
Proof.
  induction agents as [|agent rest IH]; intros results w.
  - exists [], []. simpl. rewrite app_nil_r. split; [reflexivity|].
    split; constructor.
  - rewrite collect_loop_step.
    destruct (collect_one_sends root_key agent w) as (evs1 & Ht1 & Hs1).
    destruct (collect_one env root_key agent w) as [[line|e] w1]; cbn [snd] in *.
    + destruct (IH (results ++ [line]) w1) as (evs2 & served & Ht2 & Hsub & Hall).
      destruct Hs1 as [Hnone | (ev & Hone & Hev)].
      * exists (evs1 ++ evs2), served.
        split; [rewrite Ht2, Ht1; now rewrite app_assoc|].
        split; [now apply sublist_cons|].
        now rewrite List.filter_app, Hnone.
      * exists (evs1 ++ evs2), (agent :: served).
        split; [rewrite Ht2, Ht1; now rewrite app_assoc|].
        split; [now apply sublist_skip|].
        rewrite List.filter_app, Hone. now constructor.
    + destruct Hs1 as [Hnone | (ev & Hone & Hev)].
      * exists evs1, []. split; [assumption|]. split; [apply sublist_nil_l|].
        rewrite Hnone. constructor.
      * exists evs1, [agent]. split; [assumption|].
        split; [apply sublist_skip, sublist_nil_l|].
        rewrite Hone. repeat constructor. exact Hev.
Qed.

End MoreFunds.

(** X12. Whatever the sweep submits goes to the root, and no agent is
    swept twice: the transfers of [collect_agents_to_root], in their order,
    match one for one a selection of the user's agent wallets in the order
    of the wallets, each transfer going from the public key of its agent
    to the public key of the root wallet. *)
Theorem collect_agents_to_root_sends_to_root (env : Env) (user_id : string) (w : World) :
  let wallets := env_wallets env (tick w) user_id in
  exists evs served,
    trace (after (collect_agents_to_root env user_id) w)
      = trace w ++ EvGetWallets user_id :: evs /\
    sublist served (agents_of wallets) /\
    Forall2 (fun ev agent =>
               exists root lamports,
                 root_of wallets = Some root /\
                 env_from_secret_key env (base58_key root) <> None /\
                 env_from_secret_key env (base58_key agent) <> None /\
                 ev = EvSend (wallet_pubkey env agent) (wallet_pubkey env root) lamports)
            (List.filter is_send evs) served.
Proof.
  intros wallets. unfold after, collect_agents_to_root, get_user_wallets.
  unfold bind at 1. unfold bind at 1. unfold await at 1, ret at 1. cbn [snd fst tick].
  fold wallets. fold (root_of wallets) (agents_of wallets).
  set (w1 := {| tick := S (tick w);
                agent_last_buy := env_others env (tick w) (agent_last_buy w);
                trace := trace w ++ [EvGetWallets user_id] |}).
  set (P := fun (ev : event) (agent : Wallet) =>
              exists root lamports,
                root_of wallets = Some root /\
                env_from_secret_key env (base58_key root) <> None /\
                env_from_secret_key env (base58_key agent) <> None /\
                ev = EvSend (wallet_pubkey env agent) (wallet_pubkey env root) lamports).
  assert (Hnone : exists (evs : list event) (served : list Wallet),
             trace w1 = trace w ++ EvGetWallets user_id :: evs /\
             sublist served (agents_of wallets) /\
             Forall2 P (List.filter is_send evs) served).
  { exists [], []. split; [reflexivity|]. split; [apply sublist_nil_l | constructor]. }
  destruct (root_of wallets) as [root|] eqn:Hroot; [|exact Hnone].
  destruct (agents_of wallets) as [|agent0 rest] eqn:Hagents; [exact Hnone|].
  unfold decode_keypair.
  destruct (env_from_secret_key env (base58_key root)) as [root_key|] eqn:Hrk;
    [|exact Hnone].
  destruct (collect_loop_sends env root_key (agent0 :: rest) [] w1)
    as (evs & served & Ht & Hsub & Hall).
  exists evs, served.
  split; [rewrite Ht; unfold w1; cbn [trace]; now rewrite <- app_assoc|].
  split; [exact Hsub|].
  eapply Forall2_impl; [exact Hall|].
  intros ev agent (agent_key & lamports & Hkey & ->).
  exists root, lamports. unfold wallet_pubkey. rewrite Hrk, Hkey.
  split; [reflexivity|]. split; [discriminate|]. split; [discriminate | reflexivity].
Qed.

(** X13. When the root wallet is there with a key that decodes, and the
    balances are numbers, the sweep returns a report that has one line for
    each agent wallet, in the order of the wallets, whatever goes wrong
    with a key or a transfer on the way. *)
Theorem collect_agents_to_root_reports_every_agent (env : Env) (user_id : string)
    (w : World) (root : Wallet) (root_key : Keypair) :
  let wallets := env_wallets env (tick w) user_id in
  root_of wallets = Some root ->
  env_from_secret_key env (base58_key root) = Some root_key ->
  agents_of wallets <> [] ->
  (forall t pubkey, exists lamports,
      to_lamports (env_balance env t pubkey - MIN_BALANCE)%float = Ok lamports) ->
  exists lines w',
    collect_agents_to_root env user_id w = (Ok lines, w') /\
    map line_name lines = map (fun agent => Some (agent_name agent)) (agents_of wallets).
Proof.
  intros wallets Hroot Hrk Hagents Hfin.
  unfold collect_agents_to_root, get_user_wallets.
  unfold bind at 1. unfold bind at 1. unfold await at 1, ret at 1. cbn [snd fst tick].
  fold wallets. fold (root_of wallets) (agents_of wallets). rewrite Hroot.
  destruct (agents_of wallets) as [|agent0 rest] eqn:Ha; [contradiction|].
  unfold decode_keypair. rewrite Hrk.
  match goal with |- context [collect_loop env root_key ?agents [] ?w1] =>
    destruct (collect_loop_total env root_key agents [] w1 Hfin) as (lines & w' & Hrun);
    destruct (collect_loop_shape env root_key agents [] w1) as (_ & _ & _ & _ & Hlines) end.
  rewrite Hrun in Hlines |- *. exists lines, w'. split; [reflexivity|].
  destruct (Hlines lines eq_refl) as (new & -> & Hnames). exact Hnames.
Qed.

(** The key of agent [B] does not decode: the report still has the three
    agents. *)
Lemma collect_agents_to_root_reports_every_agent_witness :
  exists lines,
    fst (collect_agents_to_root funded "7" idle) = Ok lines /\
    map line_name lines = [Some "A"; Some "B"; Some "C"]%string.
Proof.
  destruct (collect_agents_to_root_reports_every_agent funded "7" idle
              {| is_root := true; is_agent := false; base58_key := key_root;
                 agent_name := "" |}
              {| public_key := "pub:" +:+ key_root |})
    as (lines & w' & Hrun & Hnames);
    [reflexivity | reflexivity | discriminate | intros t pubkey; now eexists |].
  exists lines. rewrite Hrun. split; [reflexivity | exact Hnames].
Defined.

Section MoreLoads.

Context (env : Env).

Lemma load_loop_spec root_key amount lamports agents : forall responses w,
  to_lamports amount = Ok lamports ->
  transfer lamports = Ok tt ->
  Forall (fun agent => env_from_secret_key env (base58_key agent) <> None) agents ->
  exists w',
    load_loop env root_key amount agents responses w
      = (Ok (responses ++ load_lines env (tick w) agents), w') /\
    trace w' = trace w ++ map (fun agent => EvSend (public_key root_key)
                                                   (wallet_pubkey env agent) lamports)
                              agents.
Proof.
  induction agents as [|agent rest IH]; intros responses w Hl Hfit Hkeys.
  - exists w. simpl. now rewrite !app_nil_r.
  - inversion Hkeys as [|? ? Hkey Hrest]; subst.
    cbn [load_loop load_lines map]. unfold bind at 1. unfold load_one, decode_keypair,
      wallet_pubkey.
    destruct (env_from_secret_key env (base58_key agent)) as [agent_key|];
      [|contradiction].
    rewrite Hl. unfold send_transaction, bind, await, ret, lift. cbn [snd fst from_option].
    rewrite Hfit.
    destruct (env_send env (tick w)); cbn [snd fst];
      match goal with |- context [load_loop env root_key amount rest ?rs ?w1] =>
        destruct (IH rs w1 Hl Hfit Hrest) as (w' & Hrun & Ht) end;
      exists w'; rewrite Hrun, Ht; cbn [tick trace]; now rewrite <- !app_assoc.
Qed.

Lemma load_all_agents_unfold user_id amount w :
  let wallets := env_wallets env (tick w) user_id in
  let w1 := after (get_user_wallets env user_id) w in
  load_all_agents env user_id amount w =
    match root_of wallets, agents_of wallets with
    | Some root, _ :: _ =>
        match env_from_secret_key env (base58_key root) with
        | Some root_key => load_loop env root_key amount (agents_of wallets) [] w1
        | None => (Raise ValueError, w1)
        end
    | _, _ => (Ok [Message "Missing root wallet or agent wallets."], w1)
    end.
Proof.
  intros wallets w1. unfold load_all_agents, get_user_wallets.
  unfold bind at 1. unfold bind at 1. unfold await at 1, ret at 1. cbn [snd fst tick].
  fold wallets. fold (root_of wallets) (agents_of wallets).
  destruct (root_of wallets) as [root|]; [|reflexivity].
  destruct (agents_of wallets) as [|agent0 rest]; [reflexivity|].
  unfold decode_keypair, bind, lift.
  now destruct (env_from_secret_key env (base58_key root)).
Qed.

Lemma controllers_of_cons wallet rest :
  controllers_of env (wallet :: rest) =
    match (if is_agent wallet then env_from_secret_key env (base58_key wallet) else None) with
    | Some kp => (kp, agent_name wallet) :: controllers_of env rest
    | None => controllers_of env rest
    end.
Proof.
  unfold controllers_of. cbn [omap list_omap].
  destruct (is_agent wallet); [|reflexivity].
  now destruct (env_from_secret_key env (base58_key wallet)).
Qed.

Lemma spawn_loop_spec wallets : forall spawned w,
  exists w',
    spawn_loop env wallets spawned w = (Ok (spawned ++ controllers_of env wallets), w') /\
    trace w' = trace w ++ repeat (EvSleep 1) (length (controllers_of env wallets)).
Proof.
  induction wallets as [|wallet rest IH]; intros spawned w.
  - exists w. simpl. now rewrite !app_nil_r.
  - cbn [spawn_loop]. rewrite controllers_of_cons. unfold decode_keypair.
    destruct (is_agent wallet); [|apply IH].
    destruct (env_from_secret_key env (base58_key wallet)) as [wallet_kp|]; [|apply IH].
    unfold bind at 1. unfold sleep, bind, await, ret. cbn [snd fst].
    match goal with |- context [spawn_loop env rest ?sp ?w1] =>
      destruct (IH sp w1) as (w' & Hrun & Ht) end.
    exists w'. rewrite Hrun, Ht. cbn [trace length repeat].
    now rewrite <- !app_assoc.
Qed.

End MoreLoads.

(** X14. A root wallet whose key does not decode stops the four fund
    transfers before anything is submitted, each in its way: the sweep
    answers "Error decoding Root Wallet key.", the distribution, the load
    of one agent and the withdrawal raise [ValueError], the withdrawal even
    on an address that it would have refused. All have only read the
    wallets. *)
Theorem undecodable_root_key_stops_transfers (env : Env)
    (parse_address : string -> option string) (user_id : string)
    (agent_wallet : Wallet) (amount : float) (addr : string) (w : World) (root : Wallet) :
  let wallets := env_wallets env (tick w) user_id in
  let w1 := after (get_user_wallets env user_id) w in
  root_of wallets = Some root ->
  env_from_secret_key env (base58_key root) = None ->
  agents_of wallets <> [] ->
  addr <> ""%string ->
  collect_agents_to_root env user_id w
    = (Ok [Message "Error decoding Root Wallet key."], w1) /\
  load_all_agents env user_id amount w = (Raise ValueError, w1) /\
  load_to_agent env user_id agent_wallet amount w = (Raise ValueError, w1) /\
  withdraw_from_root_to env parse_address (Some addr) user_id amount w
    = (Raise ValueError, w1) /\
  trace w1 = trace w ++ [EvGetWallets user_id].
Proof.
  intros wallets w1 Hroot Hrk Hagents Haddr.
  unfold root_of, agents_of in *. subst wallets w1.
  destruct addr as [|c addr]; [contradiction|].
  split; [|split; [|split; [|split]]].
  - unfold collect_agents_to_root, get_user_wallets, after, bind, await, ret,
      decode_keypair.
    cbn [snd fst tick]. rewrite Hroot.
    destruct (filter (fun w0 : Wallet => is_agent w0 = true) _) as [|agent0 rest];
      [contradiction|]. now rewrite Hrk.
  - unfold load_all_agents, get_user_wallets, after, bind, await, ret, lift,
      decode_keypair.
    cbn [snd fst tick]. rewrite Hroot.
    destruct (filter (fun w0 : Wallet => is_agent w0 = true) _) as [|agent0 rest];
      [contradiction|]. now rewrite Hrk.
  - unfold load_to_agent, get_user_wallets, after, bind, await, ret, lift,
      decode_keypair.
    cbn [snd fst tick]. rewrite Hroot. now rewrite Hrk.
  - unfold withdraw_from_root_to, get_user_wallets, after, bind, await, ret, lift,
      decode_keypair.
    cbn [snd fst tick]. rewrite Hroot. now rewrite Hrk.
  - reflexivity.
Qed.

Lemma undecodable_root_key_stops_transfers_witness :
  fst (collect_agents_to_root bad_root "7" idle)
    = Ok [Message "Error decoding Root Wallet key."] /\
  fst (load_all_agents bad_root "7" 0.1 idle) = Raise ValueError.
Proof.
  destruct (undecodable_root_key_stops_transfers bad_root scenario_parse_address "7"
              agent_A 0.1 "x" idle
              {| is_root := true; is_agent := false; base58_key := key_B;
                 agent_name := "" |})
    as (Hsweep & Hload & _); [reflexivity | reflexivity | discriminate | discriminate |].
  now rewrite Hsweep, Hload.
Defined.

(** X15. When the root key and the keys of all agents decode and the amount
    converts to lamports that fit the unsigned 64 bits of the transfer
    instruction, the distribution submits one transfer per agent wallet,
    in the order of the wallets, each from the root and of the same number
    of lamports, and returns one line per agent: "Success" when its
    transfer went through, "Failed" when it raised, the other agents being
    served all the same.  When the lamports do not fit (a negative amount,
    or one of 2^64 lamports or more), the instruction for the first agent
    cannot be built: the distribution raises, having read the wallets and
    submitted nothing. *)
Theorem load_all_agents_serves_every_agent (env : Env) (user_id : string)
    (amount : float) (w : World) (root : Wallet) (root_key : Keypair) (lamports : Z) :
  let wallets := env_wallets env (tick w) user_id in
  root_of wallets = Some root ->
  env_from_secret_key env (base58_key root) = Some root_key ->
  agents_of wallets <> [] ->
  Forall (fun agent => env_from_secret_key env (base58_key agent) <> None)
         (agents_of wallets) ->
  to_lamports amount = Ok lamports ->
  (0 <= lamports < 2 ^ 64 ->
   exists w',
     load_all_agents env user_id amount w
       = (Ok (load_lines env (S (tick w)) (agents_of wallets)), w') /\
     trace w' = trace w ++ EvGetWallets user_id
                  :: map (fun agent => EvSend (public_key root_key)
                                              (wallet_pubkey env agent) lamports)
                         (agents_of wallets)) /\
  (lamports < 0 \/ 2 ^ 64 <= lamports ->
   load_all_agents env user_id amount w
     = (Raise FormatFieldError, after (get_user_wallets env user_id) w)).
Proof.
  intros wallets Hroot Hrk Hagents Hkeys Hl.
  rewrite load_all_agents_unfold. cbv zeta. fold wallets. rewrite Hroot, Hrk.
  set (w1 := after (get_user_wallets env user_id) w).
  assert (Ht1 : trace w1 = trace w ++ [EvGetWallets user_id]) by reflexivity.
  assert (Htick1 : tick w1 = S (tick w)) by reflexivity.
  destruct (agents_of wallets) as [|agent0 rest] eqn:Ha; [contradiction|].
  split.
  - intros Hfit.
    destruct (load_loop_spec env root_key amount lamports (agent0 :: rest) [] w1 Hl
                (transfer_fits lamports Hfit) Hkeys) as (w' & Hrun & Ht).
    exists w'. rewrite Hrun, Htick1. split; [reflexivity|].
    rewrite Ht, Ht1. now rewrite <- app_assoc.
  - intros Hout. inversion Hkeys as [|? ? Hkey0 _].
    cbn [load_loop]. unfold bind at 1. unfold load_one, decode_keypair.
    destruct (env_from_secret_key env (base58_key agent0)) as [agent_key|];
      [|contradiction].
    unfold bind, lift. rewrite Hl, (transfer_overflows lamports Hout). reflexivity.
Qed.

(** Two agents, the transfer to the first fails: the second is served. *)
Lemma load_all_agents_serves_every_agent_witness :
  exists w',
    load_all_agents second_send_fails "7" 0.1 idle
      = (Ok [LoadSuccess "A"; LoadFailed "C"], w') /\
    sends (trace w') = 2%nat.
Proof.
  destruct (load_all_agents_serves_every_agent second_send_fails "7" 0.1 idle
              {| is_root := true; is_agent := false; base58_key := key_root;
                 agent_name := "" |}
              {| public_key := "pub:" +:+ key_root |} 100000000)
    as (Hserved & _);
    [reflexivity | reflexivity | discriminate | | reflexivity |].
  { repeat constructor; discriminate. }
  destruct Hserved as (w' & Hrun & Ht); [lia|].
  exists w'. rewrite Hrun, Ht. split; reflexivity.
Defined.

(** X16. [load_to_agent] submits at most one transfer, and only from the
    root wallet to the agent wallet given, of the converted amount, which
    fits the unsigned 64 bits of the instruction: on an amount that does
    not, nothing is submitted.  It answers that the amount was sent only
    when that transfer went through, and that there is no root wallet when
    there is none. *)
Theorem load_to_agent_single_attempt (env : Env) (user_id : string)
    (agent_wallet : Wallet) (amount : float) (w : World) :
  let wallets := env_wallets env (tick w) user_id in
  exists evs,
    trace (after (load_to_agent env user_id agent_wallet amount) w)
      = trace w ++ EvGetWallets user_id :: evs /\
    (evs = [] \/
     exists root lamports,
       root_of wallets = Some root /\
       env_from_secret_key env (base58_key root) <> None /\
       env_from_secret_key env (base58_key agent_wallet) <> None /\
       to_lamports amount = Ok lamports /\
       0 <= lamports < 2 ^ 64 /\
       evs = [EvSend (wallet_pubkey env root) (wallet_pubkey env agent_wallet) lamports]) /\
    (forall lamports, to_lamports amount = Ok lamports ->
       lamports < 0 \/ 2 ^ 64 <= lamports ->
       evs = [] /\
       forall a n, fst (load_to_agent env user_id agent_wallet amount w)
                   <> Ok (SentToAgent a n)) /\
    (forall a n, fst (load_to_agent env user_id agent_wallet amount w)
                 = Ok (SentToAgent a n) ->
       a = amount /\ n = agent_name agent_wallet /\ evs <> [] /\
       env_send env (S (tick w)) = true) /\
    (root_of wallets = None ->
     fst (load_to_agent env user_id agent_wallet amount w) = Ok NoRootWallet).
Proof.
  intros wallets. unfold root_of, wallet_pubkey. subst wallets.
  unfold load_to_agent, get_user_wallets, send_transaction, after, bind, await, ret,
    lift, decode_keypair.
  cbn [snd fst tick trace].
  assert (Hnothing : forall r : result transfer_answer,
             (forall a n, r <> Ok (SentToAgent a n)) ->
             (forall l : Z, to_lamports amount = Ok l -> l < 0 \/ 2 ^ 64 <= l ->
                @nil event = [] /\ forall a n, r <> Ok (SentToAgent a n)) /\
             (forall a n, r = Ok (SentToAgent a n) ->
                a = amount /\ n = agent_name agent_wallet /\ @nil event <> [] /\
                env_send env (S (tick w)) = true)).
  { intros r Hr. split; [now split|]. intros a n H. now destruct (Hr a n). }
  destruct (head _) as [root|]; cbn [snd fst tick trace].
  - destruct (env_from_secret_key env (base58_key root)) as [root_key|] eqn:Hrk.
    + destruct (env_from_secret_key env (base58_key agent_wallet)) as [agent_key|] eqn:Hak.
      * destruct (to_lamports amount) as [lamports|e] eqn:Hl; cbn [snd fst tick trace].
        -- destruct (transfer_cases lamports) as [[Hfit Hrange] | [Hfit Hrange]];
             rewrite Hfit; cbn [snd fst tick trace].
           ++ exists [EvSend (public_key root_key) (public_key agent_key) lamports].
              split; [destruct (env_send env (S (tick w))); cbn [snd trace];
                      now rewrite <- app_assoc|].
              split.
              { right. exists root, lamports. rewrite Hrk. cbn [from_option].
                repeat split; try discriminate; lia. }
              split; [intros l Heq Hout; injection Heq as <-; lia|].
              split; [|discriminate].
              intros a n. destruct (env_send env (S (tick w))); cbn [fst]; intros H;
                [|discriminate H].
              injection H as <- <-. repeat split. discriminate.
           ++ exists []. split; [reflexivity|]. split; [now left|].
              destruct (Hnothing (Raise FormatFieldError)) as [H1 H2]; [discriminate|].
              split; [exact H1|]. split; [exact H2 | discriminate].
        -- exists []. split; [reflexivity|]. split; [now left|].
           destruct (Hnothing (Raise e)) as [H1 H2]; [discriminate|].
           split; [intros l Heq; discriminate Heq|]. split; [exact H2 | discriminate].
      * exists []. split; [reflexivity|]. split; [now left|].
        destruct (Hnothing (Raise ValueError)) as [H1 H2]; [discriminate|].
        split; [exact H1|]. split; [exact H2 | discriminate].
    + exists []. split; [reflexivity|]. split; [now left|].
      destruct (Hnothing (Raise ValueError)) as [H1 H2]; [discriminate|].
      split; [exact H1|]. split; [exact H2 | discriminate].
  - exists []. split; [reflexivity|]. split; [now left|].
    destruct (Hnothing (Ok NoRootWallet)) as [H1 H2]; [discriminate|].
    split; [exact H1|]. split; [exact H2 | reflexivity].
Qed.

(** X17. [withdraw_from_root] does nothing at all, not even read the
    wallets, when no withdraw address is set. Otherwise it submits at most
    one transfer, with no retry, and only from the root wallet to the
    address parsed, of the converted amount, which fits the unsigned 64
    bits of the instruction: none when the address does not parse, none
    when the amount does not fit, exactly one when it answers that the
    withdrawal succeeded. *)
Theorem withdraw_from_root_single_attempt (env : Env)
    (parse_address : string -> option string) (withdraw_addr : option string)
    (user_id : string) (amount : float) (w : World) :
  let wallets := env_wallets env (tick w) user_id in
  let run := withdraw_from_root_to env parse_address withdraw_addr user_id amount w in
  (withdraw_addr = None \/ withdraw_addr = Some ""%string ->
   run = (Ok AddressNotSet, w)) /\
  exists evs,
    trace (snd run) = trace w ++ evs /\
    (sends evs <= 1)%nat /\
    (forall from to lamports, In (EvSend from to lamports) evs ->
       exists addr root,
         withdraw_addr = Some addr /\ parse_address addr = Some to /\
         root_of wallets = Some root /\ from = wallet_pubkey env root /\
         env_from_secret_key env (base58_key root) <> None /\
         to_lamports amount = Ok lamports /\
         0 <= lamports < 2 ^ 64) /\
    (fst run = Ok Withdrawn -> sends evs = 1%nat) /\
    (forall addr, withdraw_addr = Some addr -> parse_address addr = None ->
       sends evs = 0%nat) /\
    (forall lamports, to_lamports amount = Ok lamports ->
       lamports < 0 \/ 2 ^ 64 <= lamports ->
       sends evs = 0%nat /\ fst run <> Ok Withdrawn).
Proof.
  intros wallets run. unfold root_of, wallet_pubkey. subst wallets run.
  split.
  { intros [-> | ->]; reflexivity. }
  assert (Hnothing : forall (r : result transfer_answer) (evs : list event),
             r <> Ok Withdrawn -> sends evs = 0%nat ->
             (r = Ok Withdrawn -> sends evs = 1%nat) /\
             (forall addr : string, withdraw_addr = Some addr ->
                parse_address addr = None -> sends evs = 0%nat) /\
             (forall l : Z, to_lamports amount = Ok l -> l < 0 \/ 2 ^ 64 <= l ->
                sends evs = 0%nat /\ r <> Ok Withdrawn)).
  { intros r evs Hr Hs. split; [intros H; contradiction|]. split; [intros; exact Hs|].
    intros; now split. }
  destruct withdraw_addr as [[|c addr]|].
  - exists []. cbn [withdraw_from_root_to ret snd fst]. rewrite app_nil_r.
    split; [reflexivity|]. split; [unfold sends; simpl; lia|]. split; [intros ? ? ? []|].
    apply Hnothing; [discriminate | reflexivity].
  - unfold withdraw_from_root_to, get_user_wallets, send_transaction, bind, await, ret,
      lift, decode_keypair.
    cbn [snd fst tick trace].
    destruct (head _) as [root|] eqn:Hroot; cbn [snd fst tick trace].
    + destruct (env_from_secret_key env (base58_key root)) as [root_key|] eqn:Hrk.
      * destruct (parse_address (String c addr)) as [dest_pub|] eqn:Hparse.
        -- destruct (to_lamports amount) as [lamports|e] eqn:Hl; cbn [snd fst tick trace].
           ++ destruct (transfer_cases lamports) as [[Hfit Hrange] | [Hfit Hrange]];
                rewrite Hfit; cbn [snd fst tick trace].
              ** exists [EvGetWallets user_id; EvSend (public_key root_key) dest_pub lamports].
                 split; [destruct (env_send env (S (tick w))); cbn [snd trace];
                         now rewrite <- app_assoc|].
                 split; [unfold sends; simpl; lia|]. split.
                 { intros from to l [Heq | [Heq | []]]; [discriminate|].
                   injection Heq as <- <- <-. exists (String c addr), root.
                   rewrite Hrk. cbn [from_option]. repeat split; try assumption;
                     try discriminate; lia. }
                 split; [reflexivity|]. split.
                 { intros addr' Heq Hnone'. injection Heq as <-. congruence. }
                 intros l Heq Hout. injection Heq as <-. lia.
              ** exists [EvGetWallets user_id]. split; [reflexivity|].
                 split; [unfold sends; simpl; lia|]. split.
                 { intros ? ? ? [Heq | []]. discriminate. }
                 apply Hnothing; [discriminate | reflexivity].
           ++ exists [EvGetWallets user_id]. split; [reflexivity|].
              split; [unfold sends; simpl; lia|]. split.
              { intros ? ? ? [Heq | []]. discriminate. }
              apply Hnothing; [discriminate | reflexivity].
        -- exists [EvGetWallets user_id]. split; [reflexivity|].
           split; [unfold sends; simpl; lia|]. split.
           { intros ? ? ? [Heq | []]. discriminate. }
           apply Hnothing; [discriminate | reflexivity].
      * exists [EvGetWallets user_id]. split; [reflexivity|].
        split; [unfold sends; simpl; lia|]. split.
        { intros ? ? ? [Heq | []]. discriminate. }
        apply Hnothing; [discriminate | reflexivity].
    + exists [EvGetWallets user_id]. split; [reflexivity|].
      split; [unfold sends; simpl; lia|]. split.
      { intros ? ? ? [Heq | []]. discriminate. }
      apply Hnothing; [discriminate | reflexivity].
  - exists []. cbn [withdraw_from_root_to ret snd fst]. rewrite app_nil_r.
    split; [reflexivity|]. split; [unfold sends; simpl; lia|]. split; [intros ? ? ? []|].
    apply Hnothing; [discriminate | reflexivity].
Qed.

(** A withdrawal to an address that has a character that is no base58
    digit: the answer is "Invalid withdraw address." and nothing is sent. *)
Lemma withdraw_from_root_single_attempt_witness :
  fst (withdraw_from_root_to funded scenario_parse_address (Some "0x00"%string) "7" 0.5 idle)
    = Ok InvalidAddress /\
  sends (trace (snd (withdraw_from_root_to funded scenario_parse_address
                       (Some "0x00"%string) "7" 0.5 idle))) = 0%nat.
Proof.
  destruct (withdraw_from_root_single_attempt funded scenario_parse_address
              (Some "0x00"%string) "7" 0.5 idle)
    as (_ & evs & Ht & _ & _ & _ & Hinvalid & _).
  split; [reflexivity|]. rewrite Ht. exact (Hinvalid "0x00"%string eq_refl eq_refl).
Defined.

(** X18. [run_user_trading] starts nothing, and does not even read the
    wallets, when the user has no token address. Otherwise it never
    raises and starts one controller for each agent wallet whose key
    decodes, in the order of the wallets, sleeping one second after each
    start; wallets that are no agents and agents whose key does not decode
    are passed over. *)
Theorem run_user_trading_starts_one_controller_per_agent (env : Env)
    (token_address : option string) (user_id : string) (w : World) :
  let wallets := env_wallets env (tick w) user_id in
  (token_address = None \/ token_address = Some ""%string ->
   run_user_trading_from env token_address user_id w = (Ok [], w)) /\
  (forall c rest, token_address = Some (String c rest) ->
   exists w',
     run_user_trading_from env token_address user_id w
       = (Ok (controllers_of env wallets), w') /\
     trace w' = trace w ++ EvGetWallets user_id
                  :: repeat (EvSleep 1) (length (controllers_of env wallets))).
Proof.
  intros wallets. split.
  - intros [-> | ->]; reflexivity.
  - intros c rest ->. unfold run_user_trading_from, get_user_wallets.
    unfold bind at 1. unfold bind at 1. unfold await at 1, ret at 1. cbn [snd fst tick].
    fold wallets.
    match goal with |- context [spawn_loop env wallets [] ?w1] =>
      destruct (spawn_loop_spec env wallets [] w1) as (w' & Hrun & Ht) end.
    exists w'. rewrite Hrun. split; [reflexivity|].
    rewrite Ht. cbn [trace]. now rewrite <- app_assoc.
Qed.

(** The wallets of user ["7"]: the root is passed over, and so is agent
    [B], whose key does not decode. *)
Lemma run_user_trading_starts_one_controller_per_agent_witness :
  exists w',
    run_user_trading_from funded (Some "T"%string) "7" idle
      = (Ok [({| public_key := "pub:" +:+ key_A |}, "A"%string);
             ({| public_key := "pub:" +:+ key_C |}, "C"%string)], w') /\
    trace w' = [EvGetWallets "7"; EvSleep 1; EvSleep 1].
Proof.
  destruct (run_user_trading_starts_one_controller_per_agent funded (Some "T"%string)
              "7" idle) as (_ & Hruns).
  destruct (Hruns "T"%char ""%string eq_refl) as (w' & Hrun & Ht).
  exists w'. split; [exact Hrun | exact Ht].
Defined.

(* ================================================================== *)
(** * Properties of the masking of sensitive data *)
(* ================================================================== *)

Lemma length_stars n : length (stars n) = Z.to_nat n.
Proof. apply repeat_length. Qed.

(** X19. With a positive number of visible characters, the masked string
    has the length of the data; data of at most twice that number of
    characters is masked entirely; in longer data the first and the last
    characters of that number are kept and every character between them
    is a star. *)
Theorem mask_sensitive_data_hides_middle (data : list ascii) (visible_chars : Z) :
  let n := length data in
  let v := Z.to_nat visible_chars in
  let masked := mask_sensitive_data data visible_chars in
  0 < visible_chars ->
  length masked = n /\
  ((n <= 2 * v)%nat -> masked = repeat "*"%char n) /\
  ((2 * v < n)%nat ->
   firstn v masked = firstn v data /\
   skipn (n - v) masked = skipn (n - v) data /\
   forall i, (v <= i < n - v)%nat -> nth_error masked i = Some "*"%char).
Proof.
  intros n v masked Hpos. subst masked. unfold mask_sensitive_data.
  fold n. destruct (Z.leb_spec (Z.of_nat n) (2 * visible_chars)) as [Hshort|Hlong].
  - assert (Hn : (n <= 2 * v)%nat) by (unfold v; lia).
    unfold stars. rewrite Nat2Z.id.
    split; [apply repeat_length|]. split; [reflexivity | lia].
  - assert (Hn : (2 * v < n)%nat) by (unfold v; lia).
    assert (Hto : slice_to data visible_chars = firstn v data).
    { unfold slice_to, py_index. fold n. destruct (Z.ltb_spec visible_chars 0); [lia|].
      f_equal. unfold v. lia. }
    assert (Hfrom : slice_from data (- visible_chars) = skipn (n - v) data).
    { unfold slice_from, py_index. fold n. destruct (Z.ltb_spec (- visible_chars) 0); [|lia].
      f_equal. unfold v. lia. }
    assert (Hlen_to : length (firstn v data) = v) by (rewrite length_firstn; fold n; lia).
    assert (Hlen_from : length (skipn (n - v) data) = v)
      by (rewrite length_skipn; fold n; lia).
    assert (Hlen_stars : length (stars (Z.of_nat n - 2 * visible_chars)) = (n - 2 * v)%nat)
      by (rewrite length_stars; unfold v; lia).
    rewrite Hto, Hfrom.
    split; [rewrite !length_app, Hlen_to, Hlen_from, Hlen_stars; lia|].
    split; [lia|]. intros _. split; [|split].
    + rewrite firstn_app, Hlen_to, Nat.sub_diag. cbn [firstn].
      rewrite app_nil_r. apply firstn_all2. lia.
    + rewrite app_assoc, skipn_app.
      rewrite skipn_all2 by (rewrite length_app, Hlen_to, Hlen_stars; lia).
      rewrite length_app, Hlen_to, Hlen_stars.
      replace (n - v - (v + (n - 2 * v)))%nat with 0%nat by lia. reflexivity.
    + intros i Hi. rewrite nth_error_app2 by lia. rewrite Hlen_to.
      rewrite nth_error_app1 by lia.
      apply nth_error_repeat. unfold v in *. lia.
Qed.

Lemma mask_sensitive_data_hides_middle_witness :
  length (mask_sensitive_data (list_ascii_of_string "4Jgs8aGj66iQCt88") 4) = 16%nat /\
  nth_error (mask_sensitive_data (list_ascii_of_string "4Jgs8aGj66iQCt88") 4) 7
    = Some "*"%char.
Proof.
  destruct (mask_sensitive_data_hides_middle (list_ascii_of_string "4Jgs8aGj66iQCt88") 4)
    as (Hlen & _ & Hlong); [lia|].
  split; [exact Hlen|].
  destruct Hlong as (_ & _ & Hmid); [simpl; lia|]. apply Hmid. simpl. lia.
Defined.

(** X20. With zero visible characters nothing is hidden: the masked string
    is as many stars as the data has characters, followed by the data
    itself. *)
Theorem mask_sensitive_data_zero_reveals_all (data : list ascii) :
  mask_sensitive_data data 0 = repeat "*"%char (length data) ++ data.
Proof.
  unfold mask_sensitive_data.
  destruct (Z.leb_spec (Z.of_nat (length data)) (2 * 0)) as [Hle|Hgt].
  - assert (Hnil : length data = 0%nat) by lia.
    destruct data; [reflexivity | discriminate].
  - unfold slice_to, slice_from, py_index, stars.
    change (- 0 <? 0) with false. change (0 <? 0) with false. cbv iota.
    change (- 0) with 0.
    replace (Z.to_nat (Z.max 0 (Z.min (Z.of_nat (length data)) 0))) with 0%nat by lia.
    replace (Z.to_nat (Z.of_nat (length data) - 2 * 0)) with (length data) by lia.
    reflexivity.
Qed.
